(** * NuX normalizing flows: a shallow embedding of the mixture-CDF bijections,
      the bisection solver, the affine-Gaussian priors, the network
      constructors and the checkpoint resume path.

    Conventions of the embedding.
    - Python exceptions are values of [Py.exn]; a function that can raise
      returns [Py.result].
    - Array arithmetic is written against the interface [Num] (the operations
      [jax.numpy] offers on arrays and scalars) and [Special] (the
      transcendental functions).  Two instances are given: exact rationals,
      which compute, and exact reals.  Rounding is not modelled.
    - A rank-1 data tensor is a [list]; a parameter tensor with one parameter
      row per data element is a list of rows. *)

From Stdlib Require Import ZArith QArith Qabs Qpower Lqa Reals Lra Lia List.
From stdpp Require Import base strings list gmap pretty.

Set Default Proof Using "Type".
Local Open Scope Z_scope.

(** ** Python: exceptions and name resolution *)

Module Py.

Inductive exn : Type :=
| NameError (name : string)
| AssertionError (msg : string)
| ValueError (msg : string)
| TypeError (msg : string)
| IndexError (msg : string)
| FileNotFoundError (path : string)
| NonTermination.

Definition result (A : Type) : Type := exn + A.

Definition ret {A} (a : A) : result A := inr a.
Definition raise {A} (e : exn) : result A := inl e.
Definition bind {A B} (m : result A) (k : A -> result B) : result B :=
  match m with
  | inl e => inl e
  | inr a => k a
  end.

Definition raises {A} (m : result A) : Prop := exists e, m = inl e.
Definition returns {A} (m : result A) : Prop := exists a, m = inr a.

(** A loop of the model that was granted too few iterations; the theorems on
    [Bisection.bisection] show that its loop never ends this way. *)
Definition of_loop {A} (o : option A) : result A :=
  match o with
  | Some a => ret a
  | None => raise NonTermination
  end.

(** [for a in l: ...], stopping at the first exception. *)
Fixpoint mapM {A B} (f : A -> result B) (l : list A) : result (list B) :=
  match l with
  | [] => ret []
  | a :: l' =>
      match f a with
      | inl e => inl e
      | inr b =>
          match mapM f l' with
          | inl e => inl e
          | inr bs => inr (b :: bs)
          end
      end
  end.

(** [assert c, msg] *)
Definition assert_ (c : bool) (msg : string) : result unit :=
  if c then ret tt else raise (AssertionError msg).

(** The names of the builtins module. *)
Definition builtins : list string :=
  ["abs"; "all"; "any"; "ascii"; "bin"; "bool"; "breakpoint"; "bytearray";
   "bytes"; "callable"; "chr"; "classmethod"; "compile"; "complex";
   "delattr"; "dict"; "dir"; "divmod"; "enumerate"; "eval"; "exec";
   "filter"; "float"; "format"; "frozenset"; "getattr"; "globals";
   "hasattr"; "hash"; "help"; "hex"; "id"; "input"; "int"; "isinstance";
   "issubclass"; "iter"; "len"; "list"; "locals"; "map"; "max";
   "memoryview"; "min"; "next"; "object"; "oct"; "open"; "ord"; "pow";
   "print"; "property"; "range"; "repr"; "reversed"; "round"; "set";
   "setattr"; "slice"; "sorted"; "staticmethod"; "str"; "sum"; "super";
   "tuple"; "type"; "vars"; "zip"; "__import__"; "None"; "True"; "False"].

(** The names a function body can read: its parameters and the variables it
    assigns, the local variables of the functions it is nested in, and the
    names bound at the top level of its module. *)
Record scope : Type := Scope {
  locals : list string;
  enclosing : list string;
  module_globals : list string
}.

Definition bound (sc : scope) (name : string) : bool :=
  existsb (String.eqb name)
    (locals sc ++ enclosing sc ++ module_globals sc ++ builtins).

(** Reading a variable by name. *)
Definition load_name (sc : scope) (name : string) : result unit :=
  if bound sc name then ret tt else raise (NameError name).

(** The names one statement reads, in evaluation order. *)
Fixpoint load_names (sc : scope) (names : list string) : result unit :=
  match names with
  | [] => ret tt
  | n :: names' =>
      match load_name sc n with
      | inl e => inl e
      | inr _ => load_names sc names'
      end
  end.

End Py.

Notation "'let*' x := m 'in' k" := (Py.bind m (fun x => k))
  (at level 10, x pattern, m at level 100, k at level 200,
   format "'[v' 'let*'  x  :=  m  'in' '/' k ']'").
Notation "'do' m ; k" := (Py.bind m (fun _ => k))
  (at level 10, m at level 100, k at level 200,
   format "'[v' 'do'  m ; '/' k ']'").

(** ** Array arithmetic *)

(** The operations of [jax.numpy] the sources use on arrays (and on scalars,
    which are arrays of rank 0).  A Python float literal is broadcast by
    [lit]; [gt_mask a b] is [a > b] as it enters arithmetic (1 where it holds,
    0 elsewhere); [allclose a b rtol atol] is [jnp.allclose]. *)
Class Num (A : Type) : Type := {
  lit : Q -> A;
  zeros_like : A -> A;
  ones_like : A -> A;
  add : A -> A -> A;
  sub : A -> A -> A;
  mul : A -> A -> A;
  neg : A -> A;
  gt_mask : A -> A -> A;
  allclose : A -> A -> Q -> Q -> bool
}.

(** The transcendental functions and constants. *)
Class Special (A : Type) : Type := {
  exp : A -> A;
  log : A -> A;
  tanh : A -> A;
  ndtr : A -> A;
  pi : A
}.

(** The operator [/] on arrays, [jnp.true_divide]. *)
Class Division (A : Type) : Type := {
  true_divide : A -> A -> A
}.

(** [jnp.linalg.inv] *)
Class Inverse (A : Type) : Type := {
  linalg_inv : list (list A) -> list (list A)
}.

Module NumQ.

(** Exact rationals, kept in lowest terms. *)
Definition Qgt_mask (a b : Q) : Q := if Qlt_le_dec b a then 1%Q else 0%Q.

Definition Qallclose (a b rtol atol : Q) : bool :=
  Qle_bool (Qabs (a - b)) (atol + rtol * Qabs b).

#[export] Instance Q_Num : Num Q := {|
  lit q := Qred q;
  zeros_like _ := 0%Q;
  ones_like _ := 1%Q;
  add a b := Qred (a + b);
  sub a b := Qred (a - b);
  mul a b := Qred (a * b);
  neg a := Qred (- a);
  gt_mask := Qgt_mask;
  allclose := Qallclose
|}.

End NumQ.

Module NumR.

(** The standard normal distribution function,
    [1/2 + (2 pi)^(-1/2) * integral of exp(-t^2/2) from 0 to x]. *)
Definition gauss_kernel (t : R) : R := Rtrigo_def.exp (- (t * t) / 2).

Definition gauss_integrable (a b : R) : Riemann_integrable gauss_kernel a b.
Proof.
  assert (Hc : continuity gauss_kernel) by (unfold gauss_kernel; reg).
  destruct (Rle_dec a b) as [h | h].
  - apply continuity_implies_RiemannInt; [exact h |].
    intros x _. apply Hc.
  - apply RiemannInt_P1. apply continuity_implies_RiemannInt; [lra |].
    intros x _. apply Hc.
Defined.

Definition Rndtr (x : R) : R :=
  (1 / 2 + / sqrt (2 * PI) * RiemannInt (gauss_integrable 0 x))%R.

Definition Rgt_mask (a b : R) : R := if Rlt_dec b a then 1%R else 0%R.

Definition Rallclose (a b : R) (rtol atol : Q) : bool :=
  if Rle_dec (Rabs (a - b)) (Q2R atol + Q2R rtol * Rabs b) then true else false.

#[export] Instance R_Num : Num R := {|
  lit := Q2R;
  zeros_like _ := 0%R;
  ones_like _ := 1%R;
  add := Rplus;
  sub := Rminus;
  mul := Rmult;
  neg := Ropp;
  gt_mask := Rgt_mask;
  allclose := Rallclose
|}.

#[export] Instance R_Special : Special R := {|
  exp := Rtrigo_def.exp;
  log := ln;
  tanh := Rtrigo_def.tanh;
  ndtr := Rndtr;
  pi := PI
|}.

End NumR.

(** ** Rank-1 and rank-2 arrays *)

Module Arr.

Section Arrays.
Context {A : Type} `{Num A}.

(** [jnp.sum] of a rank-1 array. *)
Definition sum (l : list A) : A := foldr add (lit 0) l.

(** An elementwise binary operation on two rank-1 arrays, with the
    broadcasting of an axis of size 1.  The arrays are those of [jax], whose
    shape rules report operands that do not fit with a [TypeError], for the
    elementwise operations as for the products [@] and [jnp.dot]. *)
Definition broadcast (g : A -> A -> A) (xs ys : list A) : Py.result (list A) :=
  if bool_decide (length xs = length ys) then Py.ret (zip_with g xs ys)
  else match xs, ys with
       | [a], _ => Py.ret (map (g a) ys)
       | _, [b] => Py.ret (map (fun a => g a b) xs)
       | _, _ => Py.raise (Py.TypeError "got incompatible shapes for broadcasting")
       end.

(** A matrix is the list of its rows. *)
Definition dot (u v : list A) : A := sum (zip_with mul u v).

Definition ncols (M : list (list A)) : nat :=
  match M with
  | [] => O
  | row :: _ => length row
  end.

(** [M.T] *)
Definition transpose (M : list (list A)) : list (list A) :=
  map (fun j => map (fun row => nth j row (lit 0)) M) (seq 0 (ncols M)).

(** [M @ N] for two matrices. *)
Definition matmul (M N : list (list A)) : list (list A) :=
  map (fun row => map (fun col => dot row col) (transpose N)) M.

(** [jnp.einsum('ij,j->i', M, v)]: the sizes of the label [j] must agree, or
    the parser of the subscripts raises a [ValueError]. *)
Definition matvec (M : list (list A)) (v : list A) : Py.result (list A) :=
  if forallb (fun row => Nat.eqb (length row) (length v)) M
  then Py.ret (map (fun row => dot row v) M)
  else Py.raise (Py.ValueError "size of contracted axis does not match").

(** [M @ v] for a matrix and a vector: the same product, but a row of [M]
    that is not as long as [v] is a [TypeError]. *)
Definition matmul_vec (M : list (list A)) (v : list A) : Py.result (list A) :=
  if forallb (fun row => Nat.eqb (length row) (length v)) M
  then Py.ret (map (fun row => dot row v) M)
  else Py.raise (Py.TypeError
         "dot_general requires contracting dimensions to have the same shape").

(** [jnp.dot(v, N)] for a vector and a matrix. *)
Definition vecmat (v : list A) (N : list (list A)) : Py.result (list A) :=
  matmul_vec (transpose N) v.

(** [M + N] for two matrices of one shape. *)
Definition matadd (M N : list (list A)) : Py.result (list (list A)) :=
  if bool_decide (length M = length N)
  then Py.mapM (fun rs => broadcast add (fst rs) (snd rs)) (zip M N)
  else Py.raise (Py.TypeError "got incompatible shapes for broadcasting").

(** [jnp.eye(n)] *)
Definition eye (n : nat) : list (list A) :=
  map (fun i => map (fun j => if Nat.eqb i j then lit 1 else lit 0) (seq 0 n)) (seq 0 n).

(** [M @ N] and [jnp.dot(M, N)] for two matrices: the rows of [M] must be as
    long as [N] has rows. *)
Definition matmul_checked (M N : list (list A)) : Py.result (list (list A)) :=
  if forallb (fun row => Nat.eqb (length row) (length N)) M
  then Py.ret (matmul M N)
  else Py.raise (Py.TypeError
         "dot_general requires contracting dimensions to have the same shape").

End Arrays.

End Arr.

(** ** [nux/flows/bijective/mixture.py]: the bisection solver *)

Module Bisection.

Section Solver.
Context {A : Type} `{Num A}.

(** The loop state [(x, current_x, current_z, lower, upper, dx, i)]. *)
Definition val : Type := A * A * A * A * A * A * Z.

Definition val_x (v : val) : A :=
  let '(x, current_x, current_z, lower, upper, dx, i) := v in x.
Definition val_current_x (v : val) : A :=
  let '(x, current_x, current_z, lower, upper, dx, i) := v in current_x.
Definition val_lower (v : val) : A :=
  let '(x, current_x, current_z, lower, upper, dx, i) := v in lower.
Definition val_upper (v : val) : A :=
  let '(x, current_x, current_z, lower, upper, dx, i) := v in upper.
Definition val_current_z (v : val) : A :=
  let '(x, current_x, current_z, lower, upper, dx, i) := v in current_z.
Definition val_dx (v : val) : A :=
  let '(x, current_x, current_z, lower, upper, dx, i) := v in dx.
Definition val_i (v : val) : Z :=
  let '(x, current_x, current_z, lower, upper, dx, i) := v in i.

Definition bisection_body (f : A -> A) (v : val) : val :=
  let '(x, current_x, current_z, lower, upper, dx, i) := v in
  let gt := gt_mask current_x x in
  let lt := sub (lit 1) gt in
  let new_z := add (mul (mul gt (lit 0.5)) (add current_z lower))
                   (mul (mul lt (lit 0.5)) (add current_z upper)) in
  let lower := add (mul gt lower) (mul lt current_z) in
  let upper := add (mul gt current_z) (mul lt upper) in
  let current_z := new_z in
  let current_x := f current_z in
  let dx := sub current_x x in
  (x, current_x, current_z, lower, upper, dx, i + 1).

(** [jax.lax.while_loop], with the number of iterations it may take. *)
Fixpoint while_loop {S : Type} (fuel : nat) (cond_fun : S -> bool)
    (body_fun : S -> S) (v : S) : option S :=
  match fuel with
  | O => None
  | Datatypes.S n =>
      if cond_fun v then while_loop n cond_fun body_fun (body_fun v)
      else Some v
  end.

(** The default [rtol] of [jnp.allclose]. *)
Definition allclose_rtol : Q := 1e-5.

Definition cond_fun (atol : Q) (max_iters : Z) (v : val) : bool :=
  let '(x, current_x, current_z, lower, upper, dx, i) := v in
  let max_iters_reached := if Z.ltb max_iters i then true else false in
  let tolerance_achieved := allclose dx (lit 0) allclose_rtol atol in
  negb (max_iters_reached || tolerance_achieved).

Definition init_val (f : A -> A) (lower upper x : A) : val :=
  let z := zeros_like x in
  (x, f z, z, lower, upper, mul (ones_like x) (lit 10), 0).

(** Iterations granted to the loop: one more than it can use. *)
Definition bisection_fuel (max_iters : Z) : nat := Z.to_nat (max_iters + 1) + 1.

(** The state the loop of [bisection] ends in. *)
Definition bisection_loop (f : A -> A) (lower upper x : A) (atol : Q)
    (max_iters : Z) : option val :=
  while_loop (bisection_fuel max_iters) (cond_fun atol max_iters)
    (bisection_body f) (init_val f lower upper x).

Definition bisection (f : A -> A) (lower upper x : A) (atol : Q)
    (max_iters : Z) : option A :=
  val_current_z <$> bisection_loop f lower upper x atol max_iters.

End Solver.

Definition default_atol : Q := 1e-8.
Definition default_max_iters : Z := 10000.

End Bisection.

(** ** [nux/flows/bijective/mixture.py]: the mixture transforms *)

Module Mixture.
Import Arr.

Section Transform.
Context {A : Type} `{Num A} `{Special A}.

(** [jax.scipy.special.logsumexp], [jax.nn.log_softmax] and
    [jax.nn.log_sigmoid] on a rank-1 array, by their defining formulas. *)
Definition logsumexp (l : list A) : A := log (sum (map exp l)).
Definition log_softmax (l : list A) : list A :=
  map (fun a => sub a (logsumexp l)) l.
Definition log_sigmoid (u : A) : A := neg (log (add (lit 1) (exp (neg u)))).

(** The scalar functions of one data element [x] and its [K] components. *)
Definition param_fun : Type := list A -> list A -> list A -> A -> A.

(** [_GaussianMixtureMixin.f] *)
Definition gaussian_f : param_fun := fun weight_logits means log_scales x =>
  let weight_logits := log_softmax weight_logits in
  let dx := map (fun m => sub x m) means in
  let cdf := map ndtr
    (zip_with mul dx (map (fun s => exp (mul (lit (-0.5)) s)) log_scales)) in
  let z := sum (zip_with mul (map exp weight_logits) cdf) in
  z.

(** [_GaussianMixtureMixin.log_det]; the final [.sum()] is over a scalar. *)
Definition gaussian_log_det : param_fun := fun weight_logits means log_scales x =>
  let weight_logits := log_softmax weight_logits in
  let dx := map (fun m => sub x m) means in
  let log_pdf := zip_with
    (fun d s => sub (sub (mul (mul (lit (-0.5)) (mul d d)) (exp (neg s)))
                         (mul (lit 0.5) s))
                    (mul (lit 0.5) (log (mul (lit 2) pi))))
    dx log_scales in
  logsumexp (zip_with add weight_logits log_pdf).

(** [_LogitsticMixtureMixin.f] *)
Definition logistic_f : param_fun := fun weight_logits means log_scales x =>
  let weight_logits := log_softmax weight_logits in
  let z_scores := zip_with mul (map (fun m => sub x m) means)
                               (map (fun s => exp (neg s)) log_scales) in
  let log_cdf := map log_sigmoid z_scores in
  let z := logsumexp (zip_with add weight_logits log_cdf) in
  exp z.

(** [_LogitsticMixtureMixin.log_det] *)
Definition logistic_log_det : param_fun := fun weight_logits means log_scales x =>
  let weight_logits := log_softmax weight_logits in
  let z_scores := zip_with mul (map (fun m => sub x m) means)
                               (map (fun s => exp (neg s)) log_scales) in
  let log_pdf := zip_with
    (fun s u => add (add (neg s) (log_sigmoid u)) (log_sigmoid (neg u)))
    log_scales z_scores in
  logsumexp (zip_with add weight_logits log_pdf).

(** [MixtureCDF.f_and_log_det] *)
Definition f_and_log_det (f log_det : param_fun)
    (weight_logits means log_scales : list A) (x : A) : A * A :=
  (f weight_logits means log_scales x, log_det weight_logits means log_scales x).

(** The two variants with a bisected inverse. *)
Inductive kind : Type := Gaussian | Logistic.

Definition f_of (k : kind) : param_fun :=
  match k with Gaussian => gaussian_f | Logistic => logistic_f end.
Definition log_det_of (k : kind) : param_fun :=
  match k with Gaussian => gaussian_log_det | Logistic => logistic_log_det end.

(** [row[a:b]] for [0 <= a <= b]. *)
Definition slice (row : list A) (a b : Z) : list A :=
  take (Z.to_nat (b - a)) (drop (Z.to_nat a) row).

(** [n_components = (theta.shape[-1] - 2)//3] *)
Definition n_components_of (width : Z) : Z := (width - 2) `div` 3.

(** The five pieces [jnp.split] cuts one parameter row into. *)
Record pieces : Type := Pieces {
  weight_logits : list A;
  means : list A;
  log_scales : list A;
  log_s : list A;
  t : list A
}.

(** The slices [row[:n]], [row[n:2n]], [row[2n:3n]], [row[3n:3n+1]] and
    [row[3n+1:]] of one row of [theta], for [n = n_components]. *)
Definition pieces_of (row : list A) : pieces :=
  let n := n_components_of (Z.of_nat (length row)) in
  Pieces (slice row 0 n) (slice row n (2 * n)) (slice row (2 * n) (3 * n))
         (slice row (3 * n) (3 * n + 1)) (drop (Z.to_nat (3 * n + 1)) row).

(** [jnp.split(theta, [n, 2n, 3n, 3n+1], axis=-1)] on one row of [theta];
    a row narrower than 2 gives negative indices, which the slicing refuses. *)
Definition split_theta (row : list A) : Py.result pieces :=
  let n_components := n_components_of (Z.of_nat (length row)) in
  if n_components <? 0
  then Py.raise (Py.TypeError "slice start_indices must be greater than or equal to zero")
  else Py.ret (pieces_of row).

(** [a[..., 0]] on one row. *)
Definition index0 (row : list A) : Py.result A :=
  match row with
  | a :: _ => Py.ret a
  | [] => Py.raise (Py.IndexError "index 0 is out of bounds for axis with size 0")
  end.

(** [vmap] of a function of one parameter row and one data element over the
    leading axis of both. *)
Definition vmap {P B : Type} (g : P -> A -> Py.result B) (ps : list P)
    (xs : list A) : Py.result (list B) :=
  if bool_decide (length ps = length xs)
  then Py.mapM (fun px => g (fst px) (snd px)) (zip ps xs)
  else Py.raise (Py.ValueError "vmap got inconsistent sizes for array axes to be mapped").

(** The affine parameters [(log_s, t)] after
    [log_s = 1.5*jnp.tanh(log_s[...,0])] and [t = t[...,0]]. *)
Definition affine_params (ps : list pieces) : Py.result (list A * list A) :=
  let* log_s := Py.mapM (fun p => let* s := index0 (log_s p) in
                                  Py.ret (mul (lit 1.5) (tanh s))) ps in
  let* t := Py.mapM (fun p => index0 (t p)) ps in
  Py.ret (log_s, t).

(** [mixture_forward] with [needs_vmap=True] (the value of the Gaussian and
    the logistic variants), on a rank-1 [x] and a [theta] with one row per
    element of [x]. *)
Definition mixture_forward (f_and_log_det_fun : list A -> list A -> list A -> A -> A * A)
    (x : list A) (theta : list (list A)) (with_affine_coupling : bool)
    : Py.result (list A * A) :=
  let* ps := Py.mapM split_theta theta in
  let* affine := if with_affine_coupling
                 then let* a := affine_params ps in Py.ret (Some a)
                 else Py.ret None in
  let* zl := vmap (fun p x => Py.ret (f_and_log_det_fun (weight_logits p) (means p)
                                        (log_scales p) x)) ps x in
  let z := map fst zl in
  let log_det := sum (map snd zl) in
  match affine with
  | Some (log_s, t) =>
      let* z_t := broadcast sub z t in
      let* z := broadcast mul z_t (map (fun s => exp (neg s)) log_s) in
      let log_det := add log_det (neg (sum log_s)) in
      Py.ret (z, log_det)
  | None => Py.ret (z, log_det)
  end.

(** [bisection_no_vmap], the wrapper around the solver. *)
Definition bisection_no_vmap (eval_fun : param_fun)
    (weight_logits means log_scales : list A) (x : A) : Py.result A :=
  let lower := sub (zeros_like x) (lit 1000) in
  let upper := add (zeros_like x) (lit 1000) in
  let filled_f := eval_fun weight_logits means log_scales in
  Py.of_loop (Bisection.bisection filled_f lower upper x
                Bisection.default_atol Bisection.default_max_iters).

(** [mixture_inverse] with [needs_vmap=True]. *)
Definition mixture_inverse (eval_fun log_det_fun : param_fun)
    (x : list A) (theta : list (list A)) (with_affine_coupling : bool)
    : Py.result (list A * A) :=
  let* ps := Py.mapM split_theta theta in
  let* x_eld :=
    if with_affine_coupling
    then let* a := affine_params ps in
         let '(log_s, t) := a in
         let* x_s := broadcast mul x (map exp log_s) in
         let* x := broadcast add x_s t in
         let elementwise_log_det := neg (sum log_s) in
         Py.ret (x, elementwise_log_det)
    else Py.ret (x, lit 0) in
  let '(x, elementwise_log_det) := x_eld in
  let* z := vmap (fun p x => bisection_no_vmap eval_fun (weight_logits p) (means p)
                               (log_scales p) x) ps x in
  let* ld := vmap (fun p z => Py.ret (log_det_fun (weight_logits p) (means p)
                                        (log_scales p) z)) ps z in
  Py.ret (z, add (sum ld) elementwise_log_det).

(** *** The layout of one parameter row, by position

    With [K] the number of components read off the row's width:
    [row[:K]], [row[K:2K]], [row[2K:3K]], [row[3K]] and [row[3K+1]]. *)
Definition row_K (row : list A) : nat :=
  Z.to_nat (n_components_of (Z.of_nat (length row))).
Definition row_weight_logits (row : list A) : list A := take (row_K row) row.
Definition row_means (row : list A) : list A :=
  take (row_K row) (drop (row_K row) row).
Definition row_log_scales (row : list A) : list A :=
  take (row_K row) (drop (2 * row_K row) row).
Definition row_log_s (row : list A) : A := nth (3 * row_K row) row (lit 0).
Definition row_t (row : list A) : A := nth (3 * row_K row + 1) row (lit 0).

(** The bounded log-scale [1.5*tanh(log_s)] of a row. *)
Definition row_bounded_log_s (row : list A) : A :=
  mul (lit 1.5) (tanh (row_log_s row)).

(** The mixture CDF and the mixture log-density a row parametrizes. *)
Definition row_cdf (k : kind) (row : list A) : A -> A :=
  f_of k (row_weight_logits row) (row_means row) (row_log_scales row).
Definition row_log_density (k : kind) (row : list A) : A -> A :=
  log_det_of k (row_weight_logits row) (row_means row) (row_log_scales row).

(** What the solver returns for the target [y] on the CDF [F], with the
    bracket and the defaults of [bisection_no_vmap]. *)
Definition solve (F : A -> A) (y : A) : A :=
  default (zeros_like y)
    (Bisection.bisection F (sub (zeros_like y) (lit 1000))
       (add (zeros_like y) (lit 1000)) y
       Bisection.default_atol Bisection.default_max_iters).

End Transform.

(** *** [CouplingMixtureCDF]: the shapes of the coupling case *)

(** [get_out_shape]: [x_shape] is [x.shape] without the batch axes. *)
Definition get_out_shape (n_components : Z) (x_shape : list Z) : Py.result (list Z) :=
  match last x_shape with
  | Some c =>
      let out_dim := c * 3 * n_components in
      Py.ret (removelast x_shape ++ [out_dim])
  | None => Py.raise (Py.IndexError "tuple index out of range")
  end.

(** The shape of [theta] in [transform]: the learned parameter when
    [params is None], the reshaped conditioner output otherwise. *)
Definition transform_theta_shape (n_components : Z) (x_shape : list Z)
    (params_given : bool) : list Z :=
  if params_given then x_shape ++ [3 * n_components]
  else x_shape ++ [3 * n_components + 2].

(** [params.reshape(x.shape + (3*n_components,))] for a rank-1 [x]: the
    conditioner output cut into rows of [3*n_components]. *)
Fixpoint rows_of {A : Type} (n : nat) (width : nat) (params : list A) : list (list A) :=
  match n with
  | O => []
  | S n' => take width params :: rows_of n' width (drop width params)
  end.

Definition reshape {A : Type} (n_components : Z) (x : list A) (params : list A)
    : Py.result (list (list A)) :=
  let width := Z.to_nat (3 * n_components) in
  if bool_decide (length params = (length x * width)%nat)
  then Py.ret (rows_of (length x) width params)
  else Py.raise (Py.TypeError "cannot reshape array").

(** [CouplingMixtureCDF.transform] with conditioner output [params], in the
    density direction ([sample == False]) and the sampling direction. *)
Definition transform `{Num A} `{Special A} (k : kind) (n_components : Z)
    (x : list A) (params : list A) (sample : bool) : Py.result (list A * A) :=
  let* theta := reshape n_components x params in
  if sample
  then mixture_inverse (f_of k) (log_det_of k) x theta true
  else mixture_forward (f_and_log_det (f_of k) (log_det_of k)) x theta true.

End Mixture.

(** ** Notions used to state the properties on exact reals *)

Module OnR.
Import NumR Arr Bisection Mixture.
Local Open Scope R_scope.

Definition increasing (F : R -> R) : Prop := forall a b : R, a < b -> F a < F b.

(** The distance the iteration cap leaves between the iterate and the point
    looked for: half the bracket after 10001 halvings of [-1000, 1000]. *)
Definition cap_distance : R := 1000 / 2 ^ Z.to_nat 10001.

(** After [n] iterations towards the target [F r]: the bracket holds [r], the
    iterate is its midpoint, and its width is [2000 / 2^n]. *)
Definition bracket (F : R -> R) (r : R) (n : nat) (v : val) : Prop :=
  val_x v = F r
  /\ val_current_x v = F (val_current_z v)
  /\ val_lower v <= r <= val_upper v
  /\ val_current_z v = (val_lower v + val_upper v) / 2
  /\ val_upper v - val_lower v = 2000 / 2 ^ n.

(** The sum under the logarithm of [logistic_f], and the sum of
    [gaussian_f], for normalized weight logits [ws]. *)
Definition logistic_sum (ws ms ss : list R) (x : R) : R :=
  sum (map exp (zip_with add ws
         (map log_sigmoid (zip_with mul (map (fun m => sub x m) ms)
                             (map (fun s => exp (neg s)) ss))))).

Definition gaussian_sum (ws ms ss : list R) (x : R) : R :=
  sum (zip_with mul (map exp ws)
         (map ndtr (zip_with mul (map (fun m => sub x m) ms)
                      (map (fun s => exp (mul (lit (-0.5)) s)) ss)))).

(** One logistic or Gaussian component with every parameter at zero. *)
Definition zero_row : list R := [0; 0; 0; 0; 0].

(** After the first iteration and [n] further ones towards the target [F r]:
    the bracket holds [r], the iterate is its midpoint, and its width is at
    most [M / 2^n]. *)
Definition narrowing (F : R -> R) (r M : R) (n : nat) (v : val) : Prop :=
  val_x v = F r
  /\ val_current_x v = F (val_current_z v)
  /\ val_lower v <= r <= val_upper v
  /\ val_current_z v = (val_lower v + val_upper v) / 2
  /\ val_upper v - val_lower v <= M / 2 ^ n.

(** The sums under the logarithm of [logistic_log_det] and of
    [gaussian_log_det], for normalized weight logits [ws]. *)
Definition logistic_density_sum (ws ms ss : list R) (x : R) : R :=
  sum (map exp (zip_with add ws
         (zip_with (fun s u => add (add (neg s) (log_sigmoid u)) (log_sigmoid (neg u)))
            ss (zip_with mul (map (fun m => sub x m) ms)
                             (map (fun s => exp (neg s)) ss))))).

Definition gaussian_density_sum (ws ms ss : list R) (x : R) : R :=
  sum (map exp (zip_with add ws
         (zip_with
            (fun d s => sub (sub (mul (mul (lit (-0.5)) (mul d d)) (exp (neg s)))
                                 (mul (lit 0.5) s))
                            (mul (lit 0.5) (log (mul (lit 2) pi))))
            (map (fun m => sub x m) ms) ss))).

End OnR.

(** ** [src/flows/priors.py]: the affine-Gaussian priors *)

Module Priors.
Import Arr.

(** The names bound at the top level of the module. *)
Definition priors_globals : list string :=
  ["jax"; "jnp"; "vmap"; "random"; "jit"; "jaxinit"; "partial"; "util"; "base";
   "UnitGaussianPrior"; "AffineGaussianPriorFullCov";
   "AffineGaussianPriorDiagCov"; "__all__"].

(** The scopes of the nested functions [forward] and [inverse]. *)
Definition FullCov_enclosing : list string :=
  ["out_dim"; "A_init"; "Sigma_chol_init"; "name"; "triangular_indices";
   "forward"; "inverse"; "apply_fun"; "create_params_and_state"].

Definition FullCov_forward_scope : Py.scope :=
  Py.Scope ["params"; "state"; "inputs"; "kwargs"; "x"; "A"; "Sigma_chol_flat";
            "x_dim"; "z_dim"; "Sigma_chol"; "diag"; "sigma"; "Sigma_inv_A";
            "IpL"; "IpL_inv"; "z"; "x_proj"; "a"; "log_hx"]
           FullCov_enclosing priors_globals.

Definition FullCov_inverse_scope : Py.scope :=
  Py.Scope ["params"; "state"; "inputs"; "kwargs"; "z"; "A"; "Sigma_chol_flat";
            "x"; "Sigma_chol"; "diag"; "key"; "sigma"; "noise"; "log_px"]
           FullCov_enclosing priors_globals.

Definition DiagCov_enclosing : list string :=
  ["out_dim"; "A_init"; "name"; "forward"; "inverse"; "apply_fun";
   "create_params_and_state"].

Definition DiagCov_inverse_scope : Py.scope :=
  Py.Scope ["params"; "state"; "inputs"; "kwargs"; "z"; "A"; "log_diag_cov";
            "x"; "key"; "sigma"; "noise"; "log_px"; "outputs"]
           DiagCov_enclosing priors_globals.

(** Library functions: [random.normal(key, shape)] for a rank-1 shape and
    [jnp.linalg.slogdet]. *)
Class Linalg (A : Type) : Type := {
  rng_key : Type;
  random_normal : rng_key -> nat -> list A;
  slogdet : list (list A) -> A * A
}.

(** Library functions only the full-covariance prior calls: [jnp.linalg.inv],
    [jax.scipy.linalg.cho_solve], [jnp.diag], [a[indices]] and
    [jax.ops.index_update] on the diagonal. *)
Class Cholesky (A : Type) : Type := {
  inv : list (list A) -> list (list A);
  cho_solve : list (list A) * bool -> list (list A) -> list (list A);
  jnp_diag : list (list A) -> list A;
  indices : Type;
  take_indices : list A -> indices -> list (list A);
  index_update_diag : list (list A) -> list A -> list (list A)
}.

(** Functions of the repository's [util] module, which is not among the
    sources: they are parameters of the model. *)
Class Util (A : Type) : Type := {
  gaussian_diag_cov_logpdf : list A -> list A -> list A -> A
}.

Class CholeskyUtil (A : Type) : Type := {
  gaussian_chol_cov_logpdf : list A -> list A -> list A -> A;
  upper_cho_solve : list (list A) -> list A -> list A
}.

Section Priors.
Context {A : Type} `{Num A} `{Special A} `{Linalg A} `{Util A}.
Context `{Cholesky A} `{CholeskyUtil A}.

Definition vector : Type := list A.
Definition matrix : Type := list (list A).

(** The [outputs] dictionary, with its keys ['x'] and ['log_det']. *)
Record outputs : Type := Outputs { out_x : vector; out_log_det : A }.

(** The layer state [{'sigma': ...}]. *)
Record state : Type := State { sigma : A }.

Record DiagCov_params : Type := DiagCovParams {
  diag_A : matrix;
  log_diag_cov : vector
}.

Record FullCov_params : Type := FullCovParams {
  full_A : matrix;
  Sigma_chol_flat : vector
}.

(** [AffineGaussianPriorDiagCov.inverse]; [z] is [inputs['x']], of rank 1, and
    [key] is [kwargs.pop('key', None)]. *)
Definition DiagCov_inverse (params : DiagCov_params) (st : state) (z : vector)
    (key : option rng_key) : Py.result (outputs * state) :=
  let sc := DiagCov_inverse_scope in
  let A_ := diag_A params in
  let log_diag_cov := log_diag_cov params in
  do Py.load_names sc ["jnp"];
  let* x := matvec A_ z in
  let* x_log_px :=
    match key with
    | Some key =>
        let sigma := sigma st in
        do Py.load_names sc ["random"; "jnp"];
        let* scaled := broadcast mul (random_normal key (length x))
                         (map (fun c => exp (mul (lit 0.5) c)) log_diag_cov) in
        let noise := map (fun n => mul n sigma) scaled in
        let* x := broadcast add x noise in
        do Py.load_names sc ["util"; "jnp"];
        let log_px := gaussian_diag_cov_logpdf noise (map zeros_like noise)
                        log_diag_cov in
        Py.ret (x, log_px)
    | None =>
        do Py.load_names sc ["jnp"];
        let log_px := mul (lit (-0.5))
                          (snd (slogdet (matmul (transpose A_) A_))) in
        Py.ret (x, log_px)
    end in
  let '(x, log_px) := x_log_px in
  Py.ret (Outputs x log_px, st).

(** [AffineGaussianPriorFullCov.forward]; [x] is [inputs['x']], of rank 1 as
    the function asserts, and [triangular_indices] is the variable of the
    enclosing function that [create_params_and_state] sets.  Each statement
    first reads the names it refers to that are not bound by the function
    itself. *)
Definition FullCov_forward (triangular_indices : indices)
    (params : FullCov_params) (st : state) (x : vector)
    : Py.result (outputs * state) :=
  let sc := FullCov_forward_scope in
  let A_ := full_A params in
  let Sigma_chol_flat := Sigma_chol_flat params in
  let x_dim := length A_ in
  let z_dim := ncols A_ in
  do Py.load_names sc ["triangular_indices"];
  let Sigma_chol := take_indices Sigma_chol_flat triangular_indices in
  do Py.load_names sc ["jnp"];
  let diag := jnp_diag Sigma_chol in
  do Py.load_names sc ["index_update"; "jnp"; "jnp"];
  let Sigma_chol := index_update_diag Sigma_chol (map exp diag) in
  let sigma := sigma st in
  let Sigma_chol := map (map (mul sigma)) Sigma_chol in
  do Py.load_names sc ["jax"];
  let Sigma_inv_A := cho_solve (Sigma_chol, true) A_ in
  do Py.load_names sc ["jnp"];
  let* IpL := matadd (eye z_dim) (matmul (transpose A_) Sigma_inv_A) in
  do Py.load_names sc ["jnp"];
  let IpL_inv := inv IpL in
  do Py.load_names sc ["jnp"];
  let* z := matvec (matmul IpL_inv (transpose Sigma_inv_A)) x in
  do Py.load_names sc ["jnp"];
  let* x_proj := matvec Sigma_inv_A z in
  do Py.load_names sc ["util"];
  let a := upper_cho_solve Sigma_chol x in
  do Py.load_names sc ["jnp"];
  let* a_x_proj := broadcast sub a x_proj in
  let* x_a := broadcast mul x a_x_proj in
  let log_hx := mul (lit (-0.5)) (sum x_a) in
  do Py.load_names sc ["jnp"];
  let log_hx := sub log_hx (mul (lit 0.5) (snd (slogdet IpL))) in
  let log_hx := sub log_hx (sum diag) in
  do Py.load_names sc ["jnp"; "jnp"];
  let log_hx := sub log_hx (mul (mul (lit 0.5) (lit (inject_Z (Z.of_nat x_dim))))
                                (log (mul (lit 2) pi))) in
  do Py.load_names sc ["outputs"];
  do Py.load_names sc ["outputs"];
  do Py.load_names sc ["outputs"];
  Py.ret (Outputs z log_hx, st).

(** [AffineGaussianPriorFullCov.inverse]; [z] is [inputs['x']], of rank 1 as
    the function asserts, and [log_diag_cov_value] stands for what a binding
    of the name [log_diag_cov] would supply. *)
Definition FullCov_inverse (triangular_indices : indices)
    (log_diag_cov_value : vector) (params : FullCov_params) (st : state)
    (z : vector) (key : option rng_key) : Py.result (outputs * state) :=
  let sc := FullCov_inverse_scope in
  let A_ := full_A params in
  let Sigma_chol_flat := Sigma_chol_flat params in
  let* x := matmul_vec A_ z in
  do Py.load_names sc ["triangular_indices"];
  let Sigma_chol := take_indices Sigma_chol_flat triangular_indices in
  do Py.load_names sc ["jnp"];
  let diag := jnp_diag Sigma_chol in
  do Py.load_names sc ["jax"; "jnp"; "jnp"];
  let Sigma_chol := index_update_diag Sigma_chol (map exp diag) in
  let* x_noise :=
    match key with
    | Some key =>
        let sigma := sigma st in
        do Py.load_names sc ["random"];
        let noise := map (fun n => mul n sigma) (random_normal key (length x)) in
        do Py.load_names sc ["jnp"];
        let* shift := vecmat noise (transpose Sigma_chol) in
        let* x := broadcast add x shift in
        Py.ret (x, noise)
    | None =>
        do Py.load_names sc ["jnp"];
        Py.ret (x, map zeros_like x)
    end in
  let '(x, noise) := x_noise in
  do Py.load_names sc ["util"; "jnp"; "log_diag_cov"];
  let log_px := gaussian_chol_cov_logpdf noise (map zeros_like noise)
                  log_diag_cov_value in
  do Py.load_names sc ["outputs"];
  do Py.load_names sc ["outputs"];
  do Py.load_names sc ["outputs"];
  Py.ret (Outputs x log_px, st).

(** [apply_fun] of the full-covariance prior. *)
Definition FullCov_apply_fun (triangular_indices : indices)
    (log_diag_cov_value : vector) (params : FullCov_params) (st : state)
    (x : vector) (reverse : bool) (key : option rng_key)
    : Py.result (outputs * state) :=
  if negb reverse then FullCov_forward triangular_indices params st x
  else FullCov_inverse triangular_indices log_diag_cov_value params st x key.

End Priors.

End Priors.

(** ** [src/flows/priors.py]: the unit Gaussian prior *)

Module UnitGaussianPrior.
Import Arr Priors.

Section Prior.
Context {A : Type} `{Num A} `{Special A}.

(** [jnp.prod] of a shape. *)
Definition prod (shape : list Z) : Z := foldr Z.mul 1 shape.

(** [create_params_and_state]: the value it assigns to the variable [dim] of
    the enclosing function, which is [None] before; the parameters and the
    state it returns are empty dictionaries. *)
Definition create_params_and_state (x_shape : list Z) : option Z :=
  Some (prod x_shape).

(** [apply_fun]; [dim] is the variable of the enclosing function, [x] is
    [inputs['x']] and the state is handed back as it came. *)
Definition apply_fun {S : Type} (dim : option Z) (state : S) (x : list A)
    (reverse : bool) : Py.result (outputs * S) :=
  if negb reverse then
    let squares := mul (lit (-0.5)) (sum (map (fun a => mul a a) x)) in
    match dim with
    | Some dim =>
        let log_det := add squares
                         (mul (mul (lit (-0.5)) (lit (inject_Z dim)))
                              (log (mul (lit 2) pi))) in
        Py.ret (Outputs x log_det, state)
    | None =>
        Py.raise (Py.TypeError "unsupported operand type(s) for *: 'float' and 'NoneType'")
    end
  else Py.ret (Outputs x (lit 0), state).

End Prior.

End UnitGaussianPrior.

(** ** [src/flows/priors.py]: the diagonal-covariance prior, forward
       direction and initialization *)

Module DiagCovPrior.
Import Arr Priors.

Section Prior.
Context {A : Type} `{Num A} `{Special A} `{Division A} `{Inverse A}.
Context `{Linalg A} `{Util A}.

(** [M / v]: the matrix [M] divided by the vector [v], broadcast over the
    rows. *)
Definition divide_rows (M : list (list A)) (v : list A) : Py.result (list (list A)) :=
  Py.mapM (fun row => broadcast true_divide row v) M.

(** [AffineGaussianPriorDiagCov.forward]; [x] is [inputs['x']], of rank 1 as
    the function asserts. *)
Definition DiagCov_forward (params : DiagCov_params) (st : state) (x : vector)
    : Py.result (outputs * state) :=
  let A_ := diag_A params in
  let log_diag_cov := log_diag_cov params in
  let sigma := sigma st in
  let log_diag_cov := map (fun c => add c (mul (lit 2) (log sigma))) log_diag_cov in
  let diag_cov := map exp log_diag_cov in
  let x_dim := length A_ in
  let z_dim := ncols A_ in
  let* At_d := divide_rows (transpose A_) diag_cov in
  let* L := matmul_checked At_d A_ in
  let* IpL := matadd (eye z_dim) L in
  let IpL_inv := linalg_inv IpL in
  let* IA := matmul_checked IpL_inv (transpose A_) in
  let* IA_d := divide_rows IA diag_cov in
  let* z := matvec IA_d x in
  let* Az := matmul_vec A_ z in
  let* x_proj := broadcast true_divide Az diag_cov in
  let* x_d := broadcast true_divide x diag_cov in
  let* diff := broadcast sub x_d x_proj in
  let* x_diff := broadcast mul x diff in
  let log_hx := mul (lit (-0.5)) (sum x_diff) in
  let log_hx := sub log_hx (mul (lit 0.5) (snd (slogdet IpL))) in
  let log_hx := sub log_hx (mul (lit 0.5) (sum log_diag_cov)) in
  let log_hx := sub log_hx (mul (mul (lit 0.5) (lit (inject_Z (Z.of_nat x_dim))))
                                (log (mul (lit 2) pi))) in
  Py.ret (Outputs z log_hx, st).

(** [apply_fun] of the diagonal-covariance prior. *)
Definition DiagCov_apply_fun (params : DiagCov_params) (st : state) (x : vector)
    (reverse : bool) (key : option rng_key) : Py.result (outputs * state) :=
  if negb reverse then DiagCov_forward params st x
  else DiagCov_inverse params st x key.

(** [create_params_and_state]; [A_init] is the initializer the prior was
    built with and [x_shape] is [input_shapes['x']]. *)
Definition DiagCov_create_params_and_state
    (A_init : rng_key -> nat * nat -> list (list A)) (out_dim : nat)
    (key : rng_key) (x_shape : list nat) : Py.result (DiagCov_params * state) :=
  match last x_shape with
  | Some n =>
      let A_ := A_init key (n, out_dim) in
      let log_diag_cov := repeat (lit 0) n in
      Py.ret (DiagCovParams A_ log_diag_cov, State (lit 1))
  | None => Py.raise (Py.IndexError "tuple index out of range")
  end.

End Prior.

End DiagCovPrior.

(** *** An interpretation of the library over the reals

    The determinant by expansion along the first row, a generator whose draws
    are all zero, and the log-density of a Gaussian with diagonal covariance:
    enough to run the diagonal-covariance prior on concrete inputs. *)

Module RealLib.
Import NumR Arr Priors.
Local Open Scope R_scope.

(** The determinant of the leading [n] rows, expanded along the first row. *)
Fixpoint det (n : nat) (M : list (list R)) : R :=
  match n, M with
  | S n', row :: rest =>
      fold_right Rplus 0
        (map (fun j => (-1) ^ j * nth j row 0 * det n' (map (delete j) rest))
             (seq 0 (length row)))
  | _, _ => 1
  end.

Definition Rsign (d : R) : R :=
  if Rlt_dec 0 d then 1 else if Rlt_dec d 0 then -1 else 0.

(** [jnp.linalg.slogdet]: the sign and the logarithm of the absolute value of
    the determinant. *)
Definition Rslogdet (M : list (list R)) : R * R :=
  let d := det (length M) M in (Rsign d, ln (Rabs d)).

(** Modelled from the spec: [util.gaussian_diag_cov_logpdf], which is not
    among the sources, as the Gaussian log-pdf the spec and its name speak
    of: the log-density at [x] of the Gaussian with mean [mean] and
    covariance [diag(exp(log_diag_cov))]. *)
Definition Rgaussian_diag_cov_logpdf (x mean log_diag_cov : list R) : R :=
  fold_right Rplus 0
    (zip_with (fun d c => - / 2 * (d * d / Rtrigo_def.exp c + c + ln (2 * PI)))
       (zip_with Rminus x mean) log_diag_cov).

#[export] Instance R_Linalg : Linalg R := {|
  rng_key := nat;
  random_normal _ n := repeat 0 n;
  slogdet := Rslogdet
|}.

#[export] Instance R_Util : Util R := {|
  gaussian_diag_cov_logpdf := Rgaussian_diag_cov_logpdf
|}.

(** [jnp.linalg.inv] by cofactors: entry [(i, j)] is the cofactor of
    [(j, i)] over the determinant. *)
Definition Rinv_matrix (M : list (list R)) : list (list R) :=
  let n := length M in
  let d := det n M in
  map (fun i =>
         map (fun j => (-1) ^ (i + j)
                       * det (n - 1) (map (delete i) (delete j M)) / d)
             (seq 0 n))
      (seq 0 n).

#[export] Instance R_Division : Division R := {| true_divide := Rdiv |}.
#[export] Instance R_Inverse : Inverse R := {| linalg_inv := Rinv_matrix |}.

(** An initializer for the matrix [A]: every entry one. *)
Definition ones_init (key : nat) (shape : nat * nat) : list (list R) :=
  repeat (repeat 1 (snd shape)) (fst shape).

(** [A^T A] for a matrix [M] of [m] columns, entry by entry: the entry
    [(j, k)] is the sum, over the rows, of the product of their entries [j]
    and [k]. *)
Definition gram (m : nat) (M : list (list R)) : list (list R) :=
  map (fun j =>
         map (fun k =>
                fold_right Rplus 0 (map (fun row => nth j row 0 * nth k row 0) M))
             (seq 0 m))
      (seq 0 m).

(** The library with any function [normal] in the place of [random.normal],
    for keys of any type. *)
Definition sampler {K : Type} (normal : K -> nat -> list R) : Linalg R :=
  {| rng_key := K; random_normal := normal; slogdet := Rslogdet |}.

(** A generator whose draws all equal the key. *)
Definition key_draws (key : nat) (n : nat) : list R := repeat (INR key) n.

(** What the spec calls the Gaussian log-pdf of the injected noise: the
    log-density, at the noise the inverse direction injects, of the
    distribution that noise is drawn from, the Gaussian with mean 0 and
    covariance [sigma^2 * diag(exp(log_diag_cov))], which is the covariance
    [exp(log_diag_cov + 2*log(sigma))] of the forward direction. *)
Definition injected_noise_logpdf (sigma : R) (log_diag_cov noise : list R) : R :=
  Rgaussian_diag_cov_logpdf noise (map (fun _ => 0) noise)
    (map (fun c => c + 2 * ln sigma) log_diag_cov).

(** The library calls of the full-covariance prior on reals: [a[indices]]
    for an array of positions, which [jax] clamps to the array, [jnp.diag],
    [jax.ops.index_update] on the diagonal, [jnp.linalg.inv] and
    [jax.scipy.linalg.cho_solve] for a factor [c] of [c c^T] (lower) or of
    [c^T c]. *)
Definition Rtake (flat : list R) (positions : list (list nat)) : list (list R) :=
  map (map (fun k => nth (Nat.min k (length flat - 1)) flat 0)) positions.

Definition Rdiag (M : list (list R)) : list R :=
  map (fun i => nth i (nth i M []) 0) (seq 0 (Nat.min (length M) (ncols M))).

Definition Rset_diag (M : list (list R)) (d : list R) : list (list R) :=
  imap (fun i row => <[i := nth i d 0]> row) M.

Definition Rcho_solve (c_lower : list (list R) * bool) (B : list (list R))
    : list (list R) :=
  let c := fst c_lower in
  let S := if snd c_lower then matmul c (transpose c) else matmul (transpose c) c in
  matmul (Rinv_matrix S) B.

#[export] Instance R_Cholesky : Cholesky R := {|
  inv := Rinv_matrix;
  cho_solve := Rcho_solve;
  jnp_diag := Rdiag;
  indices := list (list nat);
  take_indices := Rtake;
  index_update_diag := Rset_diag
|}.

(** The two functions of [util] the full-covariance prior names: a solve
    against [U^T U] for an upper factor [U], and a log-density that is handed
    the vector standing for [log_diag_cov].  No call of the prior gets as far
    as calling either. *)
#[export] Instance R_CholeskyUtil : CholeskyUtil R := {|
  gaussian_chol_cov_logpdf := Rgaussian_diag_cov_logpdf;
  upper_cho_solve U x :=
    map (fun row => dot row x) (Rinv_matrix (matmul (transpose U) U))
|}.

End RealLib.

(** ** [nux/networks/mlp.py] and [nux/networks/cnn.py]: the constructors *)

Module Networks.

(** The activation functions a constructor can store. *)
Inductive activation : Type :=
| relu
| tanh_
| sigmoid
| swish
| lipswish.

(** What ends up in [self.nonlinearity]: a function, or the result of calling
    one. *)
Inductive nonlinearity_attr : Type :=
| Function (a : activation)
| Applied (a : activation).

Definition mlp_globals : list string :=
  ["jnp"; "jit"; "random"; "partial"; "jax"; "hk"; "sn"; "Optional"; "Mapping";
   "Callable"; "Sequence"; "Any"; "init"; "__all__";
   "data_dependent_param_init"; "MLP"].

Definition cnn_globals : list string :=
  ["jnp"; "jit"; "random"; "partial"; "jax"; "hk"; "sn"; "util"; "Optional";
   "Mapping"; "Callable"; "Sequence"; "Any"; "init"; "__all__";
   "data_dependent_param_init"; "Conv"; "RepeatedConv"; "BottleneckConv";
   "ReverseBottleneckConv"; "ConvBlock"; "CNN"].

Definition MLP_init_scope : Py.scope :=
  Py.Scope ["self"; "out_dim"; "layer_sizes"; "nonlinearity"; "parameter_norm";
            "w_init"; "b_init"; "name"] [] mlp_globals.

Definition RepeatedConv_init_scope : Py.scope :=
  Py.Scope ["self"; "channel_sizes"; "kernel_shapes"; "parameter_norm"; "stride";
            "padding"; "lhs_dilation"; "rhs_dilation"; "w_init"; "b_init";
            "use_bias"; "normalization"; "nonlinearity"; "name"; "norm"]
           [] cnn_globals.

Definition ConvBlock_init_scope : Py.scope :=
  Py.Scope ["self"; "out_channel"; "hidden_channel"; "parameter_norm"; "norm";
            "nonlinearity"; "w_init"; "b_init"; "use_bias"; "name"]
           [] cnn_globals.

Definition CNN_init_scope : Py.scope :=
  Py.Scope ["self"; "n_blocks"; "hidden_channel"; "out_channel";
            "parameter_norm"; "normalization"; "nonlinearity"; "squeeze_excite";
            "block_type"; "name"] [] cnn_globals.

(** *** [MLP] *)

Record MLP : Type := {
  mlp_out_dim : Z;
  mlp_layer_sizes : list Z;
  mlp_parameter_norm : option string;
  mlp_nonlinearity : nonlinearity_attr
}.

(** [MLP.__init__]; the initializers [w_init], [b_init] cannot fail and are
    left out of the record. *)
Definition MLP_init (out_dim : Z) (layer_sizes : list Z) (nonlinearity : string)
    (parameter_norm : option string) : Py.result MLP :=
  let sc := MLP_init_scope in
  let layer_sizes := layer_sizes ++ [out_dim] in
  let* nl :=
    if String.eqb nonlinearity "relu" then
      do Py.load_names sc ["jax"]; Py.ret (Function relu)
    else if String.eqb nonlinearity "tanh" then
      do Py.load_names sc ["jnp"]; Py.ret (Function tanh_)
    else if String.eqb nonlinearity "sigmoid" then
      do Py.load_names sc ["jax"]; Py.ret (Function sigmoid)
    else if String.eqb nonlinearity "swish" then
      do Py.load_names sc ["jax"; "x"]; Py.ret (Applied swish)
    else if String.eqb nonlinearity "lipswish" then
      Py.ret (Function lipswish)
    else
      Py.raise (Py.AssertionError "Invalid nonlinearity") in
  do Py.load_names sc ["hk"; "jnp"];
  Py.ret {| mlp_out_dim := out_dim;
            mlp_layer_sizes := layer_sizes;
            mlp_parameter_norm := parameter_norm;
            mlp_nonlinearity := nl |}.

(** *** [RepeatedConv] and its subclasses *)

Inductive norm_layer : Type := BatchNorm | InstanceNorm.

Record RepeatedConv : Type := {
  rc_channel_sizes : list Z;
  rc_kernel_shapes : list (Z * Z);
  rc_parameter_norm : option string;
  rc_use_bias : bool;
  rc_nonlinearity : nonlinearity_attr;
  rc_norm : option norm_layer
}.

(** [RepeatedConv.__init__]; [normalization] is [None] or a string. *)
Definition RepeatedConv_init (channel_sizes : list Z)
    (kernel_shapes : list (Z * Z)) (parameter_norm : option string)
    (use_bias : bool) (normalization : option string) (nonlinearity : string)
    : Py.result RepeatedConv :=
  let sc := RepeatedConv_init_scope in
  do Py.assert_ (Nat.eqb (length channel_sizes) (length kernel_shapes)) "";
  do Py.load_names sc ["dict"];
  let* nl :=
    if String.eqb nonlinearity "relu" then
      do Py.load_names sc ["jax"]; Py.ret (Function relu)
    else if String.eqb nonlinearity "tanh" then
      do Py.load_names sc ["jnp"]; Py.ret (Function tanh_)
    else if String.eqb nonlinearity "sigmoid" then
      do Py.load_names sc ["jax"]; Py.ret (Function sigmoid)
    else if String.eqb nonlinearity "swish" then
      do Py.load_names sc ["jax"]; Py.ret (Function swish)
    else if String.eqb nonlinearity "lipswish" then
      Py.ret (Function lipswish)
    else
      Py.raise (Py.AssertionError "Invalid nonlinearity") in
  let norm :=
    match normalization with
    | Some kind =>
        if String.eqb kind "batch_norm" then Some BatchNorm
        else if String.eqb kind "instance_norm" then Some InstanceNorm
        else None
    | None => None
    end in
  Py.ret {| rc_channel_sizes := channel_sizes;
            rc_kernel_shapes := kernel_shapes;
            rc_parameter_norm := parameter_norm;
            rc_use_bias := use_bias;
            rc_nonlinearity := nl;
            rc_norm := norm |}.

(** [BottleneckConv.__init__] and [ReverseBottleneckConv.__init__] *)
Definition BottleneckConv_init (hidden_channel out_channel : Z)
    (parameter_norm normalization : option string) (nonlinearity : string)
    : Py.result RepeatedConv :=
  let channel_sizes := [hidden_channel; hidden_channel; out_channel] in
  let kernel_shapes := [(1, 1); (3, 3); (1, 1)] in
  RepeatedConv_init channel_sizes kernel_shapes parameter_norm false
    normalization nonlinearity.

Definition ReverseBottleneckConv_init (hidden_channel out_channel : Z)
    (parameter_norm normalization : option string) (nonlinearity : string)
    : Py.result RepeatedConv :=
  let channel_sizes := [hidden_channel; hidden_channel; out_channel] in
  let kernel_shapes := [(3, 3); (1, 1); (3, 3)] in
  RepeatedConv_init channel_sizes kernel_shapes parameter_norm false
    normalization nonlinearity.

(** *** [ConvBlock] *)

Record ConvBlock : Type := {
  cb_out_channel : Z;
  cb_hidden_channel : Z;
  cb_use_bias : bool;
  cb_norm : option string;
  cb_parameter_norm : option string;
  cb_nonlinearity : nonlinearity_attr;
  cb_norm_layers : option norm_layer
}.

(** [ConvBlock.__init__]; the three [Conv] it builds cannot fail. *)
Definition ConvBlock_init (out_channel hidden_channel : Z)
    (parameter_norm norm : option string) (nonlinearity : string)
    (use_bias : bool) : Py.result ConvBlock :=
  let sc := ConvBlock_init_scope in
  do Py.load_names sc ["hk"; "jnp"];
  let* nl :=
    if String.eqb nonlinearity "relu" then
      do Py.load_names sc ["jax"]; Py.ret (Function relu)
    else if String.eqb nonlinearity "tanh" then
      do Py.load_names sc ["jax"]; Py.ret (Function tanh_)
    else if String.eqb nonlinearity "sigmoid" then
      do Py.load_names sc ["jax"]; Py.ret (Function sigmoid)
    else if String.eqb nonlinearity "swish" then
      do Py.load_names sc ["jax"; "x"]; Py.ret (Applied swish)
    else if String.eqb nonlinearity "lipswish" then
      Py.ret (Function lipswish)
    else
      Py.raise (Py.AssertionError "Invalid nonlinearity") in
  let* layers :=
    match norm with
    | Some kind =>
        if String.eqb kind "batch_norm" then
          do Py.load_names sc ["hk"; "hk"; "hk"]; Py.ret (Some BatchNorm)
        else if String.eqb kind "instance_norm" then
          do Py.load_names sc ["hk"; "hk"; "hk"]; Py.ret (Some InstanceNorm)
        else Py.ret None
    | None => Py.ret None
    end in
  do Py.load_names sc ["Conv"; "Conv"; "Conv"];
  Py.ret {| cb_out_channel := out_channel;
            cb_hidden_channel := hidden_channel;
            cb_use_bias := use_bias;
            cb_norm := norm;
            cb_parameter_norm := parameter_norm;
            cb_nonlinearity := nl;
            cb_norm_layers := layers |}.

(** *** [CNN] *)

Inductive conv_block : Type := UseBottleneckConv | UseReverseBottleneckConv.

Record CNN : Type := {
  cnn_n_blocks : Z;
  cnn_hidden_channel : Z;
  cnn_out_channel : Z;
  cnn_squeeze_excite : bool;
  cnn_parameter_norm : option string;
  cnn_normalization : option string;
  cnn_nonlinearity : string;
  cnn_conv_block : conv_block
}.

(** [CNN.__init__]: the nonlinearity and the normalization are only stored in
    [conv_block_kwargs]. *)
Definition CNN_init (n_blocks hidden_channel out_channel : Z)
    (parameter_norm normalization : option string) (nonlinearity : string)
    (squeeze_excite : bool) (block_type : string) : Py.result CNN :=
  let sc := CNN_init_scope in
  do Py.load_names sc ["dict"];
  let* block :=
    if String.eqb block_type "bottleneck" then
      do Py.load_names sc ["BottleneckConv"]; Py.ret UseBottleneckConv
    else if String.eqb block_type "reverse_bottleneck" then
      do Py.load_names sc ["ReverseBottleneckConv"]; Py.ret UseReverseBottleneckConv
    else
      Py.raise (Py.AssertionError "Invalid block type") in
  Py.ret {| cnn_n_blocks := n_blocks;
            cnn_hidden_channel := hidden_channel;
            cnn_out_channel := out_channel;
            cnn_squeeze_excite := squeeze_excite;
            cnn_parameter_norm := parameter_norm;
            cnn_normalization := normalization;
            cnn_nonlinearity := nonlinearity;
            cnn_conv_block := block |}.

(** The names each constructor accepts for its nonlinearity. *)
Definition accepted_nonlinearities : list string :=
  ["relu"; "tanh"; "sigmoid"; "swish"; "lipswish"].

End Networks.

(** ** [nux/networks/cnn.py]: applying the convolutional networks *)

Module ConvCalls.
Import Networks.

(** [a, b, ... = x.shape] with [n] names on the left. *)
Definition unpack_shape (n : nat) (shape : list Z) : Py.result (list Z) :=
  if Nat.ltb (length shape) n
  then Py.raise (Py.ValueError "not enough values to unpack")
  else if Nat.ltb n (length shape)
  then Py.raise (Py.ValueError "too many values to unpack")
  else Py.ret shape.

(** The keyword arguments a [Conv] hands to the convolution;
    [dimension_numbers] is always [('NHWC', 'HWIO', 'NHWC')]. *)
Record conv_kwargs : Type := ConvKwargs {
  stride : Z * Z;
  padding : string;
  lhs_dilation : Z * Z;
  rhs_dilation : Z * Z;
  transpose : bool
}.

(** Arrays of any rank, with the library calls of the module: the activation
    functions of [jax], [hk.get_parameter], [hk.BatchNorm] and
    [hk.InstanceNorm] applied to an array, and [out += b].  [util.apply_conv]
    and the functions of [init] belong to the repository but are not among
    the sources: they are parameters too, the latter taken to return [(w, b)]
    with a bias and [w] without, as the plain path of
    [data_dependent_param_init] does. *)
Class ArrayLib (T : Type) : Type := {
  shape : T -> list Z;
  apply_activation : activation -> T -> T;
  get_parameter : string -> list Z -> Py.result T;
  batch_norm : string -> T -> bool -> Py.result T;
  instance_norm : string -> T -> Py.result T;
  add_bias : T -> T -> Py.result T;
  apply_conv : T -> T -> conv_kwargs -> Py.result T;
  conv_weight_with_spectral_norm :
    T -> Z * Z -> Z -> string -> bool -> bool -> conv_kwargs
    -> Py.result (T * option T);
  conv_weight_with_weight_norm :
    T -> Z * Z -> Z -> string -> bool -> bool -> conv_kwargs
    -> Py.result (T * option T)
}.

Definition data_dependent_param_init_scope : Py.scope :=
  Py.Scope ["x"; "kernel_shape"; "out_channel"; "name_suffix"; "w_init";
            "b_init"; "parameter_norm"; "use_bias"; "is_training";
            "conv_kwargs"; "batch_size"; "H"; "W"; "C"; "w_shape"; "w"; "b"]
           [] cnn_globals.

Definition Conv_init_scope : Py.scope :=
  Py.Scope ["self"; "out_channel"; "kernel_shape"; "parameter_norm"; "stride";
            "padding"; "lhs_dilation"; "rhs_dilation"; "w_init"; "b_init";
            "use_bias"; "transpose"; "name"] [] cnn_globals.

Definition Conv_call_scope : Py.scope :=
  Py.Scope ["self"; "x"; "is_training"; "kwargs"; "batch_size"; "H"; "W"; "C";
            "params"; "w"; "b"; "out"] [] cnn_globals.

Definition RepeatedConv_call_scope : Py.scope :=
  Py.Scope ["self"; "x"; "is_training"; "kwargs"; "batch_size"; "H"; "W"; "C";
            "i"; "out_channel"; "kernel_shape"] [] cnn_globals.

Definition CNN_call_scope : Py.scope :=
  Py.Scope ["self"; "x"; "is_training"; "kwargs"; "i"; "conv"] [] cnn_globals.

(** *** [Conv] *)

Record Conv : Type := {
  conv_out_channel : Z;
  conv_kernel_shape : Z * Z;
  conv_parameter_norm : option string;
  conv_use_bias : bool;
  conv_conv_kwargs : conv_kwargs
}.

(** [Conv.__init__]; the initializers are left out of the record. *)
Definition Conv_init (out_channel : Z) (kernel_shape : Z * Z)
    (parameter_norm : option string) (stride : Z * Z) (padding : string)
    (lhs_dilation rhs_dilation : Z * Z) (use_bias : bool) (transpose : bool)
    : Py.result Conv :=
  let sc := Conv_init_scope in
  do Py.load_names sc ["hk"; "jnp"];
  do Py.load_names sc ["dict"];
  Py.ret {| conv_out_channel := out_channel;
            conv_kernel_shape := kernel_shape;
            conv_parameter_norm := parameter_norm;
            conv_use_bias := use_bias;
            conv_conv_kwargs := ConvKwargs stride padding lhs_dilation
                                  rhs_dilation transpose |}.

Section Calls.
Context {T : Type} `{ArrayLib T}.

(** [data_dependent_param_init] of [cnn.py]: the weight and, with
    [use_bias], the bias. *)
Definition data_dependent_param_init (x : T) (kernel_shape : Z * Z)
    (out_channel : Z) (name_suffix : string) (parameter_norm : option string)
    (use_bias : bool) (is_training : bool) (kwargs : conv_kwargs)
    : Py.result (T * option T) :=
  let sc := data_dependent_param_init_scope in
  let* s := unpack_shape 4 (shape x) in
  let batch_size := nth 0 s 0 in
  let C := nth 3 s 0 in
  let w_shape := [fst kernel_shape; snd kernel_shape; C; out_channel] in
  if bool_decide (parameter_norm = Some "spectral_norm") then
    do Py.load_names sc ["init"];
    conv_weight_with_spectral_norm x kernel_shape out_channel name_suffix
      use_bias is_training kwargs
  else if bool_decide (parameter_norm = Some "weight_norm") && (1 <? batch_size) then
    do Py.load_names sc ["init"];
    conv_weight_with_weight_norm x kernel_shape out_channel name_suffix
      use_bias is_training kwargs
  else
    do Py.load_names sc ["hk"];
    let* w := get_parameter ("w_" +:+ name_suffix) w_shape in
    if use_bias then
      do Py.load_names sc ["hk"];
      let* b := get_parameter ("b_" +:+ name_suffix) [out_channel] in
      Py.ret (w, Some b)
    else Py.ret (w, None).

(** [Conv.__call__] *)
Definition Conv_call (self : Conv) (x : T) (is_training : bool) : Py.result T :=
  let sc := Conv_call_scope in
  do unpack_shape 4 (shape x);
  do Py.load_names sc ["data_dependent_param_init"];
  let* params := data_dependent_param_init x (conv_kernel_shape self)
                   (conv_out_channel self) "" (conv_parameter_norm self)
                   (conv_use_bias self) is_training (conv_conv_kwargs self) in
  let '(w, b) := params in
  do Py.load_names sc ["util"];
  let* out := apply_conv x w (conv_conv_kwargs self) in
  match b with
  | Some b => add_bias out b
  | None => Py.ret out
  end.

(** [self.nonlinearity(x)]: the attribute is a function of [jax], or the
    array a call of one returned, which cannot be called. *)
Definition call_nonlinearity (nl : nonlinearity_attr) (x : T) : Py.result T :=
  match nl with
  | Function a => Py.ret (apply_activation a x)
  | Applied _ => Py.raise (Py.TypeError "object is not callable")
  end.

(** *** [RepeatedConv] *)

(** The body of the loop of [RepeatedConv.__call__] from index [i] on.  The
    record keeps no stride, padding or dilation: [RepeatedConv_init] is the
    constructor at their defaults, which is how the two bottleneck classes
    call it. *)
Fixpoint RepeatedConv_layers (self : RepeatedConv) (is_training : bool)
    (i : nat) (layers : list (Z * (Z * Z))) (x : T) : Py.result T :=
  match layers with
  | [] => Py.ret x
  | (out_channel, kernel_shape) :: layers' =>
      let sc := RepeatedConv_call_scope in
      do Py.load_names sc ["Conv"];
      let* conv := Conv_init out_channel kernel_shape (rc_parameter_norm self)
                     (1, 1) "SAME" (1, 1) (1, 1) (rc_use_bias self) false in
      let* x := Conv_call conv x is_training in
      let* x := match rc_norm self with
                | Some BatchNorm => batch_norm ("norm_" +:+ pretty i) x is_training
                | Some InstanceNorm => instance_norm ("norm_" +:+ pretty i) x
                | None => Py.ret x
                end in
      do Py.load_names sc ["len"];
      let* x := if Z.of_nat i <? Z.of_nat (length (rc_channel_sizes self)) - 1
                then call_nonlinearity (rc_nonlinearity self) x
                else Py.ret x in
      RepeatedConv_layers self is_training (S i) layers' x
  end.

(** [RepeatedConv.__call__] *)
Definition RepeatedConv_call (self : RepeatedConv) (x : T) (is_training : bool)
    : Py.result T :=
  let sc := RepeatedConv_call_scope in
  do unpack_shape 4 (shape x);
  do Py.load_names sc ["enumerate"; "zip"];
  RepeatedConv_layers self is_training 0
    (zip (rc_channel_sizes self) (rc_kernel_shapes self)) x.

(** *** [ConvBlock] *)

(** The three [Conv] layers [ConvBlock.__init__] builds. *)
Definition ConvBlock_conv (self : ConvBlock) (out_channel : Z)
    (kernel_shape : Z * Z) : Conv :=
  {| conv_out_channel := out_channel;
     conv_kernel_shape := kernel_shape;
     conv_parameter_norm := cb_parameter_norm self;
     conv_use_bias := cb_use_bias self;
     conv_conv_kwargs := ConvKwargs (1, 1) "SAME" (1, 1) (1, 1) false |}.

Definition ConvBlock_conv0 (self : ConvBlock) : Conv :=
  ConvBlock_conv self (cb_hidden_channel self) (3, 3).
Definition ConvBlock_conv1 (self : ConvBlock) : Conv :=
  ConvBlock_conv self (cb_hidden_channel self) (1, 1).
Definition ConvBlock_conv2 (self : ConvBlock) : Conv :=
  ConvBlock_conv self (cb_out_channel self) (3, 3).

(** The normalization step number [k] of [ConvBlock.__call__]. *)
Definition ConvBlock_norm (self : ConvBlock) (k : nat) (x : T)
    (is_training : bool) : Py.result T :=
  if bool_decide (cb_norm self = Some "batch_norm")
  then batch_norm ("bn_" +:+ pretty k) x is_training
  else if bool_decide (cb_norm self = Some "instance_norm")
  then instance_norm ("in_" +:+ pretty k) x
  else Py.ret x.

(** [ConvBlock.__call__]; the [Conv] layers are called with [is_training]
    left at its default. *)
Definition ConvBlock_call (self : ConvBlock) (x : T) (is_training : bool)
    : Py.result T :=
  do unpack_shape 3 (shape x);
  let* x := ConvBlock_norm self 0 x is_training in
  let* x := call_nonlinearity (cb_nonlinearity self) x in
  let* x := Conv_call (ConvBlock_conv0 self) x true in
  let* x := ConvBlock_norm self 1 x is_training in
  let* x := call_nonlinearity (cb_nonlinearity self) x in
  let* x := Conv_call (ConvBlock_conv1 self) x true in
  let* x := ConvBlock_norm self 2 x is_training in
  let* x := call_nonlinearity (cb_nonlinearity self) x in
  Conv_call (ConvBlock_conv2 self) x true.

(** *** [CNN] *)

(** [self.conv_block(out_channel=self.hidden_channel, **self.conv_block_kwargs)] *)
Definition CNN_block (self : CNN) : Py.result RepeatedConv :=
  match cnn_conv_block self with
  | UseBottleneckConv =>
      BottleneckConv_init (cnn_hidden_channel self) (cnn_hidden_channel self)
        (cnn_parameter_norm self) (cnn_normalization self) (cnn_nonlinearity self)
  | UseReverseBottleneckConv =>
      ReverseBottleneckConv_init (cnn_hidden_channel self) (cnn_hidden_channel self)
        (cnn_parameter_norm self) (cnn_normalization self) (cnn_nonlinearity self)
  end.

(** The loop [for i in range(self.n_blocks)] with [n] iterations to go;
    [squeeze_excitation] stands for what a binding of the name
    [SqueezeExcitation] would supply. *)
Fixpoint CNN_blocks (squeeze_excitation : T -> Py.result T) (self : CNN)
    (is_training : bool) (n : nat) (x : T) : Py.result T :=
  match n with
  | O => Py.ret x
  | S n' =>
      let sc := CNN_call_scope in
      let* block := CNN_block self in
      let* x := RepeatedConv_call block x is_training in
      let* x := if cnn_squeeze_excite self
                then do Py.load_names sc ["SqueezeExcitation"];
                     squeeze_excitation x
                else Py.ret x in
      CNN_blocks squeeze_excitation self is_training n' x
  end.

(** [CNN.__call__] *)
Definition CNN_call (squeeze_excitation : T -> Py.result T) (self : CNN) (x : T)
    (is_training : bool) : Py.result T :=
  let sc := CNN_call_scope in
  do Py.load_names sc ["range"];
  let* x := CNN_blocks squeeze_excitation self is_training
              (Z.to_nat (cnn_n_blocks self)) x in
  do Py.load_names sc ["Conv"];
  let* conv := Conv_init (cnn_out_channel self) (1, 1) (cnn_parameter_norm self)
                 (1, 1) "SAME" (1, 1) (1, 1) false false in
  Conv_call conv x is_training.

End Calls.

(** *** Arrays known by their shape only

    Every library call succeeds and returns an array of the shape the
    library gives it. *)
#[export] Instance ShapeLib : ArrayLib (list Z) := {|
  shape t := t;
  apply_activation _ t := t;
  get_parameter _ s := Py.ret s;
  batch_norm _ t _ := Py.ret t;
  instance_norm _ t := Py.ret t;
  add_bias out _ := Py.ret out;
  apply_conv x w _ := Py.ret (take 3 x ++ drop 3 w);
  conv_weight_with_spectral_norm x k c _ use_bias _ _ :=
    Py.ret ([fst k; snd k; nth 3 x 0; c], if use_bias then Some [c] else None);
  conv_weight_with_weight_norm x k c _ use_bias _ _ :=
    Py.ret ([fst k; snd k; nth 3 x 0; c], if use_bias then Some [c] else None)
|}.

End ConvCalls.

(** *** Networks to run the model on

    A batch of 64 images of 8x8 pixels and 3 channels, by its shape; a
    network with [squeeze_excite=True], one with a nonlinearity no layer
    knows, and a block as [ConvBlock(3, 32)] builds it. *)

Module ConvExample.
Import Networks.

Definition images : list Z := [64; 8; 8; 3].

Definition squeeze_cnn : CNN :=
  {| cnn_n_blocks := 2;
     cnn_hidden_channel := 32;
     cnn_out_channel := 3;
     cnn_squeeze_excite := true;
     cnn_parameter_norm := None;
     cnn_normalization := None;
     cnn_nonlinearity := "relu";
     cnn_conv_block := UseBottleneckConv |}.

Definition gelu_cnn : CNN :=
  {| cnn_n_blocks := 2;
     cnn_hidden_channel := 32;
     cnn_out_channel := 3;
     cnn_squeeze_excite := false;
     cnn_parameter_norm := None;
     cnn_normalization := None;
     cnn_nonlinearity := "gelu";
     cnn_conv_block := UseReverseBottleneckConv |}.

Definition relu_block : ConvBlock :=
  {| cb_out_channel := 3;
     cb_hidden_channel := 32;
     cb_use_bias := true;
     cb_norm := None;
     cb_parameter_norm := None;
     cb_nonlinearity := Function relu;
     cb_norm_layers := None |}.

End ConvExample.

(** ** [nux/networks/mlp.py]: applying the perceptron *)

Module MlpCalls.
Import Arr Networks.

(** The library calls of the module on a batch of vectors: the activation
    functions of [jax] on one element and [hk.get_parameter] for a weight
    matrix and for a bias vector.  The functions of [init] belong to the
    repository but are not among the sources: they are parameters too. *)
Class MlpLib (A : Type) : Type := {
  activation_value : activation -> A -> A;
  get_matrix : string -> Z * Z -> Py.result (list (list A));
  get_vector : string -> Z -> Py.result (list A);
  weight_with_spectral_norm :
    list (list A) -> Z -> string -> bool -> bool
    -> Py.result (list (list A) * option (list A));
  weight_with_weight_norm :
    list (list A) -> Z -> string -> bool -> bool
    -> Py.result (list (list A) * option (list A))
}.

Definition data_dependent_param_init_scope : Py.scope :=
  Py.Scope ["x"; "out_dim"; "name_suffix"; "w_init"; "b_init"; "is_training";
            "parameter_norm"; "use_bias"; "in_dim"; "dtype"; "w"; "b"]
           [] mlp_globals.

Definition MLP_call_scope : Py.scope :=
  Py.Scope ["self"; "x"; "is_training"; "kwargs"; "batch_size"; "in_dim"; "i";
            "out_dim"; "w"; "b"] [] mlp_globals.

Section Calls.
Context {A : Type} `{Num A} `{MlpLib A}.

(** [data_dependent_param_init] of [mlp.py] *)
Definition data_dependent_param_init (x : list (list A)) (out_dim : Z)
    (name_suffix : string) (is_training : bool) (parameter_norm : option string)
    (use_bias : bool) : Py.result (list (list A) * option (list A)) :=
  let sc := data_dependent_param_init_scope in
  if bool_decide (parameter_norm = Some "spectral_norm") then
    do Py.load_names sc ["init"];
    weight_with_spectral_norm x out_dim name_suffix is_training use_bias
  else if bool_decide (parameter_norm = Some "weight_norm")
          && (1 <? Z.of_nat (length x)) then
    do Py.load_names sc ["init"];
    weight_with_weight_norm x out_dim name_suffix is_training use_bias
  else
    let in_dim := Z.of_nat (ncols x) in
    do Py.load_names sc ["hk"];
    let* w := get_matrix ("w_" +:+ name_suffix) (out_dim, in_dim) in
    if use_bias then
      do Py.load_names sc ["hk"];
      let* b := get_vector ("b_" +:+ name_suffix) out_dim in
      Py.ret (w, Some b)
    else Py.ret (w, None).

(** [self.nonlinearity(x)] on a batch. *)
Definition call_nonlinearity (nl : nonlinearity_attr) (x : list (list A))
    : Py.result (list (list A)) :=
  match nl with
  | Function a => Py.ret (map (map (activation_value a)) x)
  | Applied _ => Py.raise (Py.TypeError "object is not callable")
  end.

(** The loop of [MLP.__call__] from index [i] on; [use_bias] is left at its
    default, so a bias comes back with the weight. *)
Fixpoint MLP_layers (self : MLP) (is_training : bool) (i : nat)
    (layer_sizes : list Z) (x : list (list A)) : Py.result (list (list A)) :=
  match layer_sizes with
  | [] => Py.ret x
  | out_dim :: layer_sizes' =>
      let sc := MLP_call_scope in
      do Py.load_names sc ["data_dependent_param_init"];
      let* params := data_dependent_param_init x out_dim (pretty i) is_training
                       (mlp_parameter_norm self) true in
      match params with
      | (w, Some b) =>
          do Py.load_names sc ["jnp"];
          let* xw := matmul_checked x (transpose w) in
          let* x := Py.mapM (fun row => broadcast add row b) xw in
          do Py.load_names sc ["len"];
          let* x := if Z.of_nat i <? Z.of_nat (length (mlp_layer_sizes self)) - 1
                    then call_nonlinearity (mlp_nonlinearity self) x
                    else Py.ret x in
          MLP_layers self is_training (S i) layer_sizes' x
      | (w, None) => Py.raise (Py.TypeError "cannot unpack non-iterable object")
      end
  end.

(** [MLP.__call__] on a batch of vectors, whose shape unpacks into the two
    names [batch_size, in_dim]. *)
Definition MLP_call (self : MLP) (x : list (list A)) (is_training : bool)
    : Py.result (list (list A)) :=
  let sc := MLP_call_scope in
  do Py.load_names sc ["enumerate"];
  MLP_layers self is_training 0 (mlp_layer_sizes self) x.

End Calls.

End MlpCalls.

(** *** The perceptron on reals, with every parameter at zero

    The activation functions by their formulas, and a parameter store that
    holds zeros of the shape asked for. *)

Module RealNets.
Import NumR Arr Networks MlpCalls.
Local Open Scope R_scope.

Definition Rsigmoid (u : R) : R := / (1 + Rtrigo_def.exp (- u)).

Definition Ractivation (a : activation) (u : R) : R :=
  match a with
  | relu => Rmax u 0
  | tanh_ => Rtrigo_def.tanh u
  | sigmoid => Rsigmoid u
  | swish => u * Rsigmoid u
  | lipswish => u * Rsigmoid u / (11 / 10)
  end.

Definition zeros_matrix (r c : Z) : list (list R) :=
  repeat (repeat 0 (Z.to_nat c)) (Z.to_nat r).

#[export] Instance R_MlpLib : MlpLib R := {|
  activation_value := Ractivation;
  get_matrix _ shape := Py.ret (zeros_matrix (fst shape) (snd shape));
  get_vector _ n := Py.ret (repeat 0 (Z.to_nat n));
  weight_with_spectral_norm x out_dim _ _ use_bias :=
    Py.ret (zeros_matrix out_dim (Z.of_nat (ncols x)),
            if use_bias then Some (repeat 0 (Z.to_nat out_dim)) else None);
  weight_with_weight_norm x out_dim _ _ use_bias :=
    Py.ret (zeros_matrix out_dim (Z.of_nat (ncols x)),
            if use_bias then Some (repeat 0 (Z.to_nat out_dim)) else None)
|}.

End RealNets.

(** ** [glow_injective.py]: saving and resuming a training run *)

Module Checkpoint.

Section Training.
(** The arrays in a tree, the structure of a tree with its number of leaves,
    random keys and logged losses. *)
Context {leaf treedef rng_key loss : Type}.
Variable num_leaves : treedef -> nat.

Record pytree : Type := PyTree {
  tree_structure : treedef;
  tree_leaves : list leaf
}.

(** What a file of the experiment directory holds. *)
Inductive file : Type :=
| Pickled (leaves : list leaf)
| PickledMisc (key : rng_key)
| Text (losses : list loss).

(** [jax.tree_util.tree_unflatten] *)
Definition tree_unflatten (td : treedef) (leaves : list leaf) : Py.result pytree :=
  if Nat.eqb (length leaves) (num_leaves td)
  then Py.ret (PyTree td leaves)
  else Py.raise (Py.ValueError "wrong number of leaves for PyTreeDef").

(** [load_pytree] *)
Definition load_pytree (fs : gmap string file) (td : treedef) (dir_save : string)
    : Py.result pytree :=
  match fs !! dir_save with
  | Some (Pickled leaves) => tree_unflatten td leaves
  | Some _ => Py.raise (Py.TypeError "not a sequence of leaves")
  | None => Py.raise (Py.FileNotFoundError dir_save)
  end.

(** [savePytree] *)
Definition savePytree (fs : gmap string file) (tree : pytree) (dir_save : string)
    : gmap string file :=
  <[dir_save := Pickled (tree_leaves tree)]> fs.

(** ['Experiments/' + str(experiment_name) + '/'] and
    ['Experiments/' + str(experiment_name) + '/' + str(i) + '/'] *)
Definition experiment_dir (experiment_name : string) : string :=
  "Experiments/" +:+ experiment_name +:+ "/".
Definition iteration_dir (experiment_name : string) (i : Z) : string :=
  experiment_dir experiment_name +:+ pretty i +:+ "/".

(** Whether a path has a directory separator. *)
Fixpoint has_slash (s : string) : bool :=
  match s with
  | EmptyString => false
  | String c s' => Ascii.eqb c (Ascii.ascii_of_nat 47) || has_slash s'
  end.

(** The variables the training loop starts from. *)
Record run : Type := Run {
  opt_state_nf : pytree;
  opt_state_nif : pytree;
  state_nf : pytree;
  state_nif : pytree;
  key : rng_key;
  start_it : Z
}.

(** The block [if(start_it != 0): ... else: ...]; [r] holds the freshly
    initialised optimizer states, the states of [nf_model] and [nif_model],
    the initial key and the requested [start_it]. *)
Definition resume (fs : gmap string file) (experiment_name : string) (r : run)
    : Py.result run :=
  if negb (Z.eqb (start_it r) 0) then
    let dir := iteration_dir experiment_name (start_it r) in
    let* opt_state_nf := load_pytree fs (tree_structure (opt_state_nf r))
                           (dir +:+ "opt_state_nf_leaves.p") in
    let* opt_state_nif := load_pytree fs (tree_structure (opt_state_nif r))
                            (dir +:+ "opt_state_nif_leaves.p") in
    let* state_nf := load_pytree fs (tree_structure (state_nf r))
                       (dir +:+ "state_nf_leaves.p") in
    let* state_nif := load_pytree fs (tree_structure (state_nif r))
                        (dir +:+ "state_nf_leaves.p") in
    let* key :=
      match fs !! (experiment_dir experiment_name +:+ "misc.p") with
      | Some (PickledMisc key) => Py.ret key
      | Some _ => Py.raise (Py.TypeError "not a dictionary")
      | None => Py.raise (Py.FileNotFoundError
                            (experiment_dir experiment_name +:+ "misc.p"))
      end in
    Py.ret (Run opt_state_nf opt_state_nif state_nf state_nif key
                (start_it r + 1))
  else Py.ret r.

(** The block [if(i%print_every == 0): ...] of the training loop, on the
    unreplicated trees. *)
Definition save_checkpoint (fs : gmap string file) (experiment_name : string)
    (i : Z) (r : run) (losses_nf losses_nif : list loss) : gmap string file :=
  let dir := iteration_dir experiment_name i in
  let fs := savePytree fs (opt_state_nf r) (dir +:+ "opt_state_nf_leaves.p") in
  let fs := savePytree fs (opt_state_nif r) (dir +:+ "opt_state_nif_leaves.p") in
  let fs := savePytree fs (state_nf r) (dir +:+ "state_nf_leaves.p") in
  let fs := savePytree fs (state_nif r) (dir +:+ "state_nif_leaves.p") in
  let fs := <[experiment_dir experiment_name +:+ "losses_nf.txt" := Text losses_nf]> fs in
  let fs := <[experiment_dir experiment_name +:+ "losses_nif.txt" := Text losses_nif]> fs in
  <[experiment_dir experiment_name +:+ "misc.p" := PickledMisc (key r)]> fs.

End Training.

End Checkpoint.

(** *** An experiment directory to run the model on *)

Module CheckpointExample.
Import Checkpoint.

(** A run saved at iteration 500 and resumed from it: trees of integer leaves,
    a tree structure being its number of leaves. *)
Definition saved_run : @run Z nat Z :=
  Run (PyTree 3%nat [10; 11; 12]) (PyTree 3%nat [20; 21; 22])
      (PyTree 2%nat [1; 2]) (PyTree 2%nat [3; 4]) 99 0.

Definition fresh_run : @run Z nat Z :=
  Run (PyTree 3%nat [0; 0; 0]) (PyTree 3%nat [0; 0; 0])
      (PyTree 2%nat [0; 0]) (PyTree 2%nat [0; 0]) 0 500.

Definition saved_files : gmap string (@file Z Z Q) :=
  save_checkpoint ∅ "CelebADefault" 500 saved_run [] [].

Definition resumed_run : @run Z nat Z :=
  Run (PyTree 3%nat [10; 11; 12]) (PyTree 3%nat [20; 21; 22])
      (PyTree 2%nat [1; 2]) (PyTree 2%nat [1; 2]) 99 501.

(** The run at a later checkpoint, of iteration 1000. *)
Definition later_run : @run Z nat Z :=
  Run (PyTree 3%nat [30; 31; 32]) (PyTree 3%nat [40; 41; 42])
      (PyTree 2%nat [5; 6]) (PyTree 2%nat [7; 8]) 77 1000.

End CheckpointExample.

(** ** [nux/flows/surjective/augmented.py]: the zero-padding layer *)

Module Augmented.
Import Arr.

Section Layer.
Context {A : Type} `{Num A}.
(** Random keys. *)
Context {rng : Type}.

(** The dictionary a flow is called with, and the entries of its result
    that the layer reads. *)
Record flow_inputs : Type := FlowInputs {
  fi_x : list A;
  fi_condition : list A
}.

Record flow_outputs : Type := FlowOutputs {
  fo_x : list A;
  fo_log_det : A;
  fo_log_pz : A
}.

(** A flow: called as [flow(flow_inputs, rng, sample=...)]. *)
Definition flow_fn : Type := flow_inputs -> rng -> bool -> Py.result flow_outputs.

(** The attributes of a layer: [_output_dim] and [_input_dim], of which
    [__init__] sets one, [flow], and the unbatched shapes of ['x'] that the
    base class [Layer] records. *)
Record ZeroPadding : Type := {
  _output_dim : option Z;
  _input_dim : option Z;
  flow : option flow_fn;
  unbatched_input_shape : list Z;
  unbatched_output_shape : list Z
}.

(** [ZeroPadding.__init__] *)
Definition ZeroPadding_init (output_dim : Z) (generative_only : bool)
    (flow : option flow_fn) (unbatched_input_shape unbatched_output_shape : list Z)
    : ZeroPadding :=
  {| _output_dim := if negb generative_only then Some output_dim else None;
     _input_dim := if negb generative_only then None else Some output_dim;
     flow := flow;
     unbatched_input_shape := unbatched_input_shape;
     unbatched_output_shape := unbatched_output_shape |}.

(** Code of the repository that is not among the sources: [util.list_prod],
    the method [get_unbatched_shapes] of [Layer] (its entry ['x']) and the
    flow [default_flow] builds from other layers. *)
Context (list_prod : list Z -> Z).
Context (get_unbatched_shapes : ZeroPadding -> bool -> list Z).
Context (default_flow : ZeroPadding -> flow_fn).

Definition input_shape (self : ZeroPadding) : list Z := unbatched_input_shape self.
Definition output_shape (self : ZeroPadding) : list Z := unbatched_output_shape self.

Definition input_dim (self : ZeroPadding) : Z :=
  match _input_dim self with
  | Some d => d
  | None => list_prod (input_shape self)
  end.

Definition output_dim (self : ZeroPadding) : Z :=
  match _output_dim self with
  | Some d => d
  | None => list_prod (output_shape self)
  end.

Definition kind (self : ZeroPadding) : string :=
  if output_dim self <? input_dim self then "tall" else "wide".

Definition small_dim (self : ZeroPadding) : Z :=
  if output_dim self <? input_dim self then output_dim self else input_dim self.

Definition big_dim (self : ZeroPadding) : Z :=
  if output_dim self <? input_dim self then input_dim self else output_dim self.

(** The position a slice bound [k] stands for in a sequence of length [n]. *)
Definition slice_index (n : nat) (k : Z) : nat :=
  Z.to_nat (if k <? 0 then Z.of_nat n + k else k).

(** [x[..., :k]] and [x[..., k:]] *)
Definition slice_to (x : list A) (k : Z) : list A := take (slice_index (length x) k) x.
Definition slice_from (x : list A) (k : Z) : list A := drop (slice_index (length x) k) x.

(** The dictionary [call] returns. *)
Record call_outputs : Type := CallOutputs {
  out_x : list A;
  out_log_det : A;
  captured_output : option (list A)
}.

(** The direction of a call. *)
Definition big_to_small (self : ZeroPadding) (sample : bool) : bool :=
  if negb sample
  then (if String.eqb (kind self) "tall" then true else false)
  else (if String.eqb (kind self) "tall" then false else true).

(** [ZeroPadding.call] on an input without batch axes; [x] is [inputs["x"]]. *)
Definition call (self : ZeroPadding) (x : list A) (rng_key : rng) (sample : bool)
    : Py.result call_outputs :=
  let big_to_small := big_to_small self sample in
  let x_shape := get_unbatched_shapes self sample in
  do Py.assert_ (Nat.eqb (length x_shape) 1) "Only supporting 1d inputs";
  let log_det := lit 0 in
  let flow := match flow self with
              | Some f => f
              | None => default_flow self
              end in
  let noise_dim := big_dim self - small_dim self in
  if big_to_small then
    let z := slice_to x (small_dim self) in
    let noise := slice_from x (small_dim self) in
    let captured_output := x in
    let flow_inputs := FlowInputs noise z in
    let* outputs := flow flow_inputs rng_key false in
    let log_pepsgs := add (fo_log_det outputs) (fo_log_pz outputs) in
    let log_det := add log_det log_pepsgs in
    Py.ret (CallOutputs z log_det (Some captured_output))
  else
    let* zeros := if noise_dim <? 0
                  then Py.raise (Py.ValueError "negative dimensions are not allowed")
                  else Py.ret (repeat (lit 0) (Z.to_nat noise_dim)) in
    let flow_inputs := FlowInputs zeros x in
    let* outputs := flow flow_inputs rng_key true in
    let noise := fo_x outputs in
    let z := x ++ noise in
    let log_qepsgs := add (fo_log_det outputs) (fo_log_pz outputs) in
    let log_det := sub log_det log_qepsgs in
    Py.ret (CallOutputs z log_det None).

End Layer.

End Augmented.

(** *** A layer to run the model on

    A layer from 3 to 5 dimensions on exact rationals, with the shapes the
    base class would record and a flow that returns the noise it is given
    with zero log-densities. *)

Module AugmentedExample.
Import NumQ Augmented.

Definition list_prod (shape : list Z) : Z := foldr Z.mul 1 shape.

Definition get_unbatched_shapes (self : @ZeroPadding Q unit) (sample : bool)
    : list Z :=
  if sample then unbatched_output_shape self else unbatched_input_shape self.

Definition echo_flow : @flow_fn Q unit :=
  fun inputs _ _ => Py.ret (FlowOutputs (fi_x inputs) 0%Q 0%Q).

Definition default_flow (self : @ZeroPadding Q unit) : @flow_fn Q unit := echo_flow.

Definition layer : @ZeroPadding Q unit := ZeroPadding_init 5 false None [3] [5].

(** The same layer on inputs the base class records as 3x1 arrays. *)
Definition flat_layer : @ZeroPadding Q unit :=
  ZeroPadding_init 5 false None [3; 1] [5].

End AugmentedExample.

(** ** [glow_injective.py]: the learning-rate schedule *)

Module Schedule.

(** [lr_schedule], on an integer step [i] and exact rationals; the defaults
    are [lr_decay=1.0] and [max_lr=1e-4].  [np.where] computes both values
    and keeps one: the value it drops plays no part in the result. *)
Definition lr_schedule (i : Z) (lr_decay max_lr : Q) : Q :=
  let warmup_steps := 10000 in
  if i <? warmup_steps
  then (max_lr * inject_Z i / inject_Z warmup_steps)%Q
  else (max_lr * lr_decay ^ (i - warmup_steps))%Q.

Definition default_lr_decay : Q := 1.0.
Definition default_max_lr : Q := 1e-4.

End Schedule.


(** * Properties *)

(** ** The network constructors *)

Section NetworkFacts.
Import Networks.

Lemma eqb_false_of_not_in (s : string) (l : list string) (name : string) :
  ~ In s l -> In name l -> String.eqb s name = false.
Proof.
  intros Hs Hname. apply String.eqb_neq. intros ->. exact (Hs Hname).
Qed.

Ltac unknown_name Hnot :=
  repeat match goal with
  | |- context [String.eqb ?s ?n] =>
      rewrite (eqb_false_of_not_in s _ n Hnot) by (simpl; tauto)
  end.

(** An unknown normalization kind does not stop [RepeatedConv.__init__]: the
    layer is built without normalization. *)
Lemma RepeatedConv_unknown_normalization_constructs :
  RepeatedConv_init [16; 16; 3] [(3, 3); (1, 1); (3, 3)] None false
    (Some "layer_norm") "relu"
  = Py.ret {| rc_channel_sizes := [16; 16; 3];
              rc_kernel_shapes := [(3, 3); (1, 1); (3, 3)];
              rc_parameter_norm := None;
              rc_use_bias := false;
              rc_nonlinearity := Function relu;
              rc_norm := None |}.
Proof. reflexivity. Qed.

(** C7, as the constructors implement it: an unknown nonlinearity name makes
    [MLP], [RepeatedConv] and [ConvBlock] raise [AssertionError] in
    [__init__], and an unknown block type makes [CNN.__init__] raise it; an
    unknown normalization kind raises nothing, [RepeatedConv] and [ConvBlock]
    are built with no normalization. *)
Theorem unknown_names_at_construction (nonlinearity block_type kind : string) :
  ~ In nonlinearity accepted_nonlinearities ->
  ~ In block_type ["bottleneck"; "reverse_bottleneck"] ->
  ~ In kind ["batch_norm"; "instance_norm"] ->
  (forall out_dim layer_sizes parameter_norm,
      MLP_init out_dim layer_sizes nonlinearity parameter_norm
      = Py.raise (Py.AssertionError "Invalid nonlinearity")) /\
  (forall channel_sizes kernel_shapes parameter_norm use_bias normalization,
      length channel_sizes = length kernel_shapes ->
      RepeatedConv_init channel_sizes kernel_shapes parameter_norm use_bias
        normalization nonlinearity
      = Py.raise (Py.AssertionError "Invalid nonlinearity")) /\
  (forall out_channel hidden_channel parameter_norm norm use_bias,
      ConvBlock_init out_channel hidden_channel parameter_norm norm
        nonlinearity use_bias
      = Py.raise (Py.AssertionError "Invalid nonlinearity")) /\
  (forall n_blocks hidden_channel out_channel parameter_norm normalization
          nonlinearity' squeeze_excite,
      CNN_init n_blocks hidden_channel out_channel parameter_norm normalization
        nonlinearity' squeeze_excite block_type
      = Py.raise (Py.AssertionError "Invalid block type")) /\
  (forall channel_sizes kernel_shapes parameter_norm use_bias nonlinearity',
      length channel_sizes = length kernel_shapes ->
      In nonlinearity' accepted_nonlinearities ->
      exists layer,
        RepeatedConv_init channel_sizes kernel_shapes parameter_norm use_bias
          (Some kind) nonlinearity' = Py.ret layer
        /\ rc_norm layer = None) /\
  (forall out_channel hidden_channel parameter_norm use_bias,
      exists block,
        ConvBlock_init out_channel hidden_channel parameter_norm (Some kind)
          "relu" use_bias = Py.ret block
        /\ cb_norm_layers block = None).
Proof.
  intros Hnl Hbt Hkind. repeat split.
  - intros. unfold MLP_init. unknown_name Hnl. reflexivity.
  - intros cs ks pn ub norm Hlen. unfold RepeatedConv_init.
    rewrite Hlen, Nat.eqb_refl. simpl. unknown_name Hnl. reflexivity.
  - intros. unfold ConvBlock_init. simpl. unknown_name Hnl. reflexivity.
  - intros. unfold CNN_init. simpl. unknown_name Hbt. reflexivity.
  - intros cs ks pn ub nl Hlen Hin. unfold RepeatedConv_init.
    rewrite Hlen, Nat.eqb_refl. unknown_name Hkind.
    simpl in Hin.
    destruct Hin as [<- | [<- | [<- | [<- | [<- | []]]]]];
      simpl; eexists; split; reflexivity.
  - intros. unfold ConvBlock_init. unknown_name Hkind.
    eexists. split; reflexivity.
Qed.

Lemma unknown_names_at_construction_witness :
  MLP_init 10 [128; 128] "gelu" None
    = Py.raise (Py.AssertionError "Invalid nonlinearity")
  /\ CNN_init 2 32 3 None None "relu" false "resnet"
    = Py.raise (Py.AssertionError "Invalid block type")
  /\ exists layer,
       RepeatedConv_init [16] [(3, 3)] None false (Some "layer_norm") "tanh"
         = Py.ret layer /\ rc_norm layer = None.
Proof.
  assert (Hnl : ~ In "gelu" accepted_nonlinearities).
  { simpl. intros H. repeat (destruct H as [H | H]; [discriminate |]). exact H. }
  assert (Hbt : ~ In "resnet" ["bottleneck"; "reverse_bottleneck"]).
  { simpl. intros H. repeat (destruct H as [H | H]; [discriminate |]). exact H. }
  assert (Hkind : ~ In "layer_norm" ["batch_norm"; "instance_norm"]).
  { simpl. intros H. repeat (destruct H as [H | H]; [discriminate |]). exact H. }
  destruct (unknown_names_at_construction "gelu" "resnet" "layer_norm" Hnl Hbt Hkind)
    as (Hmlp & _ & _ & Hcnn & Hnorm & _).
  split; [apply Hmlp |]. split; [apply Hcnn |].
  apply Hnorm; [reflexivity | simpl; tauto].
Defined.

(** C10: the name "swish" passes the membership tests of [MLP.__init__] and
    [ConvBlock.__init__] and then raises [NameError] on the unbound [x]; the
    other accepted names construct, and [RepeatedConv.__init__] stores the
    function itself for "swish". *)
Theorem swish_raises_NameError :
  (forall out_dim layer_sizes parameter_norm,
      MLP_init out_dim layer_sizes "swish" parameter_norm
      = Py.raise (Py.NameError "x")) /\
  (forall out_channel hidden_channel parameter_norm norm use_bias,
      ConvBlock_init out_channel hidden_channel parameter_norm norm "swish"
        use_bias
      = Py.raise (Py.NameError "x")) /\
  (forall nonlinearity,
      In nonlinearity accepted_nonlinearities -> nonlinearity <> "swish" ->
      (forall out_dim layer_sizes parameter_norm,
          Py.returns (MLP_init out_dim layer_sizes nonlinearity parameter_norm)) /\
      (forall out_channel hidden_channel parameter_norm norm use_bias,
          Py.returns (ConvBlock_init out_channel hidden_channel parameter_norm
                        norm nonlinearity use_bias))) /\
  (forall channel_sizes kernel_shapes parameter_norm use_bias normalization,
      length channel_sizes = length kernel_shapes ->
      exists layer,
        RepeatedConv_init channel_sizes kernel_shapes parameter_norm use_bias
          normalization "swish" = Py.ret layer
        /\ rc_nonlinearity layer = Function swish).
Proof.
  repeat split.
  - simpl in H. destruct H as [<- | [<- | [<- | [<- | [<- | []]]]]];
      try congruence; intros; eexists; reflexivity.
  - simpl in H. intros oc hc pn norm ub.
    assert (Hnorm : exists layers,
      (match norm with
       | Some kind =>
           if String.eqb kind "batch_norm" then
             do Py.load_names ConvBlock_init_scope ["hk"; "hk"; "hk"];
             Py.ret (Some BatchNorm)
           else if String.eqb kind "instance_norm" then
             do Py.load_names ConvBlock_init_scope ["hk"; "hk"; "hk"];
             Py.ret (Some InstanceNorm)
           else Py.ret None
       | None => Py.ret None
       end) = Py.ret layers).
    { destruct norm as [kind |]; [| eexists; reflexivity].
      destruct (String.eqb kind "batch_norm"); [eexists; reflexivity |].
      destruct (String.eqb kind "instance_norm"); eexists; reflexivity. }
    destruct Hnorm as [layers Hlayers].
    destruct H as [<- | [<- | [<- | [<- | [<- | []]]]]];
      try congruence; unfold ConvBlock_init; simpl;
      simpl in Hlayers; rewrite Hlayers; eexists; reflexivity.
  - intros cs ks pn ub norm Hlen. unfold RepeatedConv_init.
    rewrite Hlen, Nat.eqb_refl. simpl. eexists. split; reflexivity.
Qed.

End NetworkFacts.

(** ** The affine-Gaussian priors *)

Section PriorsFacts.
Import Arr Priors.
Context {A : Type} `{Num A} `{Special A} `{Linalg A} `{Util A}.
Context `{Cholesky A} `{CholeskyUtil A}.

Lemma matvec_ok (M : list (list A)) (v : list A) :
  Forall (fun row => length row = length v) M ->
  matvec M v = Py.ret (map (fun row => dot row v) M).
Proof.
  intros HM. unfold matvec.
  replace (forallb (fun row => Nat.eqb (length row) (length v)) M) with true;
    [reflexivity |].
  symmetry. apply forallb_forall. intros row Hrow.
  rewrite Forall_forall in HM. apply Nat.eqb_eq, HM.
  now apply list_elem_of_In.
Qed.

Lemma broadcast_same_length (g : A -> A -> A) (xs ys : list A) :
  length xs = length ys -> broadcast g xs ys = Py.ret (zip_with g xs ys).
Proof. intros Hlen. unfold broadcast. now rewrite bool_decide_eq_true_2. Qed.

Lemma matmul_vec_ok (M : list (list A)) (v : list A) :
  Forall (fun row => length row = length v) M ->
  matmul_vec M v = Py.ret (map (fun row => dot row v) M).
Proof.
  intros HM. unfold matmul_vec.
  replace (forallb (fun row => Nat.eqb (length row) (length v)) M) with true;
    [reflexivity |].
  symmetry. apply forallb_forall. intros row Hrow.
  rewrite Forall_forall in HM. apply Nat.eqb_eq, HM.
  now apply list_elem_of_In.
Qed.

(** The two results of the sampling direction of the diagonal-covariance
    prior, in the operations of the model, for every interpretation of the
    arithmetic and of the library. *)
Lemma DiagCov_inverse_value (params : DiagCov_params) (st : state)
    (z : vector) :
  let A_ := diag_A params in
  let Az := map (fun row => dot row z) A_ in
  Forall (fun row => length row = length z) A_ ->
  DiagCov_inverse params st z None
    = Py.ret (Outputs Az (mul (lit (-0.5))
                            (snd (slogdet (matmul (transpose A_) A_)))),
              st)
  /\ forall key,
       length (random_normal key (length A_)) = length A_ ->
       length (log_diag_cov params) = length A_ ->
       let noise :=
         map (fun n => mul n (sigma st))
             (zip_with mul (random_normal key (length A_))
                (map (fun c => exp (mul (lit 0.5) c)) (log_diag_cov params))) in
       DiagCov_inverse params st z (Some key)
         = Py.ret (Outputs (zip_with add Az noise)
                     (gaussian_diag_cov_logpdf noise (map zeros_like noise)
                        (log_diag_cov params)),
                   st).
Proof.
  intros A_ Az Hshape. unfold DiagCov_inverse. fold A_.
  rewrite (matvec_ok A_ z Hshape). fold Az. split.
  - reflexivity.
  - intros key Hnormal Hcov. cbn.
    assert (HAz : length Az = length A_) by (unfold Az; apply length_map).
    rewrite HAz.
    rewrite broadcast_same_length by (rewrite length_map; congruence).
    cbn.
    rewrite broadcast_same_length; [reflexivity |].
    rewrite length_map, length_zip_with, length_map. lia.
Qed.

(** C8, as amended: no call of the full-covariance prior returns.  The
    forward direction raises [NameError] at the unqualified [index_update]
    on every input.  The inverse direction first computes [A @ z]: when a
    row of [A] is not as long as [z] it raises the [TypeError] of that
    product, with or without a key; otherwise, without a key, it raises
    [NameError] at [log_diag_cov]; with a key it raises that [NameError] or
    the [TypeError] of an array operation on the noise. *)
Theorem FullCov_never_returns (triangular_indices : indices)
    (log_diag_cov_value : vector) (params : FullCov_params) (st : state)
    (x : vector) :
  let fits := forallb (fun row => Nat.eqb (length row) (length x)) (full_A params) in
  let shape_error :=
    Py.TypeError "dot_general requires contracting dimensions to have the same shape" in
  let inverse := FullCov_inverse triangular_indices log_diag_cov_value params st x in
  FullCov_forward triangular_indices params st x
    = Py.raise (Py.NameError "index_update")
  /\ inverse None
     = (if fits then Py.raise (Py.NameError "log_diag_cov")
        else Py.raise shape_error)
  /\ (forall key,
        exists e,
          inverse (Some key) = Py.raise e
          /\ (if fits
              then e = Py.NameError "log_diag_cov" \/ exists msg, e = Py.TypeError msg
              else e = shape_error))
  /\ forall reverse key,
       exists e,
         FullCov_apply_fun triangular_indices log_diag_cov_value params st x
           reverse key = Py.raise e
         /\ (e = Py.NameError "index_update" \/ e = Py.NameError "log_diag_cov"
             \/ exists msg, e = Py.TypeError msg).
Proof.
  intros fits shape_error inverse.
  assert (Hnone : inverse None
                  = (if fits then Py.raise (Py.NameError "log_diag_cov")
                     else Py.raise shape_error)).
  { unfold inverse, FullCov_inverse, matmul_vec. fold fits.
    destruct fits; reflexivity. }
  assert (Hmsg : forall (xs ys : list A) e,
            broadcast add xs ys = Py.raise e -> exists msg, e = Py.TypeError msg).
  { intros xs ys e. unfold broadcast. destruct (bool_decide _); [discriminate |].
    destruct xs as [| a [| a' xs]]; destruct ys as [| b [| b' ys]];
      try discriminate; intros [= <-]; eexists; reflexivity. }
  assert (Hkey : forall key,
            exists e,
              inverse (Some key) = Py.raise e
              /\ (if fits
                  then e = Py.NameError "log_diag_cov"
                       \/ exists msg, e = Py.TypeError msg
                  else e = shape_error)).
  { intros key. unfold inverse, FullCov_inverse, matmul_vec at 1. fold fits.
    destruct fits; [| eexists; split; reflexivity].
    cbn [Py.bind Py.ret]. cbn.
    unfold vecmat, matmul_vec.
    destruct (forallb _ _); cbn; [| eexists; split; [reflexivity |]; right; eexists; reflexivity].
    destruct (broadcast add _ _) as [e | x'] eqn:Hadd; cbn.
    - exists e. split; [reflexivity |]. right. exact (Hmsg _ _ e Hadd).
    - eexists. split; [reflexivity |]. left. reflexivity. }
  split; [reflexivity |]. split; [exact Hnone |]. split; [exact Hkey |].
  intros [|] key; cbn [FullCov_apply_fun negb].
  - fold inverse. destruct key as [key |].
    + destruct (Hkey key) as (e & He & Hcase). exists e. split; [exact He |].
      destruct fits; [destruct Hcase as [-> | Hcase]; auto |].
      subst e. right. right. eexists. reflexivity.
    + rewrite Hnone. destruct fits; eexists; split; try reflexivity; auto.
      right. right. eexists. reflexivity.
  - eexists. split; [reflexivity |]. auto.
Qed.

End PriorsFacts.

Section PriorsOnReals.
Import NumR Arr Priors RealLib.
Local Open Scope R_scope.

(** The claim C8 as it is written fails for a 1-by-2 matrix [A] and a latent
    vector of length 1: the inverse direction stops at [A @ z] with a
    [TypeError], before it reads [log_diag_cov]. *)
Lemma FullCov_inverse_raises_TypeError :
  let call :=
    FullCov_apply_fun [[0%nat]] [] (FullCovParams [[1; 2]] [0]) (State 1) [1]
      true None in
  call = Py.raise (Py.TypeError
           "dot_general requires contracting dimensions to have the same shape")
  /\ forall name, call <> Py.raise (Py.NameError name).
Proof.
  intros call. split; [reflexivity |]. intros name. discriminate.
Qed.

End PriorsOnReals.

(** ** Resuming a training run *)

Section CheckpointFacts.
Import Checkpoint.
Context {leaf treedef rng_key loss : Type} (num_leaves : treedef -> nat).

Lemma append_prefix_inj (p a b : string) : p +:+ a = p +:+ b -> a = b.
Proof.
  induction p as [| c p IH]; [auto |].
  intros Heq. change (String c (p +:+ a) = String c (p +:+ b)) in Heq.
  injection Heq as Heq. auto.
Qed.

Lemma append_assoc (a b c : string) : (a +:+ b) +:+ c = a +:+ (b +:+ c).
Proof.
  induction a as [| x a IH]; [reflexivity |].
  change (String x ((a +:+ b) +:+ c) = String x (a +:+ (b +:+ c))).
  now rewrite IH.
Qed.

Lemma has_slash_app (a b : string) :
  has_slash (a +:+ b) = has_slash a || has_slash b.
Proof.
  induction a as [| c a IH]; [reflexivity |].
  change (has_slash (String c (a +:+ b)) = has_slash (String c a) || has_slash b).
  simpl. rewrite IH. now rewrite orb_assoc.
Qed.

(** A file kept directly in the experiment directory is not a file of an
    iteration directory. *)
Lemma iteration_file_ne_experiment_file (name : string) (i : Z) (f g : string) :
  has_slash g = false ->
  iteration_dir name i +:+ f <> experiment_dir name +:+ g.
Proof.
  intros Hg Heq. unfold iteration_dir in Heq.
  rewrite !append_assoc in Heq.
  apply append_prefix_inj in Heq.
  apply (f_equal has_slash) in Heq. rewrite Hg in Heq.
  rewrite !has_slash_app in Heq. simpl in Heq.
  rewrite orb_true_r in Heq. discriminate.
Qed.

Lemma load_pytree_insert_ne (fs : gmap string (@file leaf rng_key loss))
    (td : treedef) (p q : string) (content : file) :
  q <> p ->
  load_pytree num_leaves (<[q := content]> fs) td p = load_pytree num_leaves fs td p.
Proof. intros Hne. unfold load_pytree. now rewrite lookup_insert_ne. Qed.

Lemma experiment_file_ne_iteration_file (name : string) (i : Z) (f g : string) :
  has_slash g = false ->
  experiment_dir name +:+ g <> iteration_dir name i +:+ f.
Proof.
  intros Hg Heq. symmetry in Heq.
  now apply iteration_file_ne_experiment_file in Heq.
Qed.

Ltac path_ne :=
  first [ apply iteration_file_ne_experiment_file; reflexivity
        | apply experiment_file_ne_iteration_file; reflexivity
        | let Heq := fresh in
          intros Heq; apply append_prefix_inj in Heq; discriminate ].

(** X19: resuming from the iteration a checkpoint was saved at, into trees
    with as many leaves as the saved ones: the two optimizer states and the
    NF state come back with the leaves that were saved for them, the NIF
    state with the leaves of the NF state, the key is the saved key, and the
    run continues at the next iteration. *)
Lemma resume_after_save (fs : gmap string (@file leaf rng_key loss))
    (experiment_name : string) (i : Z) (saved fresh : @run leaf treedef rng_key)
    (losses_nf losses_nif : list loss) :
  i <> 0 -> start_it fresh = i ->
  length (tree_leaves (opt_state_nf saved))
    = num_leaves (tree_structure (opt_state_nf fresh)) ->
  length (tree_leaves (opt_state_nif saved))
    = num_leaves (tree_structure (opt_state_nif fresh)) ->
  length (tree_leaves (state_nf saved))
    = num_leaves (tree_structure (state_nf fresh)) ->
  length (tree_leaves (state_nf saved))
    = num_leaves (tree_structure (state_nif fresh)) ->
  resume num_leaves
    (save_checkpoint fs experiment_name i saved losses_nf losses_nif)
    experiment_name fresh
  = Py.ret
      (Run (PyTree (tree_structure (opt_state_nf fresh))
              (tree_leaves (opt_state_nf saved)))
           (PyTree (tree_structure (opt_state_nif fresh))
              (tree_leaves (opt_state_nif saved)))
           (PyTree (tree_structure (state_nf fresh))
              (tree_leaves (state_nf saved)))
           (PyTree (tree_structure (state_nif fresh))
              (tree_leaves (state_nf saved)))
           (key saved) (i + 1)).
Proof.
  intros Hi Hstart H1 H2 H3 H4. unfold resume, save_checkpoint, savePytree.
  rewrite Hstart, (proj2 (Z.eqb_neq _ _) Hi). cbn [negb].
  unfold load_pytree, tree_unflatten.
  repeat (rewrite lookup_insert_ne by path_ne).
  rewrite lookup_insert_eq, H1, Nat.eqb_refl. cbn [Py.bind Py.ret].
  repeat (rewrite lookup_insert_ne by path_ne).
  rewrite lookup_insert_eq, H2, Nat.eqb_refl. cbn [Py.bind Py.ret].
  repeat (rewrite lookup_insert_ne by path_ne).
  rewrite lookup_insert_eq, H3, <- H4, H3, Nat.eqb_refl. cbn [Py.bind Py.ret].
  rewrite lookup_insert_eq. reflexivity.
Qed.

(** C9: when [start_it != 0], the auxiliary state of the NIF model is read
    from the file ['state_nf_leaves.p'] of the iteration directory: it has the
    leaves the NF state has, and what ['state_nif_leaves.p'] holds plays no
    part in the run that resumes. *)
Theorem resume_reads_nf_state_for_nif (fs : gmap string (@file leaf rng_key loss))
    (experiment_name : string) (r r' : run) :
  start_it r <> 0 ->
  resume num_leaves fs experiment_name r = Py.ret r' ->
  let dir := iteration_dir experiment_name (start_it r) in
  (exists leaves,
      fs !! (dir +:+ "state_nf_leaves.p") = Some (Pickled leaves)
      /\ tree_leaves (state_nif r') = leaves
      /\ tree_leaves (state_nf r') = leaves)
  /\ forall content,
       resume num_leaves (<[dir +:+ "state_nif_leaves.p" := content]> fs)
         experiment_name r = Py.ret r'.
Proof.
  intros Hstart Hres dir. split.
  - unfold resume in Hres.
    rewrite (proj2 (Z.eqb_neq _ _) Hstart) in Hres. cbn [negb] in Hres.
    fold dir in Hres.
    destruct (load_pytree num_leaves fs _ (dir +:+ "opt_state_nf_leaves.p"))
      as [e | o1]; [discriminate |].
    destruct (load_pytree num_leaves fs _ (dir +:+ "opt_state_nif_leaves.p"))
      as [e | o2]; [discriminate |].
    cbn [Py.bind] in Hres. unfold load_pytree in Hres.
    destruct (fs !! (dir +:+ "state_nf_leaves.p")) as [[leaves | k | l] |];
      try discriminate.
    exists leaves. split; [reflexivity |].
    unfold tree_unflatten in Hres.
    destruct (Nat.eqb (length leaves) (num_leaves (tree_structure (state_nf r))));
      [| discriminate].
    destruct (Nat.eqb (length leaves) (num_leaves (tree_structure (state_nif r))));
      [| discriminate].
    cbn [Py.bind Py.ret] in Hres.
    destruct (fs !! _) as [[l | k | l] |]; try discriminate.
    injection Hres as <-. split; reflexivity.
  - intros content. rewrite <- Hres. unfold resume.
    destruct (negb (start_it r =? 0)); [| reflexivity].
    fold dir.
    rewrite !load_pytree_insert_ne
      by (intros Heq; apply append_prefix_inj in Heq; discriminate).
    rewrite lookup_insert_ne; [reflexivity |].
    apply iteration_file_ne_experiment_file. reflexivity.
Qed.

End CheckpointFacts.

Section CheckpointRun.
Import Checkpoint CheckpointExample.

Lemma resume_saved_run :
  resume (fun td : nat => td) saved_files "CelebADefault" fresh_run
  = Py.ret resumed_run.
Proof. vm_compute. reflexivity. Qed.

Lemma resume_after_save_witness :
  resume (fun td : nat => td)
    (save_checkpoint (∅ : gmap string (@file Z Z Q)) "CelebADefault" 500
       saved_run [] [])
    "CelebADefault" fresh_run
  = Py.ret resumed_run.
Proof.
  apply (resume_after_save (fun td : nat => td)
           (∅ : gmap string (@file Z Z Q)) "CelebADefault" 500
           saved_run fresh_run [] []).
  - discriminate.
  - reflexivity.
  - reflexivity.
  - reflexivity.
  - reflexivity.
  - reflexivity.
Defined.

(** The theorem at that run: the NIF state [3; 4] that was saved is not the
    one that comes back. *)
Lemma resume_reads_nf_state_for_nif_witness :
  (exists leaves,
      saved_files !! (iteration_dir "CelebADefault" 500 +:+ "state_nf_leaves.p")
        = Some (Pickled leaves)
      /\ tree_leaves (state_nif resumed_run) = leaves
      /\ tree_leaves (state_nf resumed_run) = leaves)
  /\ forall content,
       resume (fun td : nat => td)
         (<[iteration_dir "CelebADefault" 500 +:+ "state_nif_leaves.p" := content]>
            saved_files)
         "CelebADefault" fresh_run = Py.ret resumed_run.
Proof.
  apply (resume_reads_nf_state_for_nif (fun td : nat => td) saved_files
           "CelebADefault" fresh_run resumed_run).
  - discriminate.
  - exact resume_saved_run.
Defined.

End CheckpointRun.

(** ** The bisection solver *)

Section BisectionLoop.
Import Bisection.
Context {A : Type} `{Num A}.

(** A loop that ends has run its body some [n] times: the test held before
    each of them and fails on the state it ends in. *)
Lemma while_loop_iter {St : Type} (cond_fun : St -> bool) (body_fun : St -> St)
    (fuel : nat) (v v' : St) :
  while_loop fuel cond_fun body_fun v = Some v' ->
  exists n : nat,
    (n < fuel)%nat
    /\ v' = Nat.iter n body_fun v
    /\ cond_fun v' = false
    /\ forall k : nat, (k < n)%nat -> cond_fun (Nat.iter k body_fun v) = true.
Proof.
  revert v. induction fuel as [| fuel IH]; intros v Hrun; [discriminate |].
  simpl in Hrun. destruct (cond_fun v) eqn:Hc.
  - destruct (IH _ Hrun) as (n & Hn & Hv' & Hstop & Hbefore).
    exists (S n). repeat split.
    + lia.
    + rewrite Hv'. clear. induction n as [| n IHn]; [reflexivity |].
      simpl. now rewrite IHn.
    + exact Hstop.
    + intros [| k] Hk; [exact Hc |].
      specialize (Hbefore k ltac:(lia)).
      replace (Nat.iter (S k) body_fun v) with (Nat.iter k body_fun (body_fun v));
        [exact Hbefore |].
      clear. induction k as [| k IHk]; [reflexivity |]. simpl. now rewrite IHk.
  - injection Hrun as <-. exists O. repeat split; [lia | exact Hc |].
    intros k Hk. lia.
Qed.

Lemma body_val_i (f : A -> A) (v : val) :
  val_i (bisection_body f v) = val_i v + 1.
Proof. destruct v as [[[[[[x cx] cz] lo] up] dx] i]. reflexivity. Qed.

Lemma iter_val_i (f : A -> A) (v : val) (n : nat) :
  val_i (Nat.iter n (bisection_body f) v) = val_i v + Z.of_nat n.
Proof.
  induction n as [| n IH]; simpl; [lia |].
  rewrite body_val_i, IH. lia.
Qed.

Lemma cond_fun_true_i (atol : Q) (max_iters : Z) (v : val) :
  cond_fun atol max_iters v = true -> val_i v <= max_iters.
Proof.
  destruct v as [[[[[[x cx] cz] lo] up] dx] i]. unfold cond_fun, val_i.
  destruct (Z.ltb_spec max_iters i); [discriminate | lia].
Qed.

Lemma cond_fun_false (atol : Q) (max_iters : Z) (v : val) :
  cond_fun atol max_iters v = false ->
  max_iters < val_i v \/ allclose (val_dx v) (lit 0) allclose_rtol atol = true.
Proof.
  destruct v as [[[[[[x cx] cz] lo] up] dx] i]. unfold cond_fun, val_i, val_dx.
  destruct (Z.ltb_spec max_iters i); [left; lia |].
  destruct (allclose dx (lit 0) allclose_rtol atol); [now right | discriminate].
Qed.

Lemma cond_fun_true_dx (atol : Q) (max_iters : Z) (v : val) :
  cond_fun atol max_iters v = true ->
  allclose (val_dx v) (lit 0) allclose_rtol atol = false.
Proof.
  destruct v as [[[[[[x cx] cz] lo] up] dx] i]. unfold cond_fun, val_dx.
  destruct (Z.ltb max_iters i); [discriminate |].
  destruct (allclose dx (lit 0) allclose_rtol atol); [discriminate | reflexivity].
Qed.

Lemma body_val_x (f : A -> A) (v : val) :
  val_x (bisection_body f v) = val_x v.
Proof. destruct v as [[[[[[x cx] cz] lo] up] dx] i]. reflexivity. Qed.

Lemma iter_val_x (f : A -> A) (v : val) (n : nat) :
  val_x (Nat.iter n (bisection_body f) v) = val_x v.
Proof.
  induction n as [| n IH]; simpl; [reflexivity |].
  now rewrite body_val_x.
Qed.

(** After an iteration [current_x] is [f current_z] and [dx] is
    [current_x - x]. *)
Lemma body_val_dx (f : A -> A) (v : val) :
  let v' := bisection_body f v in
  val_current_x v' = f (val_current_z v')
  /\ val_dx v' = sub (f (val_current_z v')) (val_x v).
Proof. destruct v as [[[[[[x cx] cz] lo] up] dx] i]. split; reflexivity. Qed.

(** From the first iteration on, [dx] is [f current_z - x]. *)
Lemma iterate_val_dx (f : A -> A) (lower upper x : A) (k : nat) :
  (1 <= k)%nat ->
  let v := Nat.iter k (bisection_body f) (init_val f lower upper x) in
  val_dx v = sub (f (val_current_z v)) x.
Proof.
  destruct k as [| k]; [lia |]. intros _. simpl Nat.iter.
  destruct (body_val_dx f (Nat.iter k (bisection_body f)
                             (init_val f lower upper x))) as [_ Hd].
  cbn zeta in *. rewrite Hd, iter_val_x. reflexivity.
Qed.

(** The loop counter bounds the run: with [i <= max_iters + 1] the loop ends
    within [max_iters + 1 - i] further iterations. *)
Lemma while_loop_total (f : A -> A) (atol : Q) (max_iters : Z) (fuel : nat)
    (v : val) :
  (Z.to_nat (max_iters + 1 - val_i v) < fuel)%nat ->
  exists v', while_loop fuel (cond_fun atol max_iters) (bisection_body f) v = Some v'.
Proof.
  revert v. induction fuel as [| fuel IH]; intros v Hfuel; [lia |].
  simpl. destruct (cond_fun atol max_iters v) eqn:Hc; [| now exists v].
  apply IH. rewrite body_val_i.
  apply cond_fun_true_i in Hc. lia.
Qed.

(** The solver always returns. *)
Lemma bisection_loop_total (f : A -> A) (lower upper x : A) (atol : Q)
    (max_iters : Z) :
  exists v, bisection_loop f lower upper x atol max_iters = Some v.
Proof.
  unfold bisection_loop. apply while_loop_total.
  unfold bisection_fuel, init_val, val_i. lia.
Qed.

Lemma bisection_total (f : A -> A) (lower upper x : A) (atol : Q)
    (max_iters : Z) :
  exists z, bisection f lower upper x atol max_iters = Some z.
Proof.
  destruct (bisection_loop_total f lower upper x atol max_iters) as [v Hv].
  exists (val_current_z v). unfold bisection. now rewrite Hv.
Qed.

(** The shape of every run: [n] iterations, at most [max_iters + 1]; the
    tolerance test failed on the [dx] of each earlier state and the loop ends
    on the tolerance or on the counter. *)
Lemma bisection_loop_run (f : A -> A) (lower upper x : A) (atol : Q)
    (max_iters : Z) :
  0 <= max_iters ->
  exists n : nat,
    let v := Nat.iter n (bisection_body f) (init_val f lower upper x) in
    bisection_loop f lower upper x atol max_iters = Some v
    /\ bisection f lower upper x atol max_iters = Some (val_current_z v)
    /\ val_i v = Z.of_nat n
    /\ Z.of_nat n <= max_iters + 1
    /\ (allclose (val_dx v) (lit 0) allclose_rtol atol = true
        \/ Z.of_nat n = max_iters + 1)
    /\ forall k : nat, (k < n)%nat ->
         allclose (val_dx (Nat.iter k (bisection_body f) (init_val f lower upper x)))
           (lit 0) allclose_rtol atol = false.
Proof.
  intros Hmax.
  destruct (bisection_loop_total f lower upper x atol max_iters) as [v Hv].
  pose proof Hv as Hrun. unfold bisection_loop in Hrun.
  apply while_loop_iter in Hrun as (n & _ & -> & Hstop & Hbefore).
  exists n. cbn zeta.
  assert (Hi : val_i (Nat.iter n (bisection_body f) (init_val f lower upper x))
               = Z.of_nat n) by (rewrite iter_val_i; reflexivity).
  assert (Hle : Z.of_nat n <= max_iters + 1).
  { destruct n as [| n]; [lia |].
    specialize (Hbefore n ltac:(lia)). apply cond_fun_true_i in Hbefore.
    rewrite iter_val_i in Hbefore. simpl in Hbefore. lia. }
  repeat split; try assumption.
  - unfold bisection. now rewrite Hv.
  - apply cond_fun_false in Hstop as [Hcap | Htol]; [right | now left].
    rewrite Hi in Hcap. lia.
  - intros k Hk. apply (cond_fun_true_dx atol max_iters). now apply Hbefore.
Qed.

End BisectionLoop.

(** ** The mixture transforms, for every interpretation of the arithmetic *)

Section MixtureFacts.
Import Arr Mixture.
Context {A : Type} `{Num A} `{Special A}.

Lemma mapM_ret_map {X Y : Type} (f : X -> Py.result Y) (g : X -> Y) (l : list X) :
  Forall (fun a => f a = Py.ret (g a)) l -> Py.mapM f l = Py.ret (map g l).
Proof.
  induction 1 as [| a l Ha _ IH]; [reflexivity |].
  simpl. rewrite Ha, IH. reflexivity.
Qed.

Lemma broadcast_zip (g : A -> A -> A) (xs ys : list A) :
  length xs = length ys -> broadcast g xs ys = Py.ret (zip_with g xs ys).
Proof. intros Hlen. unfold broadcast. now rewrite bool_decide_eq_true_2. Qed.

Lemma n_components_bounds (w : Z) :
  2 <= w -> 0 <= n_components_of w /\ 3 * n_components_of w + 2 <= w.
Proof.
  intros Hw. unfold n_components_of.
  pose proof (Z.div_pos (w - 2) 3 ltac:(lia) ltac:(lia)).
  pose proof (Z.mul_div_le (w - 2) 3 ltac:(lia)). lia.
Qed.

Lemma split_theta_wide (row : list A) :
  (2 <= length row)%nat -> split_theta row = Py.ret (pieces_of row).
Proof.
  intros Hrow. unfold split_theta.
  destruct (n_components_bounds (Z.of_nat (length row)) ltac:(lia)) as [Hn _].
  destruct (Z.ltb_spec (n_components_of (Z.of_nat (length row))) 0); [lia |].
  reflexivity.
Qed.

Lemma pieces_of_weight_logits (row : list A) :
  (2 <= length row)%nat -> weight_logits (pieces_of row) = row_weight_logits row.
Proof.
  intros Hrow. unfold pieces_of, row_weight_logits, row_K, slice. simpl.
  now rewrite Z.sub_0_r.
Qed.

Lemma pieces_of_means (row : list A) :
  (2 <= length row)%nat -> means (pieces_of row) = row_means row.
Proof.
  intros Hrow. unfold pieces_of, row_means, row_K, slice. simpl.
  f_equal. f_equal. lia.
Qed.

Lemma pieces_of_log_scales (row : list A) :
  (2 <= length row)%nat -> log_scales (pieces_of row) = row_log_scales row.
Proof.
  intros Hrow. unfold pieces_of, row_log_scales, row_K, slice. simpl.
  destruct (n_components_bounds (Z.of_nat (length row)) ltac:(lia)) as [Hn _].
  f_equal; [f_equal; lia |]. f_equal. lia.
Qed.

Lemma drop_nth_cons (l : list A) (i : nat) (d : A) :
  (i < length l)%nat -> drop i l = nth i l d :: drop (S i) l.
Proof.
  revert i. induction l as [| a l IH]; intros [| i] Hi; simpl in *; try lia.
  - reflexivity.
  - apply IH. lia.
Qed.

Lemma pieces_of_log_s (row : list A) :
  (2 <= length row)%nat -> log_s (pieces_of row) = [row_log_s row].
Proof.
  intros Hrow. unfold pieces_of, row_log_s, row_K, slice. simpl.
  destruct (n_components_bounds (Z.of_nat (length row)) ltac:(lia)) as [Hn Hw].
  set (n := n_components_of (Z.of_nat (length row))) in *.
  replace (Z.to_nat (3 * n)) with (3 * Z.to_nat n)%nat by lia.
  rewrite (drop_nth_cons row (3 * Z.to_nat n) (lit 0)) by lia.
  replace (Z.to_nat (3 * n + 1 - 3 * n)) with 1%nat by lia.
  reflexivity.
Qed.

Lemma pieces_of_t (row : list A) :
  (2 <= length row)%nat -> exists rest, t (pieces_of row) = row_t row :: rest.
Proof.
  intros Hrow. unfold pieces_of, row_t, row_K. simpl.
  destruct (n_components_bounds (Z.of_nat (length row)) ltac:(lia)) as [Hn Hw].
  set (n := n_components_of (Z.of_nat (length row))) in *.
  replace (Z.to_nat (3 * n + 1)) with (3 * Z.to_nat n + 1)%nat by lia.
  rewrite (drop_nth_cons row (3 * Z.to_nat n + 1) (lit 0)) by lia.
  eexists. reflexivity.
Qed.

Lemma mapM_map_ret {X Y W : Type} (f : Y -> Py.result W) (h : X -> Y)
    (g : X -> W) (l : list X) :
  Forall (fun a => f (h a) = Py.ret (g a)) l ->
  Py.mapM f (map h l) = Py.ret (map g l).
Proof.
  induction 1 as [| a l Ha _ IH]; [reflexivity |].
  simpl. rewrite Ha, IH. reflexivity.
Qed.

Lemma split_rows (theta : list (list A)) :
  Forall (fun row => (2 <= length row)%nat) theta ->
  Py.mapM split_theta theta = Py.ret (map pieces_of theta).
Proof.
  intros Hw. apply mapM_ret_map.
  eapply Forall_impl; [exact Hw |]. intros row. apply split_theta_wide.
Qed.

Lemma affine_params_rows (theta : list (list A)) :
  Forall (fun row => (2 <= length row)%nat) theta ->
  affine_params (map pieces_of theta)
  = Py.ret (map row_bounded_log_s theta, map row_t theta).
Proof.
  intros Hw. unfold affine_params.
  rewrite (mapM_map_ret _ pieces_of row_bounded_log_s).
  2:{ eapply Forall_impl; [exact Hw |]. intros row Hrow. cbn beta.
      rewrite (pieces_of_log_s row Hrow). reflexivity. }
  rewrite (mapM_map_ret _ pieces_of row_t).
  2:{ eapply Forall_impl; [exact Hw |]. intros row Hrow. cbn beta.
      destruct (pieces_of_t row Hrow) as [rest ->]. reflexivity. }
  reflexivity.
Qed.

Lemma vmap_rows {B : Type} (g' : pieces -> A -> Py.result B)
    (g : list A -> A -> B) (theta : list (list A)) (xs : list A) :
  length theta = length xs ->
  Forall (fun row => forall x, g' (pieces_of row) x = Py.ret (g row x)) theta ->
  vmap g' (map pieces_of theta) xs = Py.ret (zip_with g theta xs).
Proof.
  intros Hlen Hg. unfold vmap.
  rewrite bool_decide_eq_true_2 by (rewrite length_map; exact Hlen).
  clear Hlen. revert xs.
  induction Hg as [| row theta Hrow _ IH]; intros [| x xs]; simpl;
    try reflexivity.
  rewrite Hrow, IH. reflexivity.
Qed.

Lemma bisection_no_vmap_solve (F : param_fun) (wl mu ls : list A) (y : A) :
  bisection_no_vmap F wl mu ls y = Py.ret (solve (F wl mu ls) y).
Proof.
  unfold bisection_no_vmap, solve.
  destruct (bisection_total (A:=A) (F wl mu ls)
              (sub (zeros_like y) (lit 1000)) (add (zeros_like y) (lit 1000)) y
              Bisection.default_atol Bisection.default_max_iters) as [z Hz].
  rewrite Hz. reflexivity.
Qed.

(** [mixture_forward] with the affine step, row by row. *)
Lemma mixture_forward_rows (fl : list A -> list A -> list A -> A -> A * A)
    (x : list A) (theta : list (list A)) :
  length x = length theta ->
  Forall (fun row => (2 <= length row)%nat) theta ->
  let apply_row row xi :=
    fl (row_weight_logits row) (row_means row) (row_log_scales row) xi in
  mixture_forward fl x theta true
  = Py.ret
      (zip_with (fun row xi => mul (sub (fst (apply_row row xi)) (row_t row))
                                   (exp (neg (row_bounded_log_s row))))
                theta x,
       add (sum (zip_with (fun row xi => snd (apply_row row xi)) theta x))
           (neg (sum (map row_bounded_log_s theta)))).
Proof.
  intros Hlen Hw apply_row. unfold mixture_forward.
  rewrite (split_rows theta Hw). cbn [Py.bind Py.ret].
  rewrite (affine_params_rows theta Hw). cbn [Py.bind Py.ret].
  rewrite (vmap_rows _ apply_row theta x (eq_sym Hlen)).
  2:{ eapply Forall_impl; [exact Hw |]. intros row Hrow xi. cbn beta.
      rewrite pieces_of_weight_logits, pieces_of_means, pieces_of_log_scales
        by exact Hrow.
      reflexivity. }
  cbn [Py.bind Py.ret].
  rewrite broadcast_zip
    by (rewrite !length_map, length_zip_with; lia).
  cbn [Py.bind Py.ret].
  rewrite broadcast_zip
    by (rewrite length_zip_with, !length_map, length_zip_with; lia).
  cbn [Py.bind Py.ret]. f_equal. f_equal.
  - clear Hw. revert x Hlen.
    induction theta as [| row theta IH]; intros [| xi x] Hlen; simpl in *;
      try reflexivity; try discriminate.
    f_equal. apply IH. lia.
  - f_equal. f_equal. clear. revert x.
    induction theta as [| row theta IH]; intros [| xi x]; simpl;
      try reflexivity.
    f_equal. apply IH.
Qed.

(** [mixture_inverse] with the affine step, row by row: the solver runs on the
    CDF of each row with the un-shifted, un-scaled input as its target. *)
Lemma mixture_inverse_rows (eval_fun log_det_fun : param_fun)
    (x : list A) (theta : list (list A)) :
  length x = length theta ->
  Forall (fun row => (2 <= length row)%nat) theta ->
  let target row xi := add (mul xi (exp (row_bounded_log_s row))) (row_t row) in
  let z := zip_with
    (fun row xi =>
       solve (eval_fun (row_weight_logits row) (row_means row) (row_log_scales row))
             (target row xi)) theta x in
  mixture_inverse eval_fun log_det_fun x theta true
  = Py.ret
      (z,
       add (sum (zip_with
                   (fun row zi => log_det_fun (row_weight_logits row)
                                    (row_means row) (row_log_scales row) zi)
                   theta z))
           (neg (sum (map row_bounded_log_s theta)))).
Proof.
  intros Hlen Hw target z. unfold mixture_inverse.
  rewrite (split_rows theta Hw). cbn [Py.bind Py.ret].
  rewrite (affine_params_rows theta Hw). cbn [Py.bind Py.ret].
  rewrite broadcast_zip by (rewrite !length_map; exact Hlen).
  cbn [Py.bind Py.ret].
  rewrite broadcast_zip by (rewrite length_zip_with, !length_map; lia).
  cbn [Py.bind Py.ret].
  set (ys := zip_with add _ _).
  assert (Hys : ys = zip_with (fun row xi => target row xi) theta x).
  { unfold ys, target. clear -Hlen. revert x Hlen.
    induction theta as [| row theta IH]; intros [| xi x] Hlen; simpl in *;
      try reflexivity; try discriminate.
    f_equal. apply IH. lia. }
  assert (Hylen : length theta = length ys).
  { rewrite Hys, length_zip_with. lia. }
  rewrite (vmap_rows _
             (fun row y => solve (eval_fun (row_weight_logits row) (row_means row)
                                    (row_log_scales row)) y) theta ys Hylen).
  2:{ eapply Forall_impl; [exact Hw |]. intros row Hrow y. cbn beta.
      rewrite bisection_no_vmap_solve.
      rewrite pieces_of_weight_logits, pieces_of_means, pieces_of_log_scales
        by exact Hrow.
      reflexivity. }
  cbn [Py.bind Py.ret].
  assert (Hz : zip_with (fun row y => solve (eval_fun (row_weight_logits row)
                           (row_means row) (row_log_scales row)) y) theta ys = z).
  { unfold z. rewrite Hys. clear. revert x.
    induction theta as [| row theta IH]; intros [| xi x]; simpl;
      try reflexivity.
    f_equal. apply IH. }
  rewrite Hz.
  rewrite (vmap_rows _
             (fun row zi => log_det_fun (row_weight_logits row) (row_means row)
                              (row_log_scales row) zi) theta z).
  - reflexivity.
  - unfold z. rewrite length_zip_with. lia.
  - eapply Forall_impl; [exact Hw |]. intros row Hrow zi. cbn beta.
    rewrite pieces_of_weight_logits, pieces_of_means, pieces_of_log_scales
      by exact Hrow.
    reflexivity.
Qed.


(** C2, as the two directions implement it: the inverse pass reports the
    log-determinant the forward pass reports at the point the inverse returns,
    with the same sign. *)
Theorem inverse_reports_forward_log_det (f log_det : param_fun) (z : list A)
    (theta : list (list A)) :
  length z = length theta ->
  Forall (fun row => (2 <= length row)%nat) theta ->
  exists x' ld_i z',
    mixture_inverse f log_det z theta true = Py.ret (x', ld_i)
    /\ mixture_forward (f_and_log_det f log_det) x' theta true = Py.ret (z', ld_i).
Proof.
  intros Hlen Hw.
  rewrite (mixture_inverse_rows f log_det z theta Hlen Hw).
  eexists _, _, _. split; [reflexivity |].
  rewrite mixture_forward_rows; [reflexivity | | exact Hw].
  rewrite length_zip_with. lia.
Qed.

End MixtureFacts.

(** ** The coupling case: how a conditioner row of width [3K] is cut *)

Section CouplingFacts.
Import Arr Mixture.

(** A row of width [3K] is read as [K - 1] components, an affine log-scale
    and a shift of width 2. *)
Lemma split_theta_coupling_widths {A : Type} (K : nat) (row : list A)
    (ps : pieces) :
  (1 <= K)%nat -> length row = (3 * K)%nat ->
  split_theta row = Py.ret ps ->
  length (weight_logits ps) = (K - 1)%nat
  /\ length (means ps) = (K - 1)%nat
  /\ length (log_scales ps) = (K - 1)%nat
  /\ length (log_s ps) = 1%nat
  /\ length (t ps) = 2%nat.
Proof.
  intros HK Hlen Hsplit. unfold split_theta in Hsplit.
  assert (Hn : n_components_of (Z.of_nat (length row)) = Z.of_nat K - 1).
  { unfold n_components_of. rewrite Hlen.
    replace (Z.of_nat (3 * K) - 2) with (1 + (Z.of_nat K - 1) * 3) by lia.
    rewrite Z.div_add by lia. reflexivity. }
  unfold pieces_of in Hsplit. rewrite Hn in Hsplit.
  destruct (Z.ltb_spec (Z.of_nat K - 1) 0); [lia |].
  injection Hsplit as <-. unfold slice.
  cbn [weight_logits means log_scales log_s t].
  rewrite !length_take, !length_drop, Hlen. clear Hn Hlen.
  repeat split; lia.
Qed.

(** A learned row of width [3K + 2] is read as [K] components, an affine
    log-scale and a shift. *)
Lemma split_theta_learned_widths {A : Type} (K : nat) (row : list A)
    (ps : pieces) :
  length row = (3 * K + 2)%nat ->
  split_theta row = Py.ret ps ->
  length (weight_logits ps) = K
  /\ length (means ps) = K
  /\ length (log_scales ps) = K
  /\ length (log_s ps) = 1%nat
  /\ length (t ps) = 1%nat.
Proof.
  intros Hlen Hsplit. unfold split_theta in Hsplit.
  assert (Hn : n_components_of (Z.of_nat (length row)) = Z.of_nat K).
  { unfold n_components_of. rewrite Hlen.
    replace (Z.of_nat (3 * K + 2) - 2) with (Z.of_nat K * 3) by lia.
    apply Z.div_mul. lia. }
  unfold pieces_of in Hsplit. rewrite Hn in Hsplit.
  destruct (Z.ltb_spec (Z.of_nat K) 0); [lia |].
  injection Hsplit as <-. unfold slice.
  cbn [weight_logits means log_scales log_s t].
  rewrite !length_take, !length_drop, Hlen. clear Hn Hlen.
  repeat split; lia.
Qed.

Lemma split_theta_learned_widths_witness :
  exists ps : pieces,
    split_theta (seqZ 0 26) = Py.ret ps
    /\ length (weight_logits ps) = 8%nat
    /\ length (means ps) = 8%nat
    /\ length (log_scales ps) = 8%nat
    /\ length (log_s ps) = 1%nat
    /\ length (t ps) = 1%nat.
Proof.
  eexists. split; [reflexivity |].
  apply (split_theta_learned_widths 8 (seqZ 0 26)); reflexivity.
Defined.

(** C3 at the default [n_components = 8]: the conditioner output for a half
    [xb] of 4 elements has width [4*3*8] and is reshaped to one row of width
    24 per element (shown for two elements), and [mixture_forward] cuts such a
    row into 7 weight logits, 7 means and 7 log-scales, then takes entry 21 as
    the affine log-scale and entry 22 as the shift. *)
Theorem coupling_row_split_at_K8 :
  get_out_shape 8 [4] = Py.ret [96]
  /\ transform_theta_shape 8 [4] true = [4; 24]
  /\ reshape 8 [100; 200] (seqZ 0 48) = Py.ret [seqZ 0 24; seqZ 24 24]
  /\ n_components_of 24 = 7
  /\ split_theta [0; 1; 2; 3; 4; 5; 6; 7; 8; 9; 10; 11; 12; 13; 14; 15; 16;
                  17; 18; 19; 20; 21; 22; 23]
     = Py.ret {| weight_logits := [0; 1; 2; 3; 4; 5; 6];
                 means := [7; 8; 9; 10; 11; 12; 13];
                 log_scales := [14; 15; 16; 17; 18; 19; 20];
                 log_s := [21];
                 t := [22; 23] |}.
Proof. repeat split. Qed.

End CouplingFacts.

(** ** The solver on exact rationals *)

Section BisectionOnQ.
Import NumQ Bisection.

(** C4 fails as stated: for the identity and the target 0 the initial iterate
    [current_z = 0] already meets the tolerance, [|f(0) - 0| = 0], yet the loop
    runs 37 iterations and returns [125/2^34], not that iterate: the first
    test of the loop reads the placeholder [dx = 10]. *)
Lemma bisection_ignores_tolerance_at_start :
  let f := fun z : Q => z in
  let x := 0%Q in
  let v0 := init_val f (-1000)%Q 1000%Q x in
  allclose (sub (f (val_current_z v0)) x) (lit 0) allclose_rtol default_atol = true
  /\ bisection_loop f (-1000)%Q 1000%Q x default_atol default_max_iters
     = Some (0%Q, 125 # 17179869184, 125 # 17179869184, 0%Q,
             125 # 8589934592, 125 # 17179869184, 37)
  /\ bisection f (-1000)%Q 1000%Q x default_atol default_max_iters
     = Some (125 # 17179869184)%Q.
Proof. vm_compute. repeat split. Qed.

(** A run that meets the tolerance: the cube root of 8 on [-1000, 1000]. *)
Example bisection_cube_root :
  exists z : Q,
    bisection (fun z => z * z * z)%Q (-1000)%Q 1000%Q 8%Q default_atol
      default_max_iters = Some z
    /\ (Qabs (z * z * z - 8) <= 1 # 100000000)%Q
    /\ (Qabs (z - 2) <= 1 # 1000000000)%Q.
Proof.
  eexists. split; [vm_compute; reflexivity |].
  split; vm_compute; discriminate.
Qed.

(** A run the tolerance never ends: for a constant function off the target
    the body is executed [max_iters + 1 = 10001] times, since the loop goes on
    while [i <= max_iters]. *)
Lemma bisection_runs_max_iters_plus_one :
  exists v,
    bisection_loop (fun _ : Q => 0%Q) (-1000)%Q 1000%Q 1%Q default_atol
      default_max_iters = Some v
    /\ val_i v = 10001.
Proof.
  destruct (bisection_loop_run (fun _ : Q => 0%Q) (-1000)%Q 1000%Q 1%Q
              default_atol default_max_iters ltac:(discriminate))
    as (n & Hrun & _ & Hi & _ & Hstop & _).
  eexists. split; [exact Hrun |]. rewrite Hi.
  destruct Hstop as [Htol | Hcap]; [exfalso | exact Hcap].
  destruct n as [| n].
  - vm_compute in Htol. discriminate.
  - simpl Nat.iter in Htol.
    destruct (body_val_dx (fun _ : Q => 0%Q)
                (Nat.iter n (bisection_body (fun _ : Q => 0%Q))
                   (init_val (fun _ : Q => 0%Q) (-1000)%Q 1000%Q 1%Q)))
      as [_ Hdx].
    cbn zeta in Hdx. rewrite Hdx, iter_val_x in Htol.
    vm_compute in Htol. discriminate.
Qed.

End BisectionOnQ.

(** ** The solver and the mixtures on exact reals *)

Section OnReals.
Import NumR Arr Bisection Mixture OnR.
Local Open Scope R_scope.

(** The literals of the sources, as reals. *)
Lemma Q2R_0 : Q2R 0 = 0.
Proof. unfold Q2R. simpl. lra. Qed.
Lemma Q2R_1 : Q2R 1 = 1.
Proof. unfold Q2R. simpl. lra. Qed.
Lemma Q2R_half : Q2R 0.5 = / 2.
Proof. unfold Q2R. simpl. lra. Qed.
Lemma Q2R_10 : Q2R 10 = 10.
Proof. unfold Q2R. simpl. lra. Qed.
Lemma Q2R_1000 : Q2R 1000 = 1000.
Proof. unfold Q2R. simpl. lra. Qed.

Lemma Rallclose_zero (dx : R) :
  allclose dx (lit 0) allclose_rtol default_atol = true <-> Rabs dx <= / 10 ^ 8.
Proof.
  cbn. unfold Rallclose.
  replace (Q2R default_atol + Q2R allclose_rtol * Rabs (Q2R 0)) with (/ 10 ^ 8).
  2:{ change default_atol with (1 # 100000000)%Q.
      change allclose_rtol with (1 # 100000)%Q.
      unfold Q2R. simpl. rewrite Rmult_0_l, Rabs_R0. lra. }
  replace (dx - Q2R 0) with dx by (unfold Q2R; simpl; lra).
  destruct (Rle_dec (Rabs dx) (/ 10 ^ 8)); split; intros; auto; discriminate.
Qed.

Lemma Rallclose_placeholder (x : R) :
  allclose (mul (ones_like x) (lit 10)) (lit 0) allclose_rtol default_atol = false.
Proof.
  destruct (allclose _ _ _ _) eqn:Hc; [| reflexivity].
  apply Rallclose_zero in Hc. cbn in Hc.
  rewrite Q2R_10, Rmult_1_l, Rabs_pos_eq in Hc; lra.
Qed.

(** One iteration halves the bracket towards the side of the target. *)
Lemma bisection_body_R (f : R -> R) (x cx z lo up dx : R) (i : Z) :
  bisection_body f (x, cx, z, lo, up, dx, i)
  = if Rlt_dec x cx
    then (x, f ((z + lo) / 2), (z + lo) / 2, lo, z, f ((z + lo) / 2) - x, (i + 1)%Z)
    else (x, f ((z + up) / 2), (z + up) / 2, z, up, f ((z + up) / 2) - x, (i + 1)%Z).
Proof.
  unfold bisection_body. cbn [gt_mask sub add mul lit R_Num]. unfold Rgt_mask.
  rewrite Q2R_1, Q2R_half.
  destruct (Rlt_dec x cx).
  - replace (1 * / 2 * (z + lo) + (1 - 1) * / 2 * (z + up)) with ((z + lo) / 2) by lra.
    replace (1 * lo + (1 - 1) * z) with lo by lra.
    replace (1 * z + (1 - 1) * up) with z by lra.
    reflexivity.
  - replace (0 * / 2 * (z + lo) + (1 - 0) * / 2 * (z + up)) with ((z + up) / 2) by lra.
    replace (0 * lo + (1 - 0) * z) with z by lra.
    replace (0 * z + (1 - 0) * up) with up by lra.
    reflexivity.
Qed.

(** C4, as the loop implements it: the solver always returns; it runs its
    body at least once, since the first tolerance test reads the placeholder
    [dx = 10]; from the first iterate on it stops at the first one with
    [|f(current_z) - x| <= 1e-8], or when the iteration counter ends the run;
    it returns the [current_z] it holds then. *)
Theorem bisection_stops_at_first_close_iterate (f : R -> R) (lower upper x : R) :
  exists n : nat,
    let iterate k := Nat.iter k (bisection_body f) (init_val f lower upper x) in
    bisection f lower upper x default_atol default_max_iters
      = Some (val_current_z (iterate n))
    /\ (1 <= Z.of_nat n <= 10001)%Z
    /\ (Rabs (f (val_current_z (iterate n)) - x) <= / 10 ^ 8
        \/ Z.of_nat n = 10001%Z)
    /\ forall k : nat, (1 <= k < n)%nat ->
         ~ Rabs (f (val_current_z (iterate k)) - x) <= / 10 ^ 8.
Proof.
  destruct (bisection_loop_run f lower upper x default_atol default_max_iters
              ltac:(discriminate))
    as (n & _ & Hret & _ & Hle & Hstop & Hbefore).
  exists n. cbn zeta in *.
  assert (Hdx : forall k, (1 <= k)%nat ->
            val_dx (Nat.iter k (bisection_body f) (init_val f lower upper x))
            = f (val_current_z (Nat.iter k (bisection_body f)
                                  (init_val f lower upper x))) - x).
  { intros k Hk. exact (iterate_val_dx f lower upper x k Hk). }
  assert (Hn : (1 <= n)%nat).
  { destruct n as [| n]; [| lia]. exfalso.
    destruct Hstop as [Htol | Hcap]; [| discriminate].
    cbv [Nat.iter nat_rect init_val val_dx] in Htol.
    now rewrite Rallclose_placeholder in Htol. }
  split; [exact Hret |]. split.
  { unfold default_max_iters in Hle. lia. }
  split.
  - destruct Hstop as [Htol | Hcap].
    + left. apply Rallclose_zero in Htol. now rewrite Hdx in Htol.
    + right. unfold default_max_iters in Hcap. lia.
  - intros k Hk Hclose. specialize (Hbefore k ltac:(lia)).
    rewrite Hdx in Hbefore by lia.
    apply Rallclose_zero in Hclose. congruence.
Qed.

(** *** The bracket of the solver on a strictly increasing function *)

Lemma bracket_init (F : R -> R) (r : R) :
  -1000 <= r <= 1000 ->
  bracket F r 0
    (init_val F (sub (zeros_like (F r)) (lit 1000))
       (add (zeros_like (F r)) (lit 1000)) (F r)).
Proof.
  intros Hr. unfold bracket, init_val.
  cbn [val_x val_current_x val_current_z val_lower val_upper
       sub add zeros_like lit R_Num].
  rewrite Q2R_1000. simpl pow. repeat split; lra.
Qed.

Lemma bracket_step (F : R -> R) (r : R) (n : nat) (v : val) :
  increasing F -> bracket F r n v -> bracket F r (S n) (bisection_body F v).
Proof.
  intros Hinc. destruct v as [[[[[[x cx] z] lo] up] dx] i].
  unfold bracket. cbn [val_x val_current_x val_current_z val_lower val_upper].
  intros (-> & -> & Hr & Hz & Hwidth).
  rewrite bisection_body_R.
  assert (Hpow : 2000 / 2 ^ S n = (2000 / 2 ^ n) / 2).
  { simpl pow. field. apply pow_nonzero. lra. }
  destruct (Rlt_dec (F r) (F z)) as [Hgt | Hngt];
    cbn [val_x val_current_x val_current_z val_lower val_upper];
    rewrite Hpow, <- Hwidth.
  - assert (r < z).
    { destruct (Rlt_dec r z) as [| Hn]; [assumption | exfalso].
      destruct (Rle_lt_or_eq_dec z r ltac:(lra)) as [Hlt | ->]; [| lra].
      specialize (Hinc z r Hlt). lra. }
    repeat split; lra.
  - assert (z <= r).
    { destruct (Rle_dec z r) as [| Hn]; [assumption | exfalso].
      apply Hngt, Hinc. lra. }
    repeat split; lra.
Qed.

Lemma bracket_iter (F : R -> R) (r : R) (n : nat) :
  increasing F -> -1000 <= r <= 1000 ->
  bracket F r n
    (Nat.iter n (bisection_body F)
       (init_val F (sub (zeros_like (F r)) (lit 1000))
          (add (zeros_like (F r)) (lit 1000)) (F r))).
Proof.
  intros Hinc Hr. induction n as [| n IH]; [now apply bracket_init |].
  simpl Nat.iter. now apply bracket_step.
Qed.

Lemma bracket_distance (F : R -> R) (r : R) (n : nat) (v : val) :
  bracket F r n v -> Rabs (val_current_z v - r) <= 1000 / 2 ^ n.
Proof.
  intros (_ & _ & Hr & Hz & Hwidth).
  assert (Hhalf : 1000 / 2 ^ n = (2000 / 2 ^ n) / 2).
  { field. apply pow_nonzero. lra. }
  rewrite Hhalf, <- Hwidth, Hz. apply Rabs_le. lra.
Qed.

(** What the solver returns for the image of a point of the bracket: a point
    whose image is within the tolerance, or, when the counter ended the run,
    a point within [cap_distance] of it. *)
Lemma solve_close (F : R -> R) (r : R) :
  increasing F -> -1000 <= r <= 1000 ->
  Rabs (F (solve F (F r)) - F r) <= / 10 ^ 8
  \/ Rabs (solve F (F r) - r) <= cap_distance.
Proof.
  intros Hinc Hr. unfold solve.
  destruct (bisection_loop_run F (sub (zeros_like (F r)) (lit 1000))
              (add (zeros_like (F r)) (lit 1000)) (F r)
              default_atol default_max_iters ltac:(discriminate))
    as (n & _ & Hret & _ & _ & Hstop & _).
  cbn zeta in Hret, Hstop. rewrite Hret. cbn [default].
  destruct Hstop as [Htol | Hcap].
  - left. destruct n as [| n].
    + cbv [Nat.iter nat_rect init_val val_dx] in Htol.
      now rewrite Rallclose_placeholder in Htol.
    + rewrite iterate_val_dx in Htol by lia.
      now apply Rallclose_zero in Htol.
  - right.
    pose proof (bracket_distance F r n _ (bracket_iter F r n Hinc Hr)) as Hd.
    unfold cap_distance, default_max_iters in *.
    replace (Z.to_nat 10001) with n by lia. exact Hd.
Qed.

(** *** The mixture CDFs are strictly increasing *)

Lemma gauss_integral_pos (a b : R) :
  a < b -> 0 < RiemannInt (gauss_integrable a b).
Proof.
  intros Hab.
  set (m := Rtrigo_def.exp (- (a * a + b * b) / 2)).
  assert (Hm : 0 < m) by apply exp_pos.
  assert (Hle : forall u, a < u < b -> fct_cte m u <= gauss_kernel u).
  { intros u Hu. unfold fct_cte, m, gauss_kernel.
    assert (Hsq : u * u <= a * a + b * b).
    { destruct (Rle_dec 0 u); [assert (u * u <= b * b) by nra
                              | assert (u * u <= a * a) by nra]; nra. }
    destruct (Req_dec (- (a * a + b * b) / 2) (- (u * u) / 2)) as [-> | Hne];
      [lra |].
    left. apply exp_increasing. lra. }
  pose proof (RiemannInt_P19 (RiemannInt_P14 a b m) (gauss_integrable a b)
                (Rlt_le _ _ Hab) Hle) as Hint.
  rewrite RiemannInt_P15 in Hint.
  assert (0 < m * (b - a)) by (apply Rmult_lt_0_compat; lra).
  lra.
Qed.

Lemma Rndtr_increasing : increasing Rndtr.
Proof.
  intros a b Hab. unfold Rndtr.
  pose proof (RiemannInt_P26 (gauss_integrable 0 a) (gauss_integrable a b)
                (gauss_integrable 0 b)) as Hsplit.
  pose proof (gauss_integral_pos a b Hab) as Hpos.
  assert (Hs : 0 < / sqrt (2 * PI)).
  { apply Rinv_0_lt_compat, sqrt_lt_R0. pose proof PI_RGT_0. lra. }
  rewrite <- Hsplit. nra.
Qed.

Lemma log_sigmoid_increasing : increasing log_sigmoid.
Proof.
  intros a b Hab. unfold log_sigmoid.
  cbn [add neg lit exp log R_Num R_Special]. rewrite Q2R_1.
  apply Ropp_lt_contravar, ln_increasing.
  - pose proof (exp_pos (- b)). lra.
  - apply Rplus_lt_compat_l, exp_increasing. lra.
Qed.

Lemma logistic_sum_cons (w m s : R) (ws ms ss : list R) (x : R) :
  logistic_sum (w :: ws) (m :: ms) (s :: ss) x
  = Rtrigo_def.exp (w + log_sigmoid ((x - m) * Rtrigo_def.exp (- s)))
    + logistic_sum ws ms ss x.
Proof. reflexivity. Qed.

Lemma gaussian_sum_cons (w m s : R) (ws ms ss : list R) (x : R) :
  gaussian_sum (w :: ws) (m :: ms) (s :: ss) x
  = Rtrigo_def.exp w * Rndtr ((x - m) * Rtrigo_def.exp (Q2R (-0.5) * s))
    + gaussian_sum ws ms ss x.
Proof. reflexivity. Qed.

Lemma mixture_sum_nil (T : list R -> list R -> list R -> R -> R)
    (ws ms ss : list R) (x : R) :
  (T = logistic_sum \/ T = gaussian_sum) ->
  ws = [] \/ ms = [] \/ ss = [] -> T ws ms ss x = 0.
Proof.
  intros [-> | ->] Hnil.
  - unfold logistic_sum.
    destruct ws as [| w ws]; [apply Q2R_0 |].
    destruct ms as [| m ms]; [apply Q2R_0 |].
    destruct ss as [| s ss]; [apply Q2R_0 |].
    destruct Hnil as [| [|]]; discriminate.
  - unfold gaussian_sum.
    destruct ws as [| w ws]; [apply Q2R_0 |].
    destruct ms as [| m ms]; [apply Q2R_0 |].
    destruct ss as [| s ss]; [apply Q2R_0 |].
    destruct Hnil as [| [|]]; discriminate.
Qed.

Lemma logistic_sum_monotone (ws ms ss : list R) (a b : R) :
  a < b ->
  0 <= logistic_sum ws ms ss a <= logistic_sum ws ms ss b
  /\ (ws <> [] -> ms <> [] -> ss <> [] ->
      0 < logistic_sum ws ms ss a < logistic_sum ws ms ss b).
Proof.
  intros Hab. revert ms ss.
  induction ws as [| w ws IH]; intros ms ss.
  { rewrite !(mixture_sum_nil logistic_sum) by auto. split; [lra | congruence]. }
  destruct ms as [| m ms].
  { rewrite !(mixture_sum_nil logistic_sum) by auto. split; [lra | congruence]. }
  destruct ss as [| s ss].
  { rewrite !(mixture_sum_nil logistic_sum) by auto. split; [lra | congruence]. }
  rewrite !logistic_sum_cons.
  destruct (IH ms ss) as [Hle _].
  assert (Hterm : Rtrigo_def.exp (w + log_sigmoid ((a - m) * Rtrigo_def.exp (- s)))
                  < Rtrigo_def.exp (w + log_sigmoid ((b - m) * Rtrigo_def.exp (- s)))).
  { apply exp_increasing, Rplus_lt_compat_l, log_sigmoid_increasing.
    apply Rmult_lt_compat_r; [apply exp_pos | lra]. }
  pose proof (exp_pos (w + log_sigmoid ((a - m) * Rtrigo_def.exp (- s)))).
  split; [| intros _ _ _]; lra.
Qed.

Lemma gaussian_sum_monotone (ws ms ss : list R) (a b : R) :
  a < b ->
  gaussian_sum ws ms ss a <= gaussian_sum ws ms ss b
  /\ (ws <> [] -> ms <> [] -> ss <> [] ->
      gaussian_sum ws ms ss a < gaussian_sum ws ms ss b).
Proof.
  intros Hab. revert ms ss.
  induction ws as [| w ws IH]; intros ms ss.
  { rewrite !(mixture_sum_nil gaussian_sum) by auto. split; [lra | congruence]. }
  destruct ms as [| m ms].
  { rewrite !(mixture_sum_nil gaussian_sum) by auto. split; [lra | congruence]. }
  destruct ss as [| s ss].
  { rewrite !(mixture_sum_nil gaussian_sum) by auto. split; [lra | congruence]. }
  rewrite !gaussian_sum_cons.
  destruct (IH ms ss) as [Hle _].
  assert (Hterm : Rtrigo_def.exp w * Rndtr ((a - m) * Rtrigo_def.exp (Q2R (-0.5) * s))
                  < Rtrigo_def.exp w * Rndtr ((b - m) * Rtrigo_def.exp (Q2R (-0.5) * s))).
  { apply Rmult_lt_compat_l; [apply exp_pos |]. apply Rndtr_increasing.
    apply Rmult_lt_compat_r; [apply exp_pos | lra]. }
  split; [| intros _ _ _]; lra.
Qed.

Lemma logistic_f_increasing (wl mu ls : list R) :
  wl <> [] -> mu <> [] -> ls <> [] -> increasing (logistic_f wl mu ls).
Proof.
  intros Hwl Hmu Hls a b Hab.
  assert (Hw : log_softmax wl <> []) by (destruct wl; [congruence | discriminate]).
  destruct (logistic_sum_monotone (log_softmax wl) mu ls a b Hab) as [_ Hlt].
  specialize (Hlt Hw Hmu Hls).
  change (logistic_f wl mu ls a)
    with (Rtrigo_def.exp (ln (logistic_sum (log_softmax wl) mu ls a))).
  change (logistic_f wl mu ls b)
    with (Rtrigo_def.exp (ln (logistic_sum (log_softmax wl) mu ls b))).
  rewrite !exp_ln by lra. lra.
Qed.

Lemma gaussian_f_increasing (wl mu ls : list R) :
  wl <> [] -> mu <> [] -> ls <> [] -> increasing (gaussian_f wl mu ls).
Proof.
  intros Hwl Hmu Hls a b Hab.
  assert (Hw : log_softmax wl <> []) by (destruct wl; [congruence | discriminate]).
  destruct (gaussian_sum_monotone (log_softmax wl) mu ls a b Hab) as [_ Hlt].
  exact (Hlt Hw Hmu Hls).
Qed.

(** A row of width at least 5 has at least one component, and its CDF is
    strictly increasing. *)
Lemma row_cdf_increasing (k : kind) (row : list R) :
  (5 <= length row)%nat -> increasing (row_cdf k row).
Proof.
  intros Hrow.
  assert (HK : (1 <= row_K row)%nat /\ (3 * row_K row + 2 <= length row)%nat).
  { unfold row_K, n_components_of.
    pose proof (Z.div_le_lower_bound (Z.of_nat (length row) - 2) 3 1
                  ltac:(lia) ltac:(lia)).
    pose proof (Z.mul_div_le (Z.of_nat (length row) - 2) 3 ltac:(lia)).
    lia. }
  assert (Hnonnil : forall l : list R, (1 <= length l)%nat -> l <> []).
  { intros [| ? ?] Hl; [simpl in Hl; lia | discriminate]. }
  assert (H1 : row_weight_logits row <> []).
  { apply Hnonnil. unfold row_weight_logits. rewrite length_take. lia. }
  assert (H2 : row_means row <> []).
  { apply Hnonnil. unfold row_means. rewrite length_take, length_drop. lia. }
  assert (H3 : row_log_scales row <> []).
  { apply Hnonnil. unfold row_log_scales. rewrite length_take, length_drop. lia. }
  unfold row_cdf. destruct k; cbn [f_of].
  - now apply gaussian_f_increasing.
  - now apply logistic_f_increasing.
Qed.

(** *** The round trip *)

(** Undoing the affine step gives back the value of the mixture CDF. *)
Lemma affine_step_undone (c t s : R) :
  (c - t) * Rtrigo_def.exp (- s) * Rtrigo_def.exp s + t = c.
Proof.
  rewrite Rmult_assoc, <- exp_plus.
  replace (- s + s) with 0 by lra. rewrite exp_0. lra.
Qed.

(** C1, as the solver guarantees it: for a point [x] of the bracket, the
    inverse of the forward output is a point whose mixture CDF is within the
    tolerance [1e-8] of that of [x], or, when the iteration counter ended the
    run, a point within [cap_distance] of [x]. *)
Theorem mixture_round_trip (k : kind) (x : list R) (theta : list (list R)) :
  length x = length theta ->
  Forall (fun row => (5 <= length row)%nat) theta ->
  Forall (fun xi => -1000 <= xi <= 1000) x ->
  exists z ld_f x' ld_i,
    mixture_forward (f_and_log_det (f_of k) (log_det_of k)) x theta true
      = Py.ret (z, ld_f)
    /\ mixture_inverse (f_of k) (log_det_of k) z theta true = Py.ret (x', ld_i)
    /\ Forall3 (fun row xi xi' =>
                  Rabs (row_cdf k row xi' - row_cdf k row xi) <= / 10 ^ 8
                  \/ Rabs (xi' - xi) <= cap_distance)
               theta x x'.
Proof.
  intros Hlen Hw Hx.
  assert (Hw2 : Forall (fun row : list R => (2 <= length row)%nat) theta).
  { eapply Forall_impl; [exact Hw |]. intros row Hrow. cbn beta in Hrow. lia. }
  rewrite (mixture_forward_rows _ x theta Hlen Hw2). cbn zeta.
  eexists _, _, _, _. split; [reflexivity |].
  rewrite mixture_inverse_rows; [| rewrite length_zip_with; lia | exact Hw2].
  cbn zeta. split; [reflexivity |].
  clear Hw2. revert x Hlen Hx.
  induction Hw as [| row theta Hrow Hw IH]; intros [| xi x] Hlen Hx;
    try discriminate; [constructor |].
  inversion Hx as [| ? ? Hxi Hx']; subst.
  cbn [zip_with]. constructor; [| apply IH; [simpl in Hlen; lia | exact Hx']].
  cbn [f_and_log_det fst add sub mul neg exp R_Num R_Special].
  fold (row_cdf k row). rewrite affine_step_undone.
  apply solve_close; [now apply row_cdf_increasing | exact Hxi].
Qed.

(** *** The logistic mixture with one component and an all-zero row *)

Lemma zero_row_pieces :
  row_weight_logits zero_row = [0] /\ row_means zero_row = [0]
  /\ row_log_scales zero_row = [0] /\ row_log_s zero_row = 0
  /\ row_t zero_row = 0.
Proof. repeat split. Qed.

Lemma Rtanh_0 : Rtrigo_def.tanh 0 = 0.
Proof.
  unfold Rtrigo_def.tanh, sinh. rewrite Ropp_0, exp_0. lra.
Qed.

Lemma zero_row_bounded_log_s : row_bounded_log_s zero_row = 0.
Proof.
  unfold row_bounded_log_s. destruct zero_row_pieces as (_ & _ & _ & -> & _).
  cbn [mul lit tanh R_Num R_Special]. rewrite Rtanh_0. lra.
Qed.

Lemma log_softmax_singleton_zero : log_softmax [0] = [0].
Proof.
  unfold log_softmax, logsumexp. cbn [map sum foldr].
  cbn [add sub lit exp log R_Num R_Special].
  rewrite exp_0, Q2R_0, Rplus_0_r, ln_1. f_equal. lra.
Qed.

(** The CDF of the zero row is the logistic function. *)
Lemma zero_row_cdf (x : R) :
  row_cdf Logistic zero_row x = / (1 + Rtrigo_def.exp (- x)).
Proof.
  unfold row_cdf. destruct zero_row_pieces as (-> & -> & -> & _).
  cbn [f_of]. unfold logistic_f. rewrite log_softmax_singleton_zero.
  unfold logsumexp, log_sigmoid. cbn [map zip_with sum foldr].
  cbn [add sub mul neg lit exp log R_Num R_Special].
  rewrite Q2R_0, Q2R_1, Ropp_0, exp_0, Rplus_0_r, Rplus_0_l, Rminus_0_r, Rmult_1_r.
  rewrite ln_exp, exp_Ropp, exp_ln; [reflexivity |].
  pose proof (exp_pos (- x)). lra.
Qed.

(** Its log-density is negative everywhere. *)
Lemma zero_row_log_density_neg (x : R) : row_log_density Logistic zero_row x < 0.
Proof.
  unfold row_log_density. destruct zero_row_pieces as (-> & -> & -> & _).
  cbn [log_det_of]. unfold logistic_log_det. rewrite log_softmax_singleton_zero.
  unfold logsumexp, log_sigmoid. cbn [map zip_with sum foldr].
  cbn [add sub mul neg lit exp log R_Num R_Special].
  rewrite Q2R_0, Q2R_1, Ropp_0, exp_0, Rplus_0_r, !Rplus_0_l, Rminus_0_r, Rmult_1_r.
  rewrite ln_exp.
  assert (Hpos : forall u, 0 < ln (1 + Rtrigo_def.exp u)).
  { intros u. rewrite <- ln_1. apply ln_increasing; [lra |].
    pose proof (exp_pos u). lra. }
  pose proof (Hpos (- x)). pose proof (Hpos (- - x)). lra.
Qed.

Lemma exp_ge_pow2 (n : nat) : 2 ^ n <= Rtrigo_def.exp (INR n).
Proof.
  induction n as [| n IH]; [simpl; rewrite exp_0; lra |].
  rewrite S_INR, exp_plus. simpl pow.
  pose proof (exp_ineq1 1 ltac:(lra)).
  assert (0 < 2 ^ n) by (apply pow_lt; lra).
  pose proof (exp_pos (INR n)). nra.
Qed.

Lemma exp_minus_50_small : Rtrigo_def.exp (Ropp 50) <= / 10 ^ 8.
Proof.
  rewrite exp_Ropp.
  apply Rinv_le_contravar; [apply pow_lt; lra |].
  pose proof (exp_ge_pow2 50) as H50.
  replace (INR 50) with 50 in H50 by (simpl; lra).
  eapply Rle_trans; [| exact H50]. simpl. lra.
Qed.

(** The logistic function is flat to within the tolerance between 50 and 500. *)
Lemma zero_row_cdf_flat :
  Rabs (row_cdf Logistic zero_row 500 - row_cdf Logistic zero_row 50) <= / 10 ^ 8.
Proof.
  pose proof (row_cdf_increasing Logistic zero_row ltac:(simpl; lia) 50 500
                ltac:(lra)) as Hinc.
  rewrite !zero_row_cdf in *.
  pose proof (exp_pos (Ropp 500)) as H500. pose proof (exp_pos (Ropp 50)) as H50.
  pose proof exp_minus_50_small as Hsmall.
  rewrite Rabs_pos_eq by lra.
  assert (Hup : / (1 + Rtrigo_def.exp (Ropp 500)) < 1).
  { rewrite <- Rinv_1 at 2. apply Rinv_lt_contravar; lra. }
  assert (Hlow : 1 - Rtrigo_def.exp (Ropp 50) <= / (1 + Rtrigo_def.exp (Ropp 50))).
  { apply (Rmult_le_reg_r (1 + Rtrigo_def.exp (Ropp 50))); [lra |].
    rewrite Rinv_l by lra. nra. }
  lra.
Qed.

(** The first iterate is 500 when the target is not below [F 0], and the
    solver returns it when it meets the tolerance. *)
Lemma solve_first_iterate (F : R -> R) (y : R) :
  ~ y < F 0 -> Rabs (F 500 - y) <= / 10 ^ 8 -> solve F y = 500.
Proof.
  intros Hup Hclose. unfold solve, bisection, bisection_loop.
  assert (Hfuel : exists fuel, bisection_fuel default_max_iters = S (S fuel)).
  { exists (Z.to_nat 10000). unfold bisection_fuel, default_max_iters. lia. }
  destruct Hfuel as [fuel ->].
  assert (Hbody : bisection_body F
            (init_val F (sub (zeros_like y) (lit 1000))
               (add (zeros_like y) (lit 1000)) y)
          = (y, F 500, 500, 0, 1000, F 500 - y, 1%Z)).
  { unfold init_val. rewrite bisection_body_R.
    cbn [zeros_like add sub lit R_Num]. rewrite Q2R_1000.
    destruct (Rlt_dec y (F 0)) as [Hlt | _]; [contradiction |].
    replace ((0 + (0 + 1000)) / 2) with 500 by lra.
    replace (0 + 1000) with 1000 by lra. reflexivity. }
  cbn [while_loop].
  replace (cond_fun default_atol default_max_iters
             (init_val F (sub (zeros_like y) (lit 1000))
                (add (zeros_like y) (lit 1000)) y)) with true.
  2:{ unfold init_val, cond_fun. rewrite Rallclose_placeholder. reflexivity. }
  rewrite Hbody.
  replace (cond_fun default_atol default_max_iters
             (y, F 500, 500, 0, 1000, F 500 - y, 1%Z)) with false.
  2:{ unfold cond_fun. apply Rallclose_zero in Hclose. rewrite Hclose.
      reflexivity. }
  reflexivity.
Qed.

(** C1 fails as stated: with one logistic component and an all-zero parameter
    row, the point 50 of the bracket is sent forward and then back to 500. *)
Lemma round_trip_returns_500_for_50 :
  -1000 <= 50 <= 1000
  /\ 450 <= Rabs (500 - 50)
  /\ exists z ld_f ld_i,
       mixture_forward (f_and_log_det (f_of Logistic) (log_det_of Logistic))
         [50] [zero_row] true = Py.ret (z, ld_f)
       /\ mixture_inverse (f_of Logistic) (log_det_of Logistic) z [zero_row] true
          = Py.ret ([500], ld_i).
Proof.
  split; [lra |]. split; [rewrite Rabs_pos_eq; lra |].
  assert (Hw : Forall (fun row : list R => (2 <= length row)%nat) [zero_row]).
  { constructor; [simpl; lia | constructor]. }
  rewrite (mixture_forward_rows _ [50] [zero_row] eq_refl Hw). cbn zeta.
  eexists _, _, _. split; [reflexivity |].
  rewrite mixture_inverse_rows; [| first [exact Hw | reflexivity] ..].
  cbn zeta. cbn [zip_with].
  cbn [f_and_log_det fst add sub mul neg exp R_Num R_Special].
  fold (row_cdf Logistic zero_row). rewrite affine_step_undone.
  rewrite solve_first_iterate; [reflexivity | |].
  - pose proof (row_cdf_increasing Logistic zero_row ltac:(simpl; lia) 0 50
                  ltac:(lra)). lra.
  - exact zero_row_cdf_flat.
Qed.

(** C2 fails as stated: at the point 0 of the same mixture both directions
    report a negative log-determinant, so the one is not the negation of the
    other. *)
Lemma log_dets_of_both_directions_negative :
  exists z ld_f x' ld_i,
    mixture_forward (f_and_log_det (f_of Logistic) (log_det_of Logistic))
      [0] [zero_row] true = Py.ret (z, ld_f)
    /\ mixture_inverse (f_of Logistic) (log_det_of Logistic) z [zero_row] true
       = Py.ret (x', ld_i)
    /\ ld_f < 0 /\ ld_i < 0 /\ ld_f <> - ld_i.
Proof.
  assert (Hw : Forall (fun row : list R => (2 <= length row)%nat) [zero_row]).
  { constructor; [simpl; lia | constructor]. }
  rewrite (mixture_forward_rows _ [0] [zero_row] eq_refl Hw). cbn zeta.
  eexists _, _, _, _. split; [reflexivity |].
  rewrite mixture_inverse_rows; [| first [exact Hw | reflexivity] ..].
  cbn zeta. split; [reflexivity |].
  cbn [zip_with map sum foldr f_and_log_det snd].
  fold (row_log_density Logistic zero_row).
  rewrite zero_row_bounded_log_s.
  cbn [add neg lit R_Num]. rewrite Q2R_0.
  match goal with
  | |- ?a + 0 + - (0 + 0) < 0 /\ ?b + 0 + - (0 + 0) < 0 /\ _ =>
      assert (Ha : a < 0) by apply zero_row_log_density_neg;
      assert (Hb : b < 0) by apply zero_row_log_density_neg
  end.
  repeat split; lra.
Qed.

(** *** The theorems at the zero row *)

Lemma mixture_round_trip_witness :
  exists z ld_f x' ld_i,
    mixture_forward (f_and_log_det (f_of Logistic) (log_det_of Logistic))
      [50] [zero_row] true = Py.ret (z, ld_f)
    /\ mixture_inverse (f_of Logistic) (log_det_of Logistic) z [zero_row] true
       = Py.ret (x', ld_i)
    /\ Forall3 (fun row xi xi' =>
                  Rabs (row_cdf Logistic row xi' - row_cdf Logistic row xi)
                    <= / 10 ^ 8
                  \/ Rabs (xi' - xi) <= cap_distance)
               [zero_row] [50] x'.
Proof.
  apply (mixture_round_trip Logistic [50] [zero_row]).
  - reflexivity.
  - constructor; [simpl; lia | constructor].
  - constructor; [lra | constructor].
Defined.

Lemma inverse_reports_forward_log_det_witness :
  exists x' ld_i z',
    mixture_inverse logistic_f logistic_log_det [/ 2] [zero_row] true
      = Py.ret (x', ld_i)
    /\ mixture_forward (f_and_log_det logistic_f logistic_log_det) x'
         [zero_row] true = Py.ret (z', ld_i).
Proof.
  apply (inverse_reports_forward_log_det logistic_f logistic_log_det [/ 2]
           [zero_row]).
  - reflexivity.
  - constructor; [simpl; lia | constructor].
Defined.


End OnReals.

(** * Further properties of the code *)

(** ** The solver on a strictly increasing function, for any bracket *)

Section SolverOnReals.
Import NumR Arr Bisection Mixture OnR.
Local Open Scope R_scope.

Lemma Rallclose_atol (dx : R) (atol : Q) :
  allclose dx (lit 0) allclose_rtol atol = true <-> Rabs dx <= Q2R atol.
Proof.
  cbn. unfold Rallclose. rewrite Q2R_0, Rabs_R0, Rmult_0_r, Rplus_0_r, Rminus_0_r.
  destruct (Rle_dec (Rabs dx) (Q2R atol)); split; intros; auto; discriminate.
Qed.

Lemma narrowing_first (F : R -> R) (lower upper r : R) :
  increasing F -> lower <= r <= upper ->
  narrowing F r (Rmax upper (- lower)) 0
    (bisection_body F (init_val F lower upper (F r))).
Proof.
  intros Hinc Hr. unfold init_val. rewrite bisection_body_R.
  cbn [zeros_like R_Num].
  pose proof (Rmax_l upper (- lower)). pose proof (Rmax_r upper (- lower)).
  unfold narrowing. simpl pow.
  destruct (Rlt_dec (F r) (F 0)) as [Hgt | Hngt];
    cbn [val_x val_current_x val_current_z val_lower val_upper].
  - assert (r < 0).
    { destruct (Rlt_dec r 0) as [| Hn]; [assumption | exfalso].
      destruct (Rle_lt_or_eq_dec 0 r ltac:(lra)) as [Hlt | <-]; [| lra].
      specialize (Hinc 0 r Hlt). lra. }
    repeat split; lra.
  - assert (0 <= r).
    { destruct (Rle_dec 0 r) as [| Hn]; [assumption | exfalso].
      apply Hngt, Hinc. lra. }
    repeat split; lra.
Qed.

Lemma narrowing_step (F : R -> R) (r M : R) (n : nat) (v : val) :
  increasing F -> narrowing F r M n v -> narrowing F r M (S n) (bisection_body F v).
Proof.
  intros Hinc. destruct v as [[[[[[x cx] z] lo] up] dx] i].
  unfold narrowing. cbn [val_x val_current_x val_current_z val_lower val_upper].
  intros (-> & -> & Hr & Hz & Hwidth).
  rewrite bisection_body_R.
  assert (Hpow : M / 2 ^ S n = (M / 2 ^ n) / 2).
  { simpl pow. field. apply pow_nonzero. lra. }
  destruct (Rlt_dec (F r) (F z)) as [Hgt | Hngt];
    cbn [val_x val_current_x val_current_z val_lower val_upper];
    rewrite Hpow.
  - assert (r < z).
    { destruct (Rlt_dec r z) as [| Hn]; [assumption | exfalso].
      destruct (Rle_lt_or_eq_dec z r ltac:(lra)) as [Hlt | ->]; [| lra].
      specialize (Hinc z r Hlt). lra. }
    repeat split; lra.
  - assert (z <= r).
    { destruct (Rle_dec z r) as [| Hn]; [assumption | exfalso].
      apply Hngt, Hinc. lra. }
    repeat split; lra.
Qed.

Lemma narrowing_iter (F : R -> R) (lower upper r : R) (n : nat) :
  increasing F -> lower <= r <= upper ->
  narrowing F r (Rmax upper (- lower)) n
    (Nat.iter (S n) (bisection_body F) (init_val F lower upper (F r))).
Proof.
  intros Hinc Hr. induction n as [| n IH]; [now apply narrowing_first |].
  change (Nat.iter (S (S n)) (bisection_body F) (init_val F lower upper (F r)))
    with (bisection_body F
            (Nat.iter (S n) (bisection_body F) (init_val F lower upper (F r)))).
  now apply narrowing_step.
Qed.

(** X1: for a strictly increasing [f], a bracket [lower <= r <= upper] and
    the target [f r], [bisection] returns a point whose image is within
    [atol] of the target, or, when the iteration counter ended the run, a
    point within [max(upper, -lower) / 2^(max_iters + 1)] of [r]; the
    bracket need not hold the starting point 0. *)
Theorem bisection_converges (f : R -> R) (lower upper r : R) (atol : Q)
    (max_iters : Z) :
  increasing f -> lower <= r <= upper -> Q2R atol < 10 -> (0 <= max_iters)%Z ->
  exists z : R,
    bisection f lower upper (f r) atol max_iters = Some z
    /\ (Rabs (f z - f r) <= Q2R atol
        \/ Rabs (z - r) <= Rmax upper (- lower) / 2 ^ Z.to_nat (max_iters + 1)).
Proof.
  intros Hinc Hr Hatol Hmax.
  destruct (bisection_loop_run f lower upper (f r) atol max_iters Hmax)
    as (n & _ & Hret & _ & _ & Hstop & _).
  cbn zeta in Hret, Hstop. eexists. split; [exact Hret |].
  destruct n as [| n].
  { exfalso. destruct Hstop as [Htol | Hcap]; [| lia].
    cbv [Nat.iter nat_rect init_val val_dx] in Htol.
    apply Rallclose_atol in Htol. cbn in Htol.
    rewrite Q2R_10, Rmult_1_l, Rabs_pos_eq in Htol; lra. }
  destruct Hstop as [Htol | Hcap].
  - left. rewrite iterate_val_dx in Htol by lia.
    now apply Rallclose_atol in Htol.
  - right.
    destruct (narrowing_iter f lower upper r n Hinc Hr)
      as (_ & _ & Hb & Hz & Hwidth).
    replace (Z.to_nat (max_iters + 1)) with (S n) by lia.
    assert (Hhalf : Rmax upper (- lower) / 2 ^ S n
                    = (Rmax upper (- lower) / 2 ^ n) / 2).
    { simpl pow. field. apply pow_nonzero. lra. }
    rewrite Hhalf, Hz. apply Rabs_le. lra.
Qed.

Lemma bisection_converges_witness :
  exists z : R,
    bisection (fun u => u) 1 3 2 default_atol default_max_iters = Some z
    /\ (Rabs (z - 2) <= Q2R default_atol
        \/ Rabs (z - 2) <= Rmax 3 (- 1) / 2 ^ Z.to_nat (default_max_iters + 1)).
Proof.
  apply (bisection_converges (fun u => u) 1 3 2 default_atol default_max_iters).
  - intros a b Hab. exact Hab.
  - lra.
  - change default_atol with (1 # 100000000)%Q. unfold Q2R. simpl. lra.
  - discriminate.
Defined.

End SolverOnReals.

(** ** The mixture CDFs on exact reals *)

Section MixturesOnReals.
Import NumR Arr Bisection Mixture OnR.
Local Open Scope R_scope.

(** *** The range of the logistic mixture CDF *)

Lemma log_sigmoid_neg (u : R) : log_sigmoid u < 0.
Proof.
  unfold log_sigmoid. cbn [add neg lit exp log R_Num R_Special]. rewrite Q2R_1.
  assert (0 < ln (1 + Rtrigo_def.exp (- u))); [| lra].
  rewrite <- ln_1. apply ln_increasing; [lra |].
  pose proof (exp_pos (- u)). lra.
Qed.

Lemma Rsum_nil : sum (A:=R) [] = 0.
Proof. exact Q2R_0. Qed.

Lemma Rsum_cons (a : R) (l : list R) : sum (a :: l) = a + sum l.
Proof. reflexivity. Qed.

Lemma sum_exp_nonneg (l : list R) : 0 <= sum (map exp l).
Proof.
  induction l as [| b l IH]; cbn [map]; [rewrite Rsum_nil; lra |].
  rewrite Rsum_cons. pose proof (exp_pos b). cbn [exp R_Special] in *. lra.
Qed.

Lemma sum_exp_pos (l : list R) : l <> [] -> 0 < sum (map exp l).
Proof.
  intros Hl. destruct l as [| a l]; [congruence |]. cbn [map].
  rewrite Rsum_cons. pose proof (exp_pos a). pose proof (sum_exp_nonneg l).
  cbn [exp R_Special] in *. lra.
Qed.

(** The weights [exp(log_softmax(weight_logits))] sum to one. *)
Lemma softmax_sums_to_one (wl : list R) :
  wl <> [] -> sum (map exp (log_softmax wl)) = 1.
Proof.
  intros Hwl. pose proof (sum_exp_pos wl Hwl) as Hpos.
  unfold log_softmax, logsumexp. cbn [log sub exp R_Special R_Num] in *.
  set (S := sum (map Rtrigo_def.exp wl)) in *.
  assert (Hgen : forall l : list R,
            sum (map Rtrigo_def.exp (map (fun a => a - ln S) l))
            = sum (map Rtrigo_def.exp l) / S).
  { induction l as [| a l IH]; cbn [map].
    - rewrite Rsum_nil. lra.
    - rewrite !Rsum_cons, IH.
      unfold Rminus. rewrite exp_plus, exp_Ropp, exp_ln by exact Hpos.
      field. lra. }
  rewrite Hgen. fold S. field. lra.
Qed.

Lemma logistic_sum_below_weights (ws ms ss : list R) (x : R) :
  logistic_sum ws ms ss x <= sum (map exp ws)
  /\ (ws <> [] -> logistic_sum ws ms ss x < sum (map exp ws)).
Proof.
  revert ms ss. induction ws as [| w ws IH]; intros ms ss.
  { rewrite (mixture_sum_nil logistic_sum) by auto. cbn [map].
    rewrite Rsum_nil. split; [lra | congruence]. }
  assert (Hw : 0 < Rtrigo_def.exp w) by apply exp_pos.
  pose proof (sum_exp_nonneg ws) as Hrest.
  cbn [map]. rewrite Rsum_cons. cbn [exp R_Special] in *.
  destruct ms as [| m ms].
  { rewrite (mixture_sum_nil logistic_sum) by auto. split; [| intros _]; lra. }
  destruct ss as [| s ss].
  { rewrite (mixture_sum_nil logistic_sum) by auto. split; [| intros _]; lra. }
  rewrite logistic_sum_cons. destruct (IH ms ss) as [Hle _].
  assert (Hterm : Rtrigo_def.exp (w + log_sigmoid ((x - m) * Rtrigo_def.exp (- s)))
                  < Rtrigo_def.exp w).
  { apply exp_increasing.
    pose proof (log_sigmoid_neg ((x - m) * Rtrigo_def.exp (- s))). lra. }
  split; [| intros _]; lra.
Qed.

Lemma logistic_f_sum (wl mu ls : list R) (x : R) :
  wl <> [] -> mu <> [] -> ls <> [] ->
  logistic_f wl mu ls x = logistic_sum (log_softmax wl) mu ls x
  /\ 0 < logistic_sum (log_softmax wl) mu ls x < 1.
Proof.
  intros Hwl Hmu Hls.
  assert (Hw : log_softmax wl <> []) by (destruct wl; [congruence | discriminate]).
  destruct (logistic_sum_monotone (log_softmax wl) mu ls x (x + 1) ltac:(lra))
    as [_ Hlt].
  specialize (Hlt Hw Hmu Hls).
  destruct (logistic_sum_below_weights (log_softmax wl) mu ls x) as [_ Hup].
  specialize (Hup Hw). rewrite softmax_sums_to_one in Hup by exact Hwl.
  split; [| lra].
  change (logistic_f wl mu ls x)
    with (Rtrigo_def.exp (ln (logistic_sum (log_softmax wl) mu ls x))).
  apply exp_ln. lra.
Qed.

Lemma logistic_f_sum_range (wl mu ls : list R) (x : R) :
  wl <> [] -> mu <> [] -> ls <> [] -> 0 < logistic_f wl mu ls x < 1.
Proof.
  intros Hwl Hmu Hls.
  destruct (logistic_f_sum wl mu ls x Hwl Hmu Hls) as [-> Hrange]. exact Hrange.
Qed.

(** X3: with at least one component, the logistic mixture CDF
    [_LogitsticMixtureMixin.f] takes its values strictly between 0 and 1. *)
Theorem logistic_cdf_in_unit_interval (wl mu ls : list R) (x : R) :
  wl <> [] -> mu <> [] -> ls <> [] -> 0 < logistic_f wl mu ls x < 1.
Proof. apply logistic_f_sum_range. Qed.

Lemma logistic_cdf_in_unit_interval_witness :
  0 < logistic_f [0; 1] [0; 2] [0; -1] 3 < 1.
Proof.
  apply (logistic_cdf_in_unit_interval [0; 1] [0; 2] [0; -1] 3); discriminate.
Defined.

(** X2: with at least one component, the Gaussian and the logistic mixture
    CDF are strictly increasing in [x], as [bisection] asks of its [f]. *)
Theorem mixture_cdf_strictly_increasing (k : kind) (wl mu ls : list R) (a b : R) :
  wl <> [] -> mu <> [] -> ls <> [] -> a < b ->
  f_of k wl mu ls a < f_of k wl mu ls b.
Proof.
  intros Hwl Hmu Hls Hab. destruct k; cbn [f_of].
  - now apply gaussian_f_increasing.
  - now apply logistic_f_increasing.
Qed.

Lemma mixture_cdf_strictly_increasing_witness :
  f_of Gaussian [0; 1] [0; 2] [0; -1] 0 < f_of Gaussian [0; 1] [0; 2] [0; -1] 1.
Proof.
  apply (mixture_cdf_strictly_increasing Gaussian [0; 1] [0; 2] [0; -1] 0 1);
    [discriminate | discriminate | discriminate | lra].
Defined.

(** *** A target outside the range of the CDF *)

Lemma iter_saturates_up (F : R -> R) (lower upper y : R) (n : nat) :
  (forall z, F z <= y) ->
  let v := Nat.iter n (bisection_body F) (init_val F lower upper y) in
  val_current_z v = upper * (1 - / 2 ^ n)
  /\ val_upper v = upper /\ val_current_x v = F (val_current_z v) /\ val_x v = y.
Proof.
  intros Hbelow. induction n as [| n IH].
  - cbn. repeat split; try reflexivity. lra.
  - cbn zeta in *. simpl Nat.iter.
    destruct (Nat.iter n (bisection_body F) (init_val F lower upper y))
      as [[[[[[x cx] z] lo] up] dx] i].
    cbn [val_x val_current_x val_current_z val_lower val_upper] in IH.
    destruct IH as (-> & -> & -> & ->).
    rewrite bisection_body_R.
    destruct (Rlt_dec y (F (upper * (1 - / 2 ^ n)))) as [Hgt | _].
    { specialize (Hbelow (upper * (1 - / 2 ^ n))). lra. }
    cbn [val_x val_current_x val_current_z val_lower val_upper].
    repeat split; try reflexivity.
    simpl pow. field. apply pow_nonzero. lra.
Qed.

Lemma iter_saturates_down (F : R -> R) (lower upper y : R) (n : nat) :
  (forall z, y < F z) ->
  let v := Nat.iter n (bisection_body F) (init_val F lower upper y) in
  val_current_z v = lower * (1 - / 2 ^ n)
  /\ val_lower v = lower /\ val_current_x v = F (val_current_z v) /\ val_x v = y.
Proof.
  intros Habove. induction n as [| n IH].
  - cbn. repeat split; try reflexivity. lra.
  - cbn zeta in *. simpl Nat.iter.
    destruct (Nat.iter n (bisection_body F) (init_val F lower upper y))
      as [[[[[[x cx] z] lo] up] dx] i].
    cbn [val_x val_current_x val_current_z val_lower val_upper] in IH.
    destruct IH as (-> & -> & -> & ->).
    rewrite bisection_body_R.
    destruct (Rlt_dec y (F (lower * (1 - / 2 ^ n)))) as [_ | Hngt].
    2:{ specialize (Habove (lower * (1 - / 2 ^ n))). lra. }
    cbn [val_x val_current_x val_current_z val_lower val_upper].
    repeat split; try reflexivity.
    simpl pow. field. apply pow_nonzero. lra.
Qed.

(** A run the tolerance never ends takes all its 10001 iterations. *)
Lemma solve_runs_to_cap (F : R -> R) (y : R) :
  (forall z, / 10 ^ 8 < Rabs (F z - y)) ->
  solve F y
  = val_current_z
      (Nat.iter (Z.to_nat 10001) (bisection_body F)
         (init_val F (sub (zeros_like y) (lit 1000))
            (add (zeros_like y) (lit 1000)) y)).
Proof.
  intros Hfar. unfold solve.
  destruct (bisection_loop_run F (sub (zeros_like y) (lit 1000))
              (add (zeros_like y) (lit 1000)) y
              default_atol default_max_iters ltac:(discriminate))
    as (n & _ & Hret & _ & _ & Hstop & _).
  cbn zeta in Hret, Hstop. rewrite Hret. cbn [default].
  destruct Hstop as [Htol | Hcap].
  - exfalso. destruct n as [| n].
    + cbv [Nat.iter nat_rect init_val val_dx] in Htol.
      now rewrite Rallclose_placeholder in Htol.
    + rewrite iterate_val_dx in Htol by lia.
      apply Rallclose_zero in Htol.
      specialize (Hfar (val_current_z
                          (Nat.iter (S n) (bisection_body F)
                             (init_val F (sub (zeros_like y) (lit 1000))
                                (add (zeros_like y) (lit 1000)) y)))).
      cbn [sub R_Num] in Htol, Hfar. lra.
  - unfold default_max_iters in Hcap.
    replace (Z.to_nat 10001) with n by lia. reflexivity.
Qed.

(** X5: in exact arithmetic, over the reals, a target that is not a value of
    the logistic CDF raises nothing: for a target of at least [1 + 1e-8] the
    wrapper [bisection_no_vmap] runs all 10001 iterations, each moving the
    iterate half of the way to the upper end of the bracket, and returns
    [1000 * (1 - 2^(-10001))]; for a target of at most [-1e-8] it returns the
    negation of that.  The rounding of floating-point numbers, under which
    the iterates reach the end of the bracket itself, is not modelled. *)
Theorem logistic_inverse_saturates (wl mu ls : list R) (y : R) :
  wl <> [] -> mu <> [] -> ls <> [] ->
  (1 + / 10 ^ 8 <= y ->
   bisection_no_vmap logistic_f wl mu ls y
   = Py.ret (1000 * (1 - / 2 ^ Z.to_nat 10001)))
  /\ (y <= - / 10 ^ 8 ->
      bisection_no_vmap logistic_f wl mu ls y
      = Py.ret (- 1000 * (1 - / 2 ^ Z.to_nat 10001))).
Proof.
  intros Hwl Hmu Hls.
  assert (Hrange : forall z, 0 < logistic_f wl mu ls z < 1).
  { intros z. now apply logistic_f_sum_range. }
  split; intros Hy; rewrite bisection_no_vmap_solve; f_equal.
  - rewrite solve_runs_to_cap.
    2:{ intros z. specialize (Hrange z). rewrite Rabs_left; lra. }
    destruct (iter_saturates_up (logistic_f wl mu ls)
                (sub (zeros_like y) (lit 1000)) (add (zeros_like y) (lit 1000))
                y (Z.to_nat 10001)) as [Hz _].
    { intros z. specialize (Hrange z). lra. }
    cbn zeta in Hz. rewrite Hz. cbn [zeros_like add lit R_Num].
    rewrite Q2R_1000. lra.
  - rewrite solve_runs_to_cap.
    2:{ intros z. specialize (Hrange z). rewrite Rabs_right; lra. }
    destruct (iter_saturates_down (logistic_f wl mu ls)
                (sub (zeros_like y) (lit 1000)) (add (zeros_like y) (lit 1000))
                y (Z.to_nat 10001)) as [Hz _].
    { intros z. specialize (Hrange z). lra. }
    cbn zeta in Hz. rewrite Hz. cbn [zeros_like sub lit R_Num].
    rewrite Q2R_1000. lra.
Qed.

Lemma logistic_inverse_saturates_witness :
  bisection_no_vmap logistic_f [0] [0] [0] 2
  = Py.ret (1000 * (1 - / 2 ^ Z.to_nat 10001)).
Proof.
  apply (proj1 (logistic_inverse_saturates [0] [0] [0] 2
                  ltac:(discriminate) ltac:(discriminate) ltac:(discriminate))).
  lra.
Defined.

End MixturesOnReals.

(** ** The affine step is bounded *)

Section AffineOnReals.
Import NumR Arr Bisection Mixture OnR.
Local Open Scope R_scope.

Lemma Rtanh_bounds (u : R) : -1 < Rtrigo_def.tanh u < 1.
Proof.
  unfold Rtrigo_def.tanh, sinh, cosh.
  pose proof (exp_pos u) as Ha. pose proof (exp_pos (- u)) as Hb.
  set (a := Rtrigo_def.exp u) in *. set (b := Rtrigo_def.exp (- u)) in *.
  replace ((a - b) / 2 / ((a + b) / 2)) with ((a - b) * / (a + b)) by (field; lra).
  assert (Hinv : 0 < / (a + b)) by (apply Rinv_0_lt_compat; lra).
  assert (Hone : (a + b) * / (a + b) = 1) by (apply Rinv_r; lra).
  split; nra.
Qed.

Lemma Q2R_three_halves : Q2R 1.5 = 3 / 2.
Proof. unfold Q2R. simpl. lra. Qed.

Lemma row_bounded_log_s_range (row : list R) :
  - (3 / 2) < row_bounded_log_s row < 3 / 2.
Proof.
  unfold row_bounded_log_s. cbn [mul lit tanh R_Num R_Special].
  rewrite Q2R_three_halves.
  pose proof (Rtanh_bounds (row_log_s row)). lra.
Qed.

Lemma sum_bounded (B : R) (l : list R) :
  Forall (fun s => - B < s < B) l -> Rabs (sum l) <= B * INR (length l).
Proof.
  induction 1 as [| s l Hs _ IH].
  - rewrite Rsum_nil, Rabs_R0. simpl. lra.
  - rewrite Rsum_cons. cbn [length]. rewrite S_INR.
    eapply Rle_trans; [apply Rabs_triang |].
    assert (Rabs s <= B) by (apply Rabs_le; lra). lra.
Qed.

(** X6: the affine step of [mixture_forward] multiplies each shifted CDF
    value by a factor strictly between [exp(-1.5)] and [exp(1.5)], whatever
    the parameters, and moves the reported log-determinant away from the sum
    of the mixture log-densities by at most 1.5 per element. *)
Theorem affine_step_is_bounded (f log_det : param_fun) (x : list R)
    (theta : list (list R)) :
  length x = length theta ->
  Forall (fun row => (2 <= length row)%nat) theta ->
  exists z ld scales,
    mixture_forward (f_and_log_det f log_det) x theta true = Py.ret (z, ld)
    /\ z = zip_with Rmult
             (zip_with (fun row xi =>
                          f (row_weight_logits row) (row_means row)
                            (row_log_scales row) xi - row_t row) theta x)
             scales
    /\ length scales = length x
    /\ Forall (fun c => Rtrigo_def.exp (- (3 / 2)) < c < Rtrigo_def.exp (3 / 2)) scales
    /\ Rabs (ld - sum (zip_with (fun row xi =>
                                   log_det (row_weight_logits row) (row_means row)
                                     (row_log_scales row) xi) theta x))
       <= 3 / 2 * INR (length x).
Proof.
  intros Hlen Hw.
  rewrite (mixture_forward_rows _ x theta Hlen Hw). cbn zeta.
  exists (zip_with (fun row xi =>
            mul (sub (fst (f_and_log_det f log_det (row_weight_logits row)
                             (row_means row) (row_log_scales row) xi)) (row_t row))
                (exp (neg (row_bounded_log_s row)))) theta x).
  eexists.
  exists (map (fun row => Rtrigo_def.exp (- row_bounded_log_s row)) theta).
  split; [reflexivity |]. split.
  { clear Hw. revert x Hlen.
    induction theta as [| row theta IH]; intros [| xi x] Hlen; simpl in *;
      try reflexivity; try discriminate.
    f_equal. apply IH. lia. }
  split; [rewrite length_map; lia |]. split.
  { apply Forall_map. apply Forall_forall. intros row _.
    pose proof (row_bounded_log_s_range row).
    split; apply exp_increasing; lra. }
  cbn [f_and_log_det snd add neg R_Num].
  match goal with
  | |- Rabs (?a + - ?b - ?a) <= _ => replace (a + - b - a) with (- b) by lra
  end.
  rewrite Rabs_Ropp, Hlen, <- (length_map row_bounded_log_s theta).
  apply sum_bounded. apply Forall_map. apply Forall_forall. intros row _.
  apply row_bounded_log_s_range.
Qed.

Lemma affine_step_is_bounded_witness :
  exists z ld scales,
    mixture_forward (f_and_log_det logistic_f logistic_log_det) [0] [zero_row] true
      = Py.ret (z, ld)
    /\ z = zip_with Rmult
             (zip_with (fun row xi =>
                          logistic_f (row_weight_logits row) (row_means row)
                            (row_log_scales row) xi - row_t row) [zero_row] [0])
             scales
    /\ length scales = length [0]
    /\ Forall (fun c => Rtrigo_def.exp (- (3 / 2)) < c < Rtrigo_def.exp (3 / 2)) scales
    /\ Rabs (ld - sum (zip_with (fun row xi =>
                                   logistic_log_det (row_weight_logits row)
                                     (row_means row) (row_log_scales row) xi)
                         [zero_row] [0]))
       <= 3 / 2 * INR (length [0]).
Proof.
  apply (affine_step_is_bounded logistic_f logistic_log_det [0] [zero_row]).
  - reflexivity.
  - constructor; [simpl; lia | constructor].
Defined.

End AffineOnReals.

(** ** The log-determinant is the logarithm of the derivative *)

Section Derivatives.
Import NumR Arr Bisection Mixture OnR.
Local Open Scope R_scope.

Lemma derivable_pt_lim_ext (f g : R -> R) (x l : R) :
  (forall y, f y = g y) -> derivable_pt_lim f x l -> derivable_pt_lim g x l.
Proof.
  intros Hfg Hf eps Heps. destruct (Hf eps Heps) as [delta Hd].
  exists delta. intros h Hh Hlt. rewrite <- !Hfg. now apply Hd.
Qed.

Lemma log_sigmoid_derivative (u : R) :
  derivable_pt_lim log_sigmoid u (/ (1 + Rtrigo_def.exp u)).
Proof.
  assert (Hpos : 0 < 1 + Rtrigo_def.exp (- u)) by (pose proof (exp_pos (- u)); lra).
  assert (Hd : derivable_pt_lim
                 (- (comp ln (fct_cte 1 + comp Rtrigo_def.exp (- id))))%F u
                 (- (/ (1 + Rtrigo_def.exp (- u)) * (0 + Rtrigo_def.exp (- u) * - 1)))).
  { apply derivable_pt_lim_opp.
    apply (derivable_pt_lim_comp (fct_cte 1 + comp Rtrigo_def.exp (- id))%F ln).
    - apply derivable_pt_lim_plus; [apply derivable_pt_lim_const |].
      apply (derivable_pt_lim_comp (- id)%F Rtrigo_def.exp).
      + apply derivable_pt_lim_opp, derivable_pt_lim_id.
      + apply derivable_pt_lim_exp.
    - apply derivable_pt_lim_ln. exact Hpos. }
  replace (/ (1 + Rtrigo_def.exp u))
    with (- (/ (1 + Rtrigo_def.exp (- u)) * (0 + Rtrigo_def.exp (- u) * - 1))).
  2:{ rewrite exp_Ropp. pose proof (exp_pos u). field. lra. }
  eapply derivable_pt_lim_ext; [| exact Hd].
  intros y. unfold log_sigmoid. cbn [add neg lit exp log R_Num R_Special].
  rewrite Q2R_1. reflexivity.
Qed.

Lemma exp_log_sigmoid (u : R) :
  Rtrigo_def.exp (log_sigmoid u) = / (1 + Rtrigo_def.exp (- u)).
Proof.
  unfold log_sigmoid. cbn [add neg lit exp log R_Num R_Special]. rewrite Q2R_1.
  pose proof (exp_pos (- u)). rewrite exp_Ropp, exp_ln by lra. reflexivity.
Qed.

Lemma logistic_density_sum_cons (w m s : R) (ws ms ss : list R) (x : R) :
  logistic_density_sum (w :: ws) (m :: ms) (s :: ss) x
  = Rtrigo_def.exp (w + (- s + log_sigmoid ((x - m) * Rtrigo_def.exp (- s))
                         + log_sigmoid (- ((x - m) * Rtrigo_def.exp (- s)))))
    + logistic_density_sum ws ms ss x.
Proof. reflexivity. Qed.

Lemma logistic_density_sum_nil (ws ms ss : list R) (x : R) :
  ws = [] \/ ms = [] \/ ss = [] -> logistic_density_sum ws ms ss x = 0.
Proof.
  intros Hnil. unfold logistic_density_sum.
  destruct ws as [| w ws]; [apply Q2R_0 |].
  destruct ms as [| m ms]; [destruct ss; apply Q2R_0 |].
  destruct ss as [| s ss]; [apply Q2R_0 |].
  destruct Hnil as [| [|]]; discriminate.
Qed.

Lemma logistic_sum_derivative (ws ms ss : list R) (x : R) :
  derivable_pt_lim (logistic_sum ws ms ss) x (logistic_density_sum ws ms ss x).
Proof.
  revert ms ss. induction ws as [| w ws IH]; intros ms ss.
  { rewrite logistic_density_sum_nil by auto.
    apply (derivable_pt_lim_ext (fct_cte 0)); [| apply derivable_pt_lim_const].
    intros y. now rewrite (mixture_sum_nil logistic_sum) by auto. }
  destruct ms as [| m ms].
  { rewrite logistic_density_sum_nil by auto.
    apply (derivable_pt_lim_ext (fct_cte 0)); [| apply derivable_pt_lim_const].
    intros y. now rewrite (mixture_sum_nil logistic_sum) by auto. }
  destruct ss as [| s ss].
  { rewrite logistic_density_sum_nil by auto.
    apply (derivable_pt_lim_ext (fct_cte 0)); [| apply derivable_pt_lim_const].
    intros y. now rewrite (mixture_sum_nil logistic_sum) by auto. }
  rewrite logistic_density_sum_cons.
  set (c := Rtrigo_def.exp (- s)).
  set (u := (x - m) * c).
  apply (derivable_pt_lim_ext
           ((comp Rtrigo_def.exp
               (fct_cte w + comp log_sigmoid ((id - fct_cte m) * fct_cte c)))
            + logistic_sum ws ms ss)%F).
  { intros y. rewrite logistic_sum_cons. reflexivity. }
  apply derivable_pt_lim_plus; [| apply IH].
  replace (Rtrigo_def.exp (w + (- s + log_sigmoid u + log_sigmoid (- u))))
    with (Rtrigo_def.exp (w + log_sigmoid u)
          * (0 + / (1 + Rtrigo_def.exp u) * ((1 - 0) * c + (x - m) * 0))).
  2:{ rewrite !exp_plus, !exp_log_sigmoid. fold c.
      replace (- - u) with u by lra. ring. }
  apply (derivable_pt_lim_comp
           (fct_cte w + comp log_sigmoid ((id - fct_cte m) * fct_cte c))%F
           Rtrigo_def.exp).
  - apply derivable_pt_lim_plus; [apply derivable_pt_lim_const |].
    apply (derivable_pt_lim_comp ((id - fct_cte m) * fct_cte c)%F log_sigmoid).
    + apply (derivable_pt_lim_mult (id - fct_cte m)%F (fct_cte c)).
      * apply derivable_pt_lim_minus;
          [apply derivable_pt_lim_id | apply derivable_pt_lim_const].
      * apply derivable_pt_lim_const.
    + apply log_sigmoid_derivative.
  - apply derivable_pt_lim_exp.
Qed.

Lemma sum_exp_zip_pos (ws ps : list R) :
  ws <> [] -> ps <> [] -> 0 < sum (map exp (zip_with add ws ps)).
Proof.
  intros Hws Hps. apply sum_exp_pos.
  destruct ws; [congruence |]. destruct ps; [congruence | discriminate].
Qed.

Lemma logistic_log_det_derivative (wl mu ls : list R) (x : R) :
  wl <> [] -> mu <> [] -> ls <> [] ->
  derivable_pt_lim (logistic_f wl mu ls) x
    (Rtrigo_def.exp (logistic_log_det wl mu ls x)).
Proof.
  intros Hwl Hmu Hls.
  assert (Hw : log_softmax wl <> []) by (destruct wl; [congruence | discriminate]).
  apply (derivable_pt_lim_ext (logistic_sum (log_softmax wl) mu ls)).
  { intros y. symmetry. now apply logistic_f_sum. }
  change (logistic_log_det wl mu ls x)
    with (ln (logistic_density_sum (log_softmax wl) mu ls x)).
  rewrite exp_ln; [apply logistic_sum_derivative |].
  apply sum_exp_zip_pos; [exact Hw |].
  destruct mu; [congruence |]. destruct ls; [congruence | discriminate].
Qed.

Lemma derivable_pt_lim_local (f g : R -> R) (x l C d : R) :
  0 < d -> (forall y, Rabs (y - x) < d -> f y = g y + C) ->
  derivable_pt_lim f x l -> derivable_pt_lim g x l.
Proof.
  intros Hd Hfg Hf eps Heps. destruct (Hf eps Heps) as [delta Hdelta].
  assert (Hmin : 0 < Rmin delta d).
  { apply Rmin_pos; [apply cond_pos | exact Hd]. }
  exists (mkposreal (Rmin delta d) Hmin). intros h Hh Hlt. cbn [pos] in Hlt.
  assert (Hh1 : Rabs h < delta).
  { eapply Rlt_le_trans; [exact Hlt | apply Rmin_l]. }
  assert (Hh2 : Rabs h < d).
  { eapply Rlt_le_trans; [exact Hlt | apply Rmin_r]. }
  specialize (Hdelta h Hh Hh1).
  rewrite (Hfg (x + h)) in Hdelta by (replace (x + h - x) with h by lra; exact Hh2).
  rewrite (Hfg x) in Hdelta by (replace (x - x) with 0 by lra; rewrite Rabs_R0; exact Hd).
  replace (g (x + h) - g x) with (g (x + h) + C - (g x + C)) by lra.
  exact Hdelta.
Qed.

Lemma gauss_kernel_continuity : continuity gauss_kernel.
Proof. unfold gauss_kernel. reg. Qed.

Lemma gauss_integral_derivative (u : R) :
  derivable_pt_lim (fun x => RiemannInt (gauss_integrable 0 x)) u (gauss_kernel u).
Proof.
  set (a := Rmin 0 u - 1). set (b := Rmax 0 u + 1).
  pose proof (Rmin_l 0 u). pose proof (Rmin_r 0 u).
  pose proof (Rmax_l 0 u). pose proof (Rmax_r 0 u).
  assert (h : a <= b) by (unfold a, b; lra).
  assert (C0 : forall x : R, a <= x <= b -> continuity_pt gauss_kernel x).
  { intros x _. apply gauss_kernel_continuity. }
  assert (Hu : a < u < b) by (unfold a, b; lra).
  pose proof (RiemannInt_P27 h C0 Hu) as HP.
  apply (derivable_pt_lim_local (primitive h (FTC_P1 h C0)) _ u _
           (RiemannInt (gauss_integrable a 0)) 1 ltac:(lra)); [| exact HP].
  intros y Hy. apply Rabs_def2 in Hy.
  unfold primitive.
  destruct (Rle_dec a y) as [Hay | Hn]; [| exfalso; unfold a in Hn; lra].
  destruct (Rle_dec y b) as [Hyb | Hn]; [| exfalso; unfold b in Hn; lra].
  rewrite <- (RiemannInt_P26 (gauss_integrable a 0) (gauss_integrable 0 y)
                (FTC_P1 h C0 Hay Hyb)).
  lra.
Qed.

Lemma Rndtr_derivative (u : R) :
  derivable_pt_lim Rndtr u (/ sqrt (2 * PI) * gauss_kernel u).
Proof.
  replace (/ sqrt (2 * PI) * gauss_kernel u)
    with (0 + / sqrt (2 * PI) * gauss_kernel u) by lra.
  apply (derivable_pt_lim_plus (fct_cte (1 / 2))
           (mult_real_fct (/ sqrt (2 * PI))
              (fun x => RiemannInt (gauss_integrable 0 x)))).
  - apply derivable_pt_lim_const.
  - apply derivable_pt_lim_scal. apply gauss_integral_derivative.
Qed.

Lemma sqrt_two_pi : sqrt (2 * PI) = Rtrigo_def.exp (ln (2 * PI) / 2).
Proof.
  pose proof PI_RGT_0.
  apply sqrt_lem_1; [lra | left; apply exp_pos |].
  rewrite <- exp_plus. replace (ln (2 * PI) / 2 + ln (2 * PI) / 2) with (ln (2 * PI)) by lra.
  apply exp_ln. lra.
Qed.

Lemma gaussian_density_sum_cons (w m s : R) (ws ms ss : list R) (x : R) :
  gaussian_density_sum (w :: ws) (m :: ms) (s :: ss) x
  = Rtrigo_def.exp
      (w + (Q2R (-0.5) * ((x - m) * (x - m)) * Rtrigo_def.exp (- s)
            - Q2R 0.5 * s - Q2R 0.5 * ln (Q2R 2 * PI)))
    + gaussian_density_sum ws ms ss x.
Proof. reflexivity. Qed.

Lemma gaussian_density_sum_nil (ws ms ss : list R) (x : R) :
  ws = [] \/ ms = [] \/ ss = [] -> gaussian_density_sum ws ms ss x = 0.
Proof.
  intros Hnil. unfold gaussian_density_sum.
  destruct ws as [| w ws]; [apply Q2R_0 |].
  destruct ms as [| m ms]; [apply Q2R_0 |].
  destruct ss as [| s ss]; [apply Q2R_0 |].
  destruct Hnil as [| [|]]; discriminate.
Qed.

Lemma Q2R_minus_half : Q2R (-0.5) = - / 2.
Proof. unfold Q2R. simpl. lra. Qed.
Lemma Q2R_2 : Q2R 2 = 2.
Proof. unfold Q2R. simpl. lra. Qed.

Lemma gaussian_sum_derivative (ws ms ss : list R) (x : R) :
  derivable_pt_lim (gaussian_sum ws ms ss) x (gaussian_density_sum ws ms ss x).
Proof.
  revert ms ss. induction ws as [| w ws IH]; intros ms ss.
  { rewrite gaussian_density_sum_nil by auto.
    apply (derivable_pt_lim_ext (fct_cte 0)); [| apply derivable_pt_lim_const].
    intros y. now rewrite (mixture_sum_nil gaussian_sum) by auto. }
  destruct ms as [| m ms].
  { rewrite gaussian_density_sum_nil by auto.
    apply (derivable_pt_lim_ext (fct_cte 0)); [| apply derivable_pt_lim_const].
    intros y. now rewrite (mixture_sum_nil gaussian_sum) by auto. }
  destruct ss as [| s ss].
  { rewrite gaussian_density_sum_nil by auto.
    apply (derivable_pt_lim_ext (fct_cte 0)); [| apply derivable_pt_lim_const].
    intros y. now rewrite (mixture_sum_nil gaussian_sum) by auto. }
  rewrite gaussian_density_sum_cons.
  set (c := Rtrigo_def.exp (Q2R (-0.5) * s)).
  apply (derivable_pt_lim_ext
           ((mult_real_fct (Rtrigo_def.exp w)
               (comp Rndtr ((id - fct_cte m) * fct_cte c)))
            + gaussian_sum ws ms ss)%F).
  { intros y. rewrite gaussian_sum_cons. reflexivity. }
  apply derivable_pt_lim_plus; [| apply IH].
  replace (Rtrigo_def.exp
             (w + (Q2R (-0.5) * ((x - m) * (x - m)) * Rtrigo_def.exp (- s)
                   - Q2R 0.5 * s - Q2R 0.5 * ln (Q2R 2 * PI))))
    with (Rtrigo_def.exp w
          * (/ sqrt (2 * PI) * gauss_kernel ((x - m) * c)
             * ((1 - 0) * c + (x - m) * 0))).
  2:{ rewrite sqrt_two_pi, <- exp_Ropp. unfold gauss_kernel, c.
      rewrite Q2R_minus_half, Q2R_half, Q2R_2.
      replace ((1 - 0) * Rtrigo_def.exp (- / 2 * s) + (x - m) * 0)
        with (Rtrigo_def.exp (- / 2 * s)) by lra.
      rewrite <- !exp_plus. f_equal.
      replace ((x - m) * Rtrigo_def.exp (- / 2 * s)
               * ((x - m) * Rtrigo_def.exp (- / 2 * s)))
        with ((x - m) * (x - m)
              * (Rtrigo_def.exp (- / 2 * s) * Rtrigo_def.exp (- / 2 * s))) by ring.
      rewrite <- exp_plus. replace (- / 2 * s + - / 2 * s) with (- s) by lra.
      lra. }
  apply derivable_pt_lim_scal.
  apply (derivable_pt_lim_comp ((id - fct_cte m) * fct_cte c)%F Rndtr).
  - apply (derivable_pt_lim_mult (id - fct_cte m)%F (fct_cte c)).
    + apply derivable_pt_lim_minus;
        [apply derivable_pt_lim_id | apply derivable_pt_lim_const].
    + apply derivable_pt_lim_const.
  - apply Rndtr_derivative.
Qed.

Lemma gaussian_log_det_derivative (wl mu ls : list R) (x : R) :
  wl <> [] -> mu <> [] -> ls <> [] ->
  derivable_pt_lim (gaussian_f wl mu ls) x
    (Rtrigo_def.exp (gaussian_log_det wl mu ls x)).
Proof.
  intros Hwl Hmu Hls.
  assert (Hw : log_softmax wl <> []) by (destruct wl; [congruence | discriminate]).
  change (gaussian_log_det wl mu ls x)
    with (ln (gaussian_density_sum (log_softmax wl) mu ls x)).
  rewrite exp_ln; [apply (gaussian_sum_derivative (log_softmax wl) mu ls x) |].
  apply sum_exp_zip_pos; [exact Hw |].
  destruct mu; [congruence |]. destruct ls; [congruence | discriminate].
Qed.

(** X4: for both variants and at least one component, the value [log_det]
    reports at [x] is the logarithm of the derivative of the CDF [f] at [x]:
    the derivative of [f] at [x] is [exp(log_det(x))]. *)
Theorem log_det_is_log_derivative (k : kind) (wl mu ls : list R) (x : R) :
  wl <> [] -> mu <> [] -> ls <> [] ->
  derivable_pt_lim (f_of k wl mu ls) x
    (Rtrigo_def.exp (log_det_of k wl mu ls x)).
Proof.
  intros Hwl Hmu Hls. destruct k; cbn [f_of log_det_of].
  - now apply gaussian_log_det_derivative.
  - now apply logistic_log_det_derivative.
Qed.

Lemma log_det_is_log_derivative_witness :
  derivable_pt_lim (f_of Gaussian [0; 1] [0; 2] [0; -1]) 3
    (Rtrigo_def.exp (log_det_of Gaussian [0; 1] [0; 2] [0; -1] 3)).
Proof.
  apply (log_det_is_log_derivative Gaussian [0; 1] [0; 2] [0; -1] 3);
    discriminate.
Defined.

End Derivatives.
(** ** The coupling case, for every number of components *)

Section CouplingShapes.
Import Arr Mixture.

Lemma rows_of_shape {A : Type} (n width : nat) (params : list A) :
  length params = (n * width)%nat ->
  length (rows_of n width params) = n
  /\ Forall (fun row => length row = width) (rows_of n width params).
Proof.
  revert params. induction n as [| n IH]; intros params Hlen; cbn [rows_of].
  - split; [reflexivity | constructor].
  - destruct (IH (drop width params)) as [Hn Hrows].
    { rewrite length_drop. lia. }
    split; [cbn [length]; now rewrite Hn |].
    constructor; [rewrite length_take; lia | exact Hrows].
Qed.

(** X7: with [K >= 1] components, the conditioner output that
    [get_out_shape] asks for, [n * 3K] values for [n] elements, is reshaped
    by [transform] into [n] rows of width [3K], and [mixture_forward] cuts
    each such row into [K - 1] weight logits, [K - 1] means and [K - 1]
    log-scales, one affine log-scale and a shift of width 2. *)
Theorem coupling_rows_lose_a_component {A : Type} (K n : nat) (x params : list A) :
  (1 <= K)%nat -> length x = n -> length params = (n * (3 * K))%nat ->
  get_out_shape (Z.of_nat K) [Z.of_nat n] = Py.ret [Z.of_nat n * 3 * Z.of_nat K]
  /\ exists theta,
       reshape (Z.of_nat K) x params = Py.ret theta
       /\ length theta = n
       /\ Forall (fun row =>
                    length row = (3 * K)%nat
                    /\ exists ps,
                         split_theta row = Py.ret ps
                         /\ length (weight_logits ps) = (K - 1)%nat
                         /\ length (means ps) = (K - 1)%nat
                         /\ length (log_scales ps) = (K - 1)%nat
                         /\ length (log_s ps) = 1%nat
                         /\ length (t ps) = 2%nat) theta.
Proof.
  intros HK Hx Hparams. split; [reflexivity |].
  unfold reshape.
  replace (Z.to_nat (3 * Z.of_nat K)) with (3 * K)%nat by lia.
  rewrite bool_decide_eq_true_2 by (rewrite Hx; exact Hparams).
  rewrite Hx. destruct (rows_of_shape n (3 * K) params Hparams) as [Hn Hrows].
  eexists. split; [reflexivity |]. split; [exact Hn |].
  eapply Forall_impl; [exact Hrows |]. intros row Hrow. cbn beta in Hrow.
  split; [exact Hrow |].
  assert (Hsplit : exists ps, split_theta row = Py.ret ps).
  { unfold split_theta. rewrite Hrow.
    destruct (Z.ltb_spec (n_components_of (Z.of_nat (3 * K))) 0) as [Hneg | _];
      [| eexists; reflexivity].
    exfalso. unfold n_components_of in Hneg.
    pose proof (Z.div_pos (Z.of_nat (3 * K) - 2) 3 ltac:(lia) ltac:(lia)). lia. }
  destruct Hsplit as [ps Hps]. exists ps. split; [exact Hps |].
  exact (split_theta_coupling_widths K row ps HK Hrow Hps).
Qed.

Lemma coupling_rows_lose_a_component_witness :
  get_out_shape 8 [2] = Py.ret [48]
  /\ exists theta,
       reshape 8 [100; 200] (seqZ 0 48) = Py.ret theta
       /\ length theta = 2%nat
       /\ Forall (fun row =>
                    length row = 24%nat
                    /\ exists ps,
                         split_theta row = Py.ret ps
                         /\ length (weight_logits ps) = 7%nat
                         /\ length (means ps) = 7%nat
                         /\ length (log_scales ps) = 7%nat
                         /\ length (log_s ps) = 1%nat
                         /\ length (t ps) = 2%nat) theta.
Proof.
  apply (coupling_rows_lose_a_component 8 2 [100; 200] (seqZ 0 48));
    [lia | reflexivity | reflexivity].
Defined.

End CouplingShapes.

(** ** The unit Gaussian prior *)

Section UnitGaussianFacts.
Import NumR Arr Priors UnitGaussianPrior.
Local Open Scope R_scope.

Lemma Q2R_inject_nat (n : nat) : Q2R (inject_Z (Z.of_nat n)) = INR n.
Proof. unfold Q2R, inject_Z. cbn [Qnum Qden]. rewrite <- INR_IZR_INZ. lra. Qed.

Lemma standard_normal_log_density (a : R) :
  ln (gauss_kernel a / sqrt (2 * PI)) = - / 2 * (a * a) - / 2 * ln (2 * PI).
Proof.
  unfold gauss_kernel, Rdiv. rewrite sqrt_two_pi, <- exp_Ropp, <- exp_plus, ln_exp.
  lra.
Qed.

(** X8: once [create_params_and_state] has seen the shape of [x], the
    forward direction of the unit Gaussian prior returns [x] with the sum of
    the standard normal log-densities of its elements as [log_det]; the
    reverse direction returns [x] with [log_det = 0]; before
    [create_params_and_state] has run, the forward direction raises, since
    [dim] is still [None]. *)
Theorem UnitGaussianPrior_log_density {S : Type} (st : S) (x : list R) :
  apply_fun (create_params_and_state [Z.of_nat (length x)]) st x false
  = Py.ret (Outputs x (sum (map (fun a => ln (gauss_kernel a / sqrt (2 * PI))) x)),
            st)
  /\ (forall dim, apply_fun dim st x true = Py.ret (Outputs x 0, st))
  /\ Py.raises (apply_fun None st x false).
Proof.
  split; [| split].
  - unfold apply_fun, create_params_and_state, UnitGaussianPrior.prod.
    cbn [negb foldr]. rewrite Z.mul_1_r. do 3 f_equal.
    cbn [add mul lit log pi R_Num R_Special].
    rewrite Q2R_inject_nat, Q2R_minus_half, Q2R_2.
    induction x as [| a x IH]; cbn [map length].
    + rewrite !Rsum_nil. simpl. lra.
    + rewrite !Rsum_cons, S_INR, <- IH, standard_normal_log_density. lra.
  - intros dim. unfold apply_fun. cbn [negb]. do 3 f_equal. apply Q2R_0.
  - eexists. reflexivity.
Qed.

End UnitGaussianFacts.

(** ** The diagonal-covariance prior on reals *)

Section DiagCovOnReals.
Import NumR Arr Priors RealLib DiagCovPrior.
Local Open Scope R_scope.

(** The key-less inverse direction returns [A z]. *)
Lemma DiagCov_inverse_returns (params : DiagCov_params) (st : state)
    (z : list R) :
  Forall (fun row => length row = length z) (diag_A params) ->
  exists ld,
    DiagCov_inverse params st z None
    = Py.ret (Outputs (map (fun row => dot row z) (diag_A params)) ld, st).
Proof.
  intros Hshape. unfold DiagCov_inverse.
  rewrite (matvec_ok (diag_A params) z Hshape). eexists. reflexivity.
Qed.

Lemma broadcast_singletons (g : R -> R -> R) (a b : R) :
  broadcast g [a] [b] = Py.ret [g a b].
Proof. reflexivity. Qed.

Lemma sqrt_exp_ln (y : R) : 0 < y -> sqrt y = Rtrigo_def.exp (ln y / 2).
Proof.
  intros Hy. apply sqrt_lem_1; [lra | left; apply exp_pos |].
  rewrite <- exp_plus. replace (ln y / 2 + ln y / 2) with (ln y) by lra.
  now apply exp_ln.
Qed.

Lemma DiagCov_forward_scalar_value (a c s v : R) :
  0 < s ->
  let variance := a * a + Rtrigo_def.exp c * (s * s) in
  DiagCov_forward (DiagCovParams [[a]] [c]) (State s) [v]
  = Py.ret (Outputs [a * v / variance]
              (ln (Rtrigo_def.exp (- (v * v) / (2 * variance))
                   / sqrt (2 * PI * variance))),
            State s).
Proof.
  intros Hs variance. unfold DiagCov_forward.
  cbn [diag_A log_diag_cov sigma map length ncols].
  set (d := exp (add c (mul (lit 2) (log s)))).
  assert (Hd : d = Rtrigo_def.exp c * (s * s)).
  { unfold d. cbn [exp add mul lit log R_Num R_Special].
    rewrite Q2R_2, exp_plus. f_equal.
    replace (2 * ln s) with (ln s + ln s) by lra.
    rewrite exp_plus, exp_ln by exact Hs. reflexivity. }
  assert (Hdpos : 0 < d).
  { rewrite Hd. apply Rmult_lt_0_compat; [apply exp_pos | nra]. }
  assert (Hlnd : ln d = c + 2 * ln s).
  { unfold d. cbn [exp add mul lit log R_Num R_Special]. now rewrite Q2R_2, ln_exp. }
  change (transpose [[a]]) with [[a]].
  unfold divide_rows. cbn [Py.mapM]. rewrite broadcast_singletons.
  cbn [Py.bind Py.ret].
  change (matmul_checked [[true_divide a d]] [[a]])
    with (Py.ret [[sum [mul (true_divide a d) a]]]).
  cbn [Py.bind Py.ret].
  change (matadd (eye 1) [[sum [mul (true_divide a d) a]]])
    with (Py.ret [[add (lit 1) (sum [mul (true_divide a d) a])]]).
  cbn [Py.bind Py.ret].
  set (m := add (lit 1) (sum [mul (true_divide a d) a])).
  assert (Hm : m = 1 + a * a / d).
  { unfold m. rewrite Rsum_cons, Rsum_nil.
    cbn [add mul lit true_divide R_Num R_Division]. rewrite Q2R_1. field. lra. }
  assert (Hmpos : 0 < m).
  { rewrite Hm. assert (0 <= a * a / d); [| lra].
    apply Rmult_le_pos; [nra | left; now apply Rinv_0_lt_compat]. }
  set (w := (-1) ^ 0 * 1 / (1 * m * 1 + 0)).
  change (linalg_inv [[m]]) with [[w]].
  assert (Hw : w = / m) by (unfold w; simpl; field; lra).
  change (matmul_checked [[w]] [[a]]) with (Py.ret [[sum [mul w a]]]).
  cbn [Py.bind Py.ret Py.mapM]. rewrite broadcast_singletons.
  cbn [Py.bind Py.ret].
  set (z := sum [mul (true_divide (sum [mul w a]) d) v]).
  change (matvec [[true_divide (sum [mul w a]) d]] [v]) with (Py.ret [z]).
  cbn [Py.bind Py.ret].
  change (matmul_vec [[a]] [z]) with (Py.ret [sum [mul a z]]).
  repeat (rewrite broadcast_singletons; cbn [Py.bind Py.ret]).
  assert (Hvar : variance = d * m).
  { unfold variance. rewrite Hm, <- Hd. field. lra. }
  assert (Hvpos : 0 < variance).
  { rewrite Hvar. now apply Rmult_lt_0_compat. }
  assert (Hz : z = a * v / variance).
  { unfold z. rewrite !Rsum_cons, !Rsum_nil.
    cbn [mul true_divide R_Num R_Division]. rewrite Hw, Hvar. field. lra. }
  f_equal. f_equal. f_equal; [now rewrite Hz |].
  change (slogdet [[m]]) with (Rsign (1 * m * 1 + 0), ln (Rabs (1 * m * 1 + 0))).
  cbn [snd]. replace (1 * m * 1 + 0) with m by lra.
  rewrite (Rabs_pos_eq m) by lra.
  rewrite !Rsum_cons, !Rsum_nil.
  cbn [add sub mul lit log pi true_divide R_Num R_Special R_Division].
  fold d. rewrite Hz.
  rewrite Q2R_minus_half, Q2R_half, Q2R_2, Q2R_inject_nat.
  unfold Rdiv at 4. rewrite sqrt_exp_ln, <- exp_Ropp, <- exp_plus, ln_exp.
  2:{ pose proof PI_RGT_0. apply Rmult_lt_0_compat; lra. }
  pose proof PI_RGT_0.
  rewrite (ln_mult (2 * PI) variance) by lra.
  replace (ln variance) with (ln d + ln m)
    by (rewrite Hvar, ln_mult by lra; reflexivity).
  rewrite Hlnd, Hvar. simpl INR.
  generalize (ln m). intros lm. rewrite Hm. field.
  split; [lra | nra].
Qed.

(** X9: for a one-dimensional observation [v] and a one-dimensional latent,
    with [A = [[a]]], [log_diag_cov = [c]] and [sigma = s > 0], the forward
    direction returns the posterior mean [a v / (a^2 + exp(c) s^2)] of the
    latent and, as [log_det], the logarithm of the density of
    [N(0, a^2 + exp(c) s^2)] at [v], the integral its docstring names. *)
Theorem DiagCov_forward_scalar (a c s v : R) :
  0 < s ->
  let variance := a * a + Rtrigo_def.exp c * (s * s) in
  DiagCov_forward (DiagCovParams [[a]] [c]) (State s) [v]
  = Py.ret (Outputs [a * v / variance]
              (ln (Rtrigo_def.exp (- (v * v) / (2 * variance))
                   / sqrt (2 * PI * variance))),
            State s).
Proof. apply DiagCov_forward_scalar_value. Qed.

Lemma DiagCov_forward_scalar_witness :
  DiagCov_forward (DiagCovParams [[2]] [0]) (State 1) [3]
  = Py.ret (Outputs [2 * 3 / (2 * 2 + Rtrigo_def.exp 0 * (1 * 1))]
              (ln (Rtrigo_def.exp (- (3 * 3)
                                     / (2 * (2 * 2 + Rtrigo_def.exp 0 * (1 * 1))))
                   / sqrt (2 * PI * (2 * 2 + Rtrigo_def.exp 0 * (1 * 1))))),
            State 1).
Proof. apply (DiagCov_forward_scalar 2 0 1 3). lra. Defined.

(** X10: in that one-dimensional case the forward direction does not undo
    the key-less inverse direction: the latent [z] is sent to [x = a z] and
    back to [z * a^2 / (a^2 + exp(c) s^2)]. *)
Theorem DiagCov_forward_after_inverse_scalar (a c s z : R) :
  0 < s ->
  exists x ld ld',
    DiagCov_inverse (DiagCovParams [[a]] [c]) (State s) [z] None
      = Py.ret (Outputs x ld, State s)
    /\ x = [a * z]
    /\ DiagCov_forward (DiagCovParams [[a]] [c]) (State s) x
       = Py.ret (Outputs [z * (a * a / (a * a + Rtrigo_def.exp c * (s * s)))] ld',
                 State s).
Proof.
  intros Hs.
  assert (Hx : map (fun row : list R => dot row [z]) [[a]] = [a * z]).
  { cbn [map]. unfold dot. cbn [zip_with]. rewrite Rsum_cons, Rsum_nil.
    cbn [mul R_Num]. f_equal. lra. }
  destruct (DiagCov_inverse_returns (DiagCovParams [[a]] [c]) (State s) [z])
    as (ld & Hinv).
  { repeat constructor. }
  cbn [diag_A] in Hinv. rewrite Hx in Hinv.
  eexists _, _, _. split; [exact Hinv |]. split; [reflexivity |].
  rewrite (DiagCov_forward_scalar_value a c s (a * z) Hs). cbn zeta.
  do 3 f_equal. f_equal.
  assert (0 < a * a + Rtrigo_def.exp c * (s * s)).
  { pose proof (exp_pos c) as He.
    pose proof (Rmult_lt_0_compat _ _ Hs Hs) as Hss.
    pose proof (Rmult_lt_0_compat _ _ He Hss).
    pose proof (Rle_0_sqr a) as Ha. unfold Rsqr in Ha. lra. }
  field. lra.
Qed.

Lemma DiagCov_forward_after_inverse_scalar_witness :
  exists x ld ld',
    DiagCov_inverse (DiagCovParams [[2]] [0]) (State 1) [5] None
      = Py.ret (Outputs x ld, State 1)
    /\ x = [2 * 5]
    /\ DiagCov_forward (DiagCovParams [[2]] [0]) (State 1) x
       = Py.ret (Outputs [5 * (2 * 2 / (2 * 2 + Rtrigo_def.exp 0 * (1 * 1)))] ld',
                 State 1).
Proof. apply (DiagCov_forward_after_inverse_scalar 2 0 1 5). lra. Defined.

End DiagCovOnReals.

(** ** The sampling direction of the diagonal-covariance prior on reals *)

Section DiagCovInverseOnReals.
Import NumR Arr Priors RealLib.
Local Open Scope R_scope.

Lemma Rsum_fold (l : list R) : sum l = fold_right Rplus 0 l.
Proof.
  induction l as [| a l IH]; [apply Rsum_nil |].
  rewrite Rsum_cons, IH. reflexivity.
Qed.

Lemma Rdot_fold (u v : list R) :
  dot u v = fold_right Rplus 0 (zip_with Rmult u v).
Proof. unfold dot. apply Rsum_fold. Qed.

Lemma Rdot_columns (f g : list R -> R) (M : list (list R)) :
  dot (map f M) (map g M) = fold_right Rplus 0 (map (fun row => f row * g row) M).
Proof.
  rewrite Rdot_fold. induction M as [| row M IH]; [reflexivity |].
  cbn [map zip_with fold_right]. now rewrite IH.
Qed.

(** The product [A^T @ A] of the model is the Gram matrix, entry by entry. *)
Lemma gram_matmul (m : nat) (M : list (list R)) :
  M <> [] -> Forall (fun row => length row = m) M ->
  matmul (transpose M) M = gram m M.
Proof.
  intros Hne Hrows.
  assert (Hc : ncols M = m).
  { destruct M as [| row M]; [contradiction |]. now inversion Hrows. }
  unfold matmul, transpose, gram. rewrite Hc, !map_map.
  apply map_ext. intros j. rewrite map_map. apply map_ext. intros k.
  cbn [lit R_Num]. rewrite Q2R_0. apply Rdot_columns.
Qed.

Lemma gram_length (m : nat) (M : list (list R)) : length (gram m M) = m.
Proof. unfold gram. now rewrite length_map, length_seq. Qed.

(** The noise of the model, draw by draw. *)
Lemma scaled_draws (s : R) (draws c : list R) :
  map (fun n => n * s)
      (zip_with Rmult draws (map (fun ci => Rtrigo_def.exp (Q2R 0.5 * ci)) c))
  = zip_with (fun n ci => n * Rtrigo_def.exp (ci / 2) * s) draws c.
Proof.
  revert c. induction draws as [| n draws IH]; intros [| ci c]; try reflexivity.
  cbn [map zip_with]. rewrite IH, Q2R_half.
  replace (/ 2 * ci) with (ci / 2) by lra. reflexivity.
Qed.

(** The two log-densities at the injected noise, draw by draw: under the
    covariance [diag(exp(c))] and under [sigma^2 * diag(exp(c))]. *)
Lemma noise_logpdfs (s : R) (draws c : list R) :
  0 < s -> length draws = length c ->
  let noise := zip_with (fun n ci => n * Rtrigo_def.exp (ci / 2) * s) draws c in
  Rgaussian_diag_cov_logpdf noise (map (fun _ => 0) noise) c
  = fold_right Rplus 0
      (zip_with (fun n ci => - / 2 * (s * s * (n * n) + ci + ln (2 * PI))) draws c)
  /\ Rgaussian_diag_cov_logpdf noise (map (fun _ => 0) noise) c
     - injected_noise_logpdf s c noise
     = fold_right Rplus 0 (map (fun n => ln s - (s * s - 1) * (n * n) / 2) draws).
Proof.
  intros Hs. revert c. unfold injected_noise_logpdf, Rgaussian_diag_cov_logpdf.
  induction draws as [| n draws IH]; intros [| ci c] Hlen; try discriminate.
  - cbn [zip_with map fold_right]. split; [reflexivity | apply Rminus_diag_eq; reflexivity].
  - injection Hlen as Hlen. destruct (IH c Hlen) as [IH1 IH2].
    cbn [zip_with map fold_right] in *.
    set (E := Rtrigo_def.exp (ci / 2)).
    assert (HE : Rtrigo_def.exp ci = E * E).
    { unfold E. rewrite <- exp_plus. f_equal. lra. }
    assert (HEpos : 0 < E) by apply exp_pos.
    assert (Hs2 : Rtrigo_def.exp (ci + 2 * ln s) = E * E * (s * s)).
    { rewrite exp_plus, HE. f_equal.
      replace (2 * ln s) with (ln s + ln s) by lra.
      now rewrite exp_plus, exp_ln. }
    split.
    + rewrite IH1, HE. f_equal. field. lra.
    + rewrite <- IH2, Hs2, HE. field. lra.
Qed.

(** The sampling direction on reals, with any generator [normal] in the
    place of [random.normal]. *)
Lemma DiagCov_inverse_on_reals {K : Type} (normal : K -> nat -> list R)
    (A_ : list (list R)) (c z : list R) (s : R) (key : K) :
  A_ <> [] -> Forall (fun row => length row = length z) A_ ->
  length (normal key (length A_)) = length A_ -> length c = length A_ ->
  0 < s ->
  let inverse :=
    @DiagCov_inverse R _ _ (sampler normal) _ (DiagCovParams A_ c) (State s) z in
  let Az := map (fun row => fold_right Rplus 0 (zip_with Rmult row z)) A_ in
  let draws := normal key (length A_) in
  let noise := zip_with (fun n ci => n * Rtrigo_def.exp (ci / 2) * s) draws c in
  let reported :=
    fold_right Rplus 0
      (zip_with (fun n ci => - / 2 * (s * s * (n * n) + ci + ln (2 * PI))) draws c) in
  inverse None
    = Py.ret (Outputs Az (- / 2 * ln (Rabs (det (length z) (gram (length z) A_)))),
              State s)
  /\ inverse (Some key) = Py.ret (Outputs (zip_with Rplus Az noise) reported, State s)
  /\ reported = Rgaussian_diag_cov_logpdf noise (map (fun _ => 0) noise) c
  /\ reported - injected_noise_logpdf s c noise
     = fold_right Rplus 0 (map (fun n => ln s - (s * s - 1) * (n * n) / 2) draws).
Proof.
  intros Hne Hshape Hdraws Hc Hs inverse Az draws noise reported.
  destruct (@DiagCov_inverse_value R _ _ (sampler normal) _
              (DiagCovParams A_ c) (State s) z Hshape) as [Hnone Hkey].
  specialize (Hkey key Hdraws Hc).
  cbn [diag_A log_diag_cov sigma] in Hnone, Hkey.
  assert (HAz : map (fun row => dot row z) A_ = Az).
  { unfold Az. apply map_ext. intros row. apply Rdot_fold. }
  rewrite HAz in Hnone, Hkey.
  destruct (noise_logpdfs s draws c Hs) as [Hrep Hdiff].
  { unfold draws. congruence. }
  fold noise in Hrep, Hdiff. fold reported in Hrep.
  split; [| split; [| split]].
  - unfold inverse. rewrite Hnone. do 3 f_equal.
    rewrite (gram_matmul (length z) A_ Hne Hshape).
    cbn [slogdet sampler snd mul lit R_Num]. unfold Rslogdet. cbn [snd].
    now rewrite gram_length, Q2R_minus_half.
  - unfold inverse. refine (eq_trans Hkey _).
    cbn [random_normal sampler exp mul add lit zeros_like gaussian_diag_cov_logpdf
         R_Num R_Special R_Util].
    rewrite scaled_draws. fold draws. fold noise. rewrite Hrep. reflexivity.
  - symmetry. exact Hrep.
  - rewrite Hrep in Hdiff. exact Hdiff.
Qed.



(** The sampling direction at [A = [[1]]], [log_diag_cov = [0]], [z = [3]],
    [sigma = 2] and a draw of 0: it returns [x = 3] and reports
    [-1/2 * log(2 pi)], the log-density at 0 of the Gaussian of variance 1,
    whereas the noise is drawn with variance 4, whose log-density at 0 is
    smaller by [log 2]. *)
Lemma DiagCov_inverse_log_density_at_sigma_2 :
  let inverse :=
    @DiagCov_inverse R _ _ (sampler key_draws) _ (DiagCovParams [[1]] [0]) (State 2)
      [3] in
  inverse (Some 0%nat) = Py.ret (Outputs [3] (- / 2 * ln (2 * PI)), State 2)
  /\ inverse None = Py.ret (Outputs [3] 0, State 2)
  /\ injected_noise_logpdf 2 [0] [0] = - / 2 * ln (2 * PI) - ln 2
  /\ - / 2 * ln (2 * PI) <> injected_noise_logpdf 2 [0] [0].
Proof.
  intros inverse.
  destruct (DiagCov_inverse_on_reals key_draws [[1]] [0] [3] 2 0%nat)
    as (Hnone & Hkey & _ & _);
    [discriminate | repeat constructor | reflexivity | reflexivity | lra |].
  assert (Hnoise : injected_noise_logpdf 2 [0] [0] = - / 2 * ln (2 * PI) - ln 2).
  { unfold injected_noise_logpdf, Rgaussian_diag_cov_logpdf.
    cbn [map zip_with fold_right]. lra. }
  split; [| split; [| split]].
  - unfold inverse. rewrite Hkey. cbn [length key_draws repeat zip_with map fold_right INR].
    do 3 f_equal.
    + f_equal. replace (0 / 2) with 0 by lra. rewrite exp_0. lra.
    + lra.
  - unfold inverse. rewrite Hnone.
    cbn [length gram seq map zip_with fold_right nth det delete].
    do 3 f_equal; [f_equal; lra |].
    replace (Rabs _) with 1; [rewrite ln_1; lra |].
    symmetry. rewrite Rabs_pos_eq; simpl; lra.
  - exact Hnoise.
  - rewrite Hnoise. pose proof ln_lt_2. lra.
Qed.

End DiagCovInverseOnReals.

(** ** A freshly initialized diagonal-covariance prior *)

Section FreshDiagCov.
Import NumR Arr Priors DiagCovPrior.
Context {L : Linalg R} {U : Util R}.
Local Open Scope R_scope.

Lemma unit_noise (draws : list R) (n : nat) :
  length draws = n ->
  map (fun e => mul e (lit 1))
      (zip_with mul draws (map (fun c => exp (mul (lit 0.5) c)) (repeat (lit 0) n)))
  = draws.
Proof.
  intros <-. induction draws as [| e draws IH]; [reflexivity |].
  cbn [length repeat map zip_with]. rewrite IH. f_equal.
  cbn [mul lit exp R_Num R_Special]. rewrite Q2R_0, Q2R_1, Rmult_0_r, exp_0. lra.
Qed.

(** X11: with the parameters and the state [create_params_and_state]
    returns for an input shape ending in [n], the inverse direction with a
    key sends a latent [z] to [A z] plus the standard normal draw itself:
    the noise scale is one; an empty input shape raises [IndexError]. *)
Theorem DiagCov_fresh_prior_samples (A_init : rng_key -> nat * nat -> list (list R))
    (out_dim n : nat) (key key' : rng_key) (batch_shape : list nat) (z : list R) :
  length (A_init key (n, out_dim)) = n ->
  Forall (fun row => length row = out_dim) (A_init key (n, out_dim)) ->
  length z = out_dim ->
  length (random_normal key' n) = n ->
  let A_ := A_init key (n, out_dim) in
  exists ld,
    (let* ps := DiagCov_create_params_and_state A_init out_dim key
                  (batch_shape ++ [n]) in
     DiagCov_inverse (fst ps) (snd ps) z (Some key'))
    = Py.ret (Outputs (zip_with Rplus (map (fun row => dot row z) A_)
                         (random_normal key' n)) ld,
              State 1)
    /\ DiagCov_create_params_and_state A_init out_dim key []
       = Py.raise (Py.IndexError "tuple index out of range").
Proof.
  intros Hrows Hcols Hz Hdraws A_.
  enough (Hgoal : exists ld,
    (let* ps := DiagCov_create_params_and_state A_init out_dim key
                  (batch_shape ++ [n]) in
     DiagCov_inverse (fst ps) (snd ps) z (Some key'))
    = Py.ret (Outputs (zip_with Rplus (map (fun row => dot row z) A_)
                         (random_normal key' n)) ld,
              State 1)).
  { destruct Hgoal as [ld Hld]. exists ld. split; [exact Hld | reflexivity]. }
  unfold DiagCov_create_params_and_state. rewrite last_snoc.
  cbn [Py.bind Py.ret fst snd]. unfold DiagCov_inverse.
  cbn [diag_A log_diag_cov sigma]. fold A_.
  rewrite (matvec_ok A_ z) by (rewrite Hz; exact Hcols).
  cbn [Py.bind Py.ret Py.load_names]. cbn.
  rewrite length_map. fold A_. unfold A_ at 1. rewrite Hrows.
  rewrite broadcast_same_length
    by (rewrite length_map, repeat_length; exact Hdraws).
  cbn [Py.bind Py.ret].
  pose proof (unit_noise (random_normal key' n) n Hdraws) as Hnoise.
  cbn [mul lit exp R_Num R_Special] in Hnoise |- *. rewrite Q2R_1 in *.
  rewrite Hnoise.
  rewrite broadcast_same_length by (rewrite length_map; unfold A_; congruence).
  cbn [Py.bind Py.ret]. eexists. reflexivity.
Qed.

End FreshDiagCov.

Section FreshDiagCovOnReals.
Import NumR Arr Priors RealLib DiagCovPrior.
Local Open Scope R_scope.

Lemma DiagCov_fresh_prior_samples_witness :
  exists ld,
    (let* ps := DiagCov_create_params_and_state ones_init 2%nat 7%nat [64; 3]%nat in
     DiagCov_inverse (fst ps) (snd ps) [1; 2] (Some 9%nat))
    = Py.ret (Outputs (zip_with Rplus
                         (map (fun row => dot row [1; 2]) (ones_init 7 (3, 2)%nat))
                         (random_normal 9%nat 3)) ld,
              State 1)
    /\ DiagCov_create_params_and_state ones_init 2%nat 7%nat []
       = Py.raise (Py.IndexError "tuple index out of range").
Proof.
  apply (DiagCov_fresh_prior_samples (L := R_Linalg) ones_init 2%nat 3%nat 7%nat 9%nat
           [64%nat] [1; 2]).
  - reflexivity.
  - repeat constructor.
  - reflexivity.
  - reflexivity.
Defined.

End FreshDiagCovOnReals.

(** ** Applying the convolutional networks *)

Section ConvCallFacts.
Import Networks ConvCalls.
Context {T : Type} `{ArrayLib T}.

Lemma unpack_shape_length (n : nat) (s s' : list Z) :
  unpack_shape n s = Py.ret s' -> s' = s /\ length s = n.
Proof.
  unfold unpack_shape.
  destruct (Nat.ltb_spec (length s) n); [discriminate |].
  destruct (Nat.ltb_spec n (length s)); [discriminate |].
  intros [= <-]. split; [reflexivity | lia].
Qed.

Lemma unpack_shape_wrong (n : nat) (s : list Z) :
  length s <> n -> exists msg, unpack_shape n s = Py.raise (Py.ValueError msg).
Proof.
  intros Hne. unfold unpack_shape.
  destruct (Nat.ltb_spec (length s) n); [eexists; reflexivity |].
  destruct (Nat.ltb_spec n (length s)); [eexists; reflexivity | lia].
Qed.

Lemma Conv_call_rank (c : Conv) (x : T) (t : bool) :
  length (shape x) <> 4%nat ->
  exists msg, Conv_call c x t = Py.raise (Py.ValueError msg).
Proof.
  intros Hrank. unfold Conv_call.
  destruct (unpack_shape_wrong 4 (shape x) Hrank) as [msg ->].
  exists msg. reflexivity.
Qed.

(** X14: [ConvBlock.__call__] never returns: it unpacks the shape of its
    input into three names and hands the input, normalized and passed through
    the nonlinearity, to a [Conv], which unpacks the shape into four; the
    libraries only have to keep the shape of an array they normalize or
    activate.  Without normalization and with a callable nonlinearity the
    exception is a [ValueError]. *)
Theorem ConvBlock_call_raises (self : ConvBlock) (x : T) (t : bool) :
  (forall a y, shape (apply_activation a y) = shape y) ->
  (forall name y b y', batch_norm name y b = Py.ret y' -> shape y' = shape y) ->
  (forall name y y', instance_norm name y = Py.ret y' -> shape y' = shape y) ->
  Py.raises (ConvBlock_call self x t)
  /\ (cb_norm self = None ->
      forall a, cb_nonlinearity self = Function a ->
      exists msg, ConvBlock_call self x t = Py.raise (Py.ValueError msg)).
Proof.
  intros Hact Hbn Hin. unfold ConvBlock_call.
  destruct (unpack_shape 3 (shape x)) as [e | s] eqn:Hunpack.
  { split; [eexists; reflexivity |]. intros _ a _.
    unfold unpack_shape in Hunpack.
    destruct (length (shape x) <? 3)%nat; [injection Hunpack as <-; eexists; reflexivity |].
    destruct (3 <? length (shape x))%nat; [injection Hunpack as <-; eexists; reflexivity |].
    discriminate. }
  apply unpack_shape_length in Hunpack as [_ Hrank].
  cbn [Py.bind].
  assert (Hnorm : forall k, match ConvBlock_norm self k x t with
                            | inl _ => True
                            | inr y => shape y = shape x
                            end).
  { intros k. unfold ConvBlock_norm.
    destruct (bool_decide _).
    - destruct (batch_norm _ x t) eqn:Hb; [exact I | eapply Hbn; exact Hb].
    - destruct (bool_decide _).
      + destruct (instance_norm _ x) eqn:Hi; [exact I | eapply Hin; exact Hi].
      + reflexivity. }
  split.
  - specialize (Hnorm 0%nat).
    destruct (ConvBlock_norm self 0 x t) as [e | y]; [eexists; reflexivity |].
    cbn [Py.bind]. destruct (cb_nonlinearity self) as [a | a];
      cbn [call_nonlinearity Py.bind Py.ret]; [| eexists; reflexivity].
    destruct (Conv_call_rank (ConvBlock_conv0 self) (apply_activation a y) true)
      as [msg ->]; [rewrite Hact, Hnorm; lia |].
    eexists; reflexivity.
  - intros Hnone a Ha. unfold ConvBlock_norm at 1. rewrite Hnone, Ha.
    cbn [bool_decide decide_rel Py.bind Py.ret call_nonlinearity].
    rewrite !bool_decide_eq_false_2 by discriminate.
    cbn [Py.bind Py.ret].
    destruct (Conv_call_rank (ConvBlock_conv0 self) (apply_activation a x) true)
      as [msg ->]; [rewrite Hact; lia |].
    exists msg. reflexivity.
Qed.


Lemma RepeatedConv_init_unknown_nonlinearity (channel_sizes : list Z)
    (kernel_shapes : list (Z * Z)) (parameter_norm : option string)
    (use_bias : bool) (normalization : option string) (nonlinearity : string) :
  length channel_sizes = length kernel_shapes ->
  ~ In nonlinearity accepted_nonlinearities ->
  RepeatedConv_init channel_sizes kernel_shapes parameter_norm use_bias
    normalization nonlinearity
  = Py.raise (Py.AssertionError "Invalid nonlinearity").
Proof.
  intros Hlen Hnl. unfold RepeatedConv_init.
  rewrite Hlen, Nat.eqb_refl. simpl.
  repeat match goal with
  | |- context [String.eqb ?s ?n] =>
      rewrite (eqb_false_of_not_in s _ n Hnl) by (simpl; tauto)
  end.
  reflexivity.
Qed.

Lemma CNN_block_unknown_nonlinearity (self : CNN) :
  ~ In (cnn_nonlinearity self) accepted_nonlinearities ->
  CNN_block self = Py.raise (Py.AssertionError "Invalid nonlinearity").
Proof.
  intros Hnl. unfold CNN_block, BottleneckConv_init, ReverseBottleneckConv_init.
  destruct (cnn_conv_block self);
    now apply RepeatedConv_init_unknown_nonlinearity.
Qed.

(** X13: a [CNN] built with a nonlinearity none of the layers accepts fails
    only when it is called, at the first block, with the [AssertionError] of
    [RepeatedConv.__init__]; with no block to build, the call is the final
    1x1 convolution alone and the nonlinearity is never looked at. *)
Theorem CNN_checks_nonlinearity_at_call (sq : T -> Py.result T) (self : CNN) (x : T)
    (t : bool) :
  ~ In (cnn_nonlinearity self) accepted_nonlinearities ->
  (1 <= cnn_n_blocks self ->
   CNN_call sq self x t = Py.raise (Py.AssertionError "Invalid nonlinearity"))
  /\ (cnn_n_blocks self <= 0 ->
      CNN_call sq self x t
      = let* conv := Conv_init (cnn_out_channel self) (1, 1)
                       (cnn_parameter_norm self) (1, 1) "SAME" (1, 1) (1, 1)
                       false false in
        Conv_call conv x t).
Proof.
  intros Hnl. split; intros Hn; unfold CNN_call.
  - destruct (Z.to_nat (cnn_n_blocks self)) as [| n] eqn:Hk; [lia |].
    cbn [CNN_blocks]. rewrite (CNN_block_unknown_nonlinearity self Hnl).
    reflexivity.
  - replace (Z.to_nat (cnn_n_blocks self)) with 0%nat by lia. reflexivity.
Qed.

(** X12: a [CNN] with [squeeze_excite=True] and at least one block raises
    when it is called; when its first block can be built and applied, the
    exception is the [NameError] for [SqueezeExcitation], a name the module
    binds nowhere. *)
Theorem CNN_call_squeeze_excite (sq : T -> Py.result T) (self : CNN) (x : T)
    (t : bool) :
  cnn_squeeze_excite self = true -> 1 <= cnn_n_blocks self ->
  Py.raises (CNN_call sq self x t)
  /\ forall block x',
       CNN_block self = Py.ret block ->
       RepeatedConv_call block x t = Py.ret x' ->
       CNN_call sq self x t = Py.raise (Py.NameError "SqueezeExcitation").
Proof.
  intros Hse Hn. unfold CNN_call.
  destruct (Z.to_nat (cnn_n_blocks self)) as [| n] eqn:Hk; [lia |].
  cbn [CNN_blocks]. rewrite Hse. split.
  - destruct (CNN_block self) as [e | block]; [eexists; reflexivity |].
    cbn [Py.bind].
    destruct (RepeatedConv_call block x t) as [e | x']; eexists; reflexivity.
  - intros block x' -> Hcall.
    change (Py.load_names CNN_call_scope ["range"]) with (Py.ret (A:=unit) tt).
    cbn [Py.bind Py.ret]. rewrite Hcall. reflexivity.
Qed.

End ConvCallFacts.

Section ConvCallRuns.
Import Networks ConvCalls ConvExample.

Lemma ConvBlock_call_raises_witness :
  Py.raises (ConvBlock_call relu_block [8; 8; 3] true)
  /\ (cb_norm relu_block = None ->
      forall a, cb_nonlinearity relu_block = Function a ->
      exists msg, ConvBlock_call relu_block [8; 8; 3] true
                  = Py.raise (Py.ValueError msg)).
Proof.
  apply (ConvBlock_call_raises relu_block [8; 8; 3] true).
  - reflexivity.
  - intros name y b y' [= <-]. reflexivity.
  - intros name y y' [= <-]. reflexivity.
Defined.

Lemma CNN_checks_nonlinearity_at_call_witness :
  (1 <= cnn_n_blocks gelu_cnn ->
   CNN_call Py.ret gelu_cnn images true
   = Py.raise (Py.AssertionError "Invalid nonlinearity"))
  /\ (cnn_n_blocks gelu_cnn <= 0 ->
      CNN_call Py.ret gelu_cnn images true
      = let* conv := Conv_init (cnn_out_channel gelu_cnn) (1, 1)
                       (cnn_parameter_norm gelu_cnn) (1, 1) "SAME" (1, 1) (1, 1)
                       false false in
        Conv_call conv images true).
Proof.
  apply (CNN_checks_nonlinearity_at_call Py.ret gelu_cnn images true).
  simpl. intuition discriminate.
Defined.

Lemma CNN_call_squeeze_excite_witness :
  Py.raises (CNN_call Py.ret squeeze_cnn images true)
  /\ forall block x',
       CNN_block squeeze_cnn = Py.ret block ->
       RepeatedConv_call block images true = Py.ret x' ->
       CNN_call Py.ret squeeze_cnn images true
       = Py.raise (Py.NameError "SqueezeExcitation").
Proof.
  apply (CNN_call_squeeze_excite Py.ret squeeze_cnn images true).
  - reflexivity.
  - simpl. lia.
Defined.

End ConvCallRuns.

(** ** Applying the perceptron *)

Section MlpCallFacts.
Import Arr Networks MlpCalls.
Context {A : Type} `{Num A} `{MlpLib A}.

Lemma transpose_shape (M : list (list A)) (r c : nat) :
  (1 <= r)%nat -> length M = r -> Forall (fun row => length row = c) M ->
  length (transpose M) = c
  /\ Forall (fun col => length col = r) (transpose M).
Proof.
  intros Hr Hlen Hrows. unfold transpose.
  assert (Hc : ncols M = c).
  { destruct M as [| row M]; [simpl in Hlen; lia |].
    inversion Hrows; subst. reflexivity. }
  rewrite Hc, length_map, length_seq. split; [reflexivity |].
  apply Forall_map, Forall_forall. intros j _. cbn beta.
  now rewrite length_map.
Qed.

Lemma mapM_broadcast_rows (g : A -> A -> A) (M : list (list A)) (b : list A) :
  Forall (fun row => length row = length b) M ->
  Py.mapM (fun row => broadcast g row b) M
  = Py.ret (map (fun row => zip_with g row b) M).
Proof.
  intros HM. apply mapM_ret_map.
  eapply Forall_impl; [exact HM |]. intros row Hrow.
  now apply broadcast_same_length.
Qed.

(** One layer: [jnp.dot(x, w.T) + b] on a batch of [r] vectors of length [k]
    and a weight matrix of shape [(o, k)]. *)
Lemma dense_layer_shape (x w : list (list A)) (b : list A) (r k o : nat) :
  (1 <= r)%nat -> (1 <= k)%nat -> (1 <= o)%nat ->
  length x = r -> Forall (fun row => length row = k) x ->
  length w = o -> Forall (fun row => length row = k) w ->
  length b = o ->
  exists y,
    (let* xw := matmul_checked x (transpose w) in
     Py.mapM (fun row => broadcast add row b) xw) = Py.ret y
    /\ length y = r /\ Forall (fun row => length row = o) y.
Proof.
  intros Hr Hk Ho Hx Hxrows Hw Hwrows Hb.
  destruct (transpose_shape w o k Ho Hw Hwrows) as [Htl Htrows].
  destruct (transpose_shape (transpose w) k o Hk Htl Htrows) as [Httl _].
  unfold matmul_checked.
  replace (forallb (fun row => Nat.eqb (length row) (length (transpose w))) x)
    with true.
  2:{ symmetry. apply forallb_forall. intros row Hrow.
      rewrite Forall_forall in Hxrows. apply Nat.eqb_eq. rewrite Htl.
      apply Hxrows. now apply list_elem_of_In. }
  cbn [Py.bind Py.ret].
  assert (Hrows : Forall (fun row => length row = length b)
                    (matmul x (transpose w))).
  { unfold matmul. apply Forall_map, Forall_forall. intros row _. cbn beta.
    rewrite length_map, Httl. congruence. }
  rewrite (mapM_broadcast_rows add _ b Hrows).
  eexists. split; [reflexivity |]. split.
  - unfold matmul. now rewrite !length_map.
  - apply Forall_map. eapply Forall_impl; [exact Hrows |].
    intros row Hrow. cbn beta in *. rewrite length_zip_with. lia.
Qed.

Lemma MLP_layers_shape (self : MLP) (t : bool) (a : activation)
    (layer_sizes : list Z) :
  mlp_nonlinearity self = Function a ->
  mlp_parameter_norm self <> Some "spectral_norm" ->
  (forall name r c, 0 < r -> 0 < c ->
     exists w, get_matrix name (r, c) = Py.ret w
               /\ length w = Z.to_nat r
               /\ Forall (fun row => length row = Z.to_nat c) w) ->
  (forall name n, 0 < n ->
     exists b, get_vector name n = Py.ret b /\ length b = Z.to_nat n) ->
  Forall (fun s => 0 < s) layer_sizes ->
  forall (i r k : nat) (x : list (list A)),
    (1 <= r)%nat -> (1 <= k)%nat ->
    (mlp_parameter_norm self = Some "weight_norm" -> r = 1%nat) ->
    length x = r -> Forall (fun row => length row = k) x ->
    exists y,
      MLP_layers self t i layer_sizes x = Py.ret y
      /\ length y = r
      /\ Forall (fun row => length row
                             = Z.to_nat (default (Z.of_nat k) (last layer_sizes))) y.
Proof.
  intros Hnl Hpn Hmat Hvec Hsizes.
  induction Hsizes as [| o sizes Ho Hsizes IH]; intros i r k x Hr Hk Hwn Hx Hrows.
  { exists x. cbn [MLP_layers last default]. rewrite Nat2Z.id. auto. }
  cbn [MLP_layers].
  change (Py.load_names MLP_call_scope ["data_dependent_param_init"])
    with (Py.ret (A:=unit) tt).
  cbn [Py.bind Py.ret]. unfold data_dependent_param_init.
  rewrite bool_decide_eq_false_2 by exact Hpn.
  replace (bool_decide (mlp_parameter_norm self = Some "weight_norm")
           && (1 <? Z.of_nat (length x))) with false.
  2:{ symmetry. destruct (bool_decide_reflect
                            (mlp_parameter_norm self = Some "weight_norm"))
        as [Hw | _]; [| reflexivity].
      cbn [andb]. apply Z.ltb_ge. specialize (Hwn Hw). lia. }
  assert (Hncols : ncols x = k).
  { destruct x as [| row x]; [simpl in Hx; lia |].
    inversion Hrows; subst. reflexivity. }
  rewrite Hncols.
  change (Py.load_names data_dependent_param_init_scope ["hk"])
    with (Py.ret (A:=unit) tt).
  cbn [Py.bind Py.ret].
  destruct (Hmat ("w_" +:+ pretty i) o (Z.of_nat k) Ho ltac:(lia))
    as (w & -> & Hw & Hwrows).
  cbn [Py.bind Py.ret].
  destruct (Hvec ("b_" +:+ pretty i) o Ho) as (b & -> & Hb).
  cbn [Py.bind Py.ret].
  change (Py.load_names MLP_call_scope ["jnp"]) with (Py.ret (A:=unit) tt).
  cbn [Py.bind Py.ret].
  rewrite Nat2Z.id in Hwrows.
  destruct (dense_layer_shape x w b r k (Z.to_nat o) Hr Hk ltac:(lia) Hx Hrows
              Hw Hwrows Hb) as (y & Hy & Hylen & Hyrows).
  destruct (matmul_checked x (transpose w)) as [e | xw]; [discriminate |].
  cbn [Py.bind] in Hy |- *. rewrite Hy. cbn [Py.bind Py.ret].
  change (Py.load_names MLP_call_scope ["len"]) with (Py.ret (A:=unit) tt).
  cbn [Py.bind Py.ret].
  assert (Hact : exists y',
            (if Z.of_nat i <? Z.of_nat (length (mlp_layer_sizes self)) - 1
             then call_nonlinearity (mlp_nonlinearity self) y
             else Py.ret y) = Py.ret y'
            /\ length y' = r
            /\ Forall (fun row => length row = Z.to_nat o) y').
  { destruct (Z.of_nat i <? _); [| now exists y].
    rewrite Hnl. cbn [call_nonlinearity]. eexists. split; [reflexivity |].
    split; [now rewrite length_map |].
    apply Forall_map. eapply Forall_impl; [exact Hyrows |].
    intros row Hrow. cbn beta. now rewrite length_map. }
  destruct Hact as (y' & -> & Hy'len & Hy'rows). cbn [Py.bind Py.ret].
  destruct (IH (S i) r (Z.to_nat o) y' Hr ltac:(lia) Hwn Hy'len Hy'rows)
    as (out & Hout & Houtlen & Houtrows).
  exists out. split; [exact Hout |]. split; [exact Houtlen |].
  rewrite Z2Nat.id in Houtrows by lia.
  rewrite last_cons. destruct (last sizes); exact Houtrows.
Qed.

(** X15: a perceptron built with one of the nonlinearities [relu], [tanh],
    [sigmoid], [lipswish] and called on a batch of [r >= 1] vectors of length
    [k >= 1] returns [r] vectors of length [out_dim], whatever
    [parameter_norm] is, as long as it does not select one of the two
    initializers of [init]: any other string is taken for no normalization.
    The parameter store has to hand out arrays of the shape it is asked for,
    and the layer sizes have to be positive. *)
Theorem MLP_call_output_shape (out_dim : Z) (layer_sizes : list Z)
    (nonlinearity : string) (parameter_norm : option string) (t : bool)
    (r k : nat) (x : list (list A)) :
  In nonlinearity ["relu"; "tanh"; "sigmoid"; "lipswish"] ->
  parameter_norm <> Some "spectral_norm" ->
  (parameter_norm = Some "weight_norm" -> r = 1%nat) ->
  (forall name r c, 0 < r -> 0 < c ->
     exists w, get_matrix name (r, c) = Py.ret w
               /\ length w = Z.to_nat r
               /\ Forall (fun row => length row = Z.to_nat c) w) ->
  (forall name n, 0 < n ->
     exists b, get_vector name n = Py.ret b /\ length b = Z.to_nat n) ->
  0 < out_dim -> Forall (fun s => 0 < s) layer_sizes ->
  (1 <= r)%nat -> (1 <= k)%nat ->
  length x = r -> Forall (fun row => length row = k) x ->
  exists mlp y,
    MLP_init out_dim layer_sizes nonlinearity parameter_norm = Py.ret mlp
    /\ MLP_call mlp x t = Py.ret y
    /\ length y = r
    /\ Forall (fun row => length row = Z.to_nat out_dim) y.
Proof.
  intros Hnl Hpn Hwn Hmat Hvec Hout Hsizes Hr Hk Hx Hrows.
  assert (Hinit : exists a,
            MLP_init out_dim layer_sizes nonlinearity parameter_norm
            = Py.ret {| mlp_out_dim := out_dim;
                        mlp_layer_sizes := layer_sizes ++ [out_dim];
                        mlp_parameter_norm := parameter_norm;
                        mlp_nonlinearity := Function a |}).
  { simpl in Hnl. destruct Hnl as [<- | [<- | [<- | [<- | []]]]];
      eexists; reflexivity. }
  destruct Hinit as [a Hinit]. rewrite Hinit.
  set (mlp := {| mlp_out_dim := out_dim |}).
  assert (Hall : Forall (fun s => 0 < s) (layer_sizes ++ [out_dim])).
  { apply Forall_app. split; [exact Hsizes | repeat constructor; exact Hout]. }
  destruct (MLP_layers_shape mlp t a (layer_sizes ++ [out_dim]) eq_refl Hpn
              Hmat Hvec Hall 0%nat r k x Hr Hk Hwn Hx Hrows)
    as (y & Hy & Hylen & Hyrows).
  exists mlp, y. split; [reflexivity |]. split; [exact Hy |].
  split; [exact Hylen |]. now rewrite last_snoc in Hyrows.
Qed.

End MlpCallFacts.

Section MlpCallRuns.
Import NumR Arr Networks MlpCalls RealNets.
Local Open Scope R_scope.

Lemma zeros_matrix_shape (r c : Z) :
  length (zeros_matrix r c) = Z.to_nat r
  /\ Forall (fun row => length row = Z.to_nat c) (zeros_matrix r c).
Proof.
  unfold zeros_matrix. split; [apply repeat_length |].
  apply Forall_forall. intros row Hrow. apply list_elem_of_In in Hrow.
  apply repeat_spec in Hrow as ->. apply repeat_length.
Qed.

Lemma MLP_call_output_shape_witness :
  exists mlp y,
    MLP_init 2 [3; 4]%Z "tanh" (Some "layer_norm") = Py.ret mlp
    /\ MLP_call mlp [[1; 2; 3]; [4; 5; 6]] true = Py.ret y
    /\ length y = 2%nat
    /\ Forall (fun row => length row = Z.to_nat 2) y.
Proof.
  apply (MLP_call_output_shape 2 [3; 4]%Z "tanh" (Some "layer_norm") true
           2 3 [[1; 2; 3]; [4; 5; 6]]).
  - simpl. tauto.
  - discriminate.
  - discriminate.
  - intros name r c _ _. exists (zeros_matrix r c).
    split; [reflexivity | apply zeros_matrix_shape].
  - intros name n _. exists (repeat 0 (Z.to_nat n)).
    split; [reflexivity | apply repeat_length].
  - lia.
  - repeat constructor.
  - lia.
  - lia.
  - reflexivity.
  - repeat constructor.
Defined.

End MlpCallRuns.

(** ** The zero-padding layer *)

Section AugmentedFacts.
Import Arr Augmented.
Context {A : Type} `{Num A} {rng : Type}.
Context (list_prod : list Z -> Z).
Context (get_unbatched_shapes : @ZeroPadding A rng -> bool -> list Z).
Context (default_flow : @ZeroPadding A rng -> @flow_fn A rng).

Lemma small_le_big (self : @ZeroPadding A rng) :
  small_dim list_prod self <= big_dim list_prod self.
Proof.
  unfold small_dim, big_dim.
  destruct (Z.ltb_spec (output_dim list_prod self) (input_dim list_prod self)); lia.
Qed.

Lemma big_to_small_negb (self : @ZeroPadding A rng) (sample : bool) :
  big_to_small list_prod self (negb sample) = negb (big_to_small list_prod self sample).
Proof.
  unfold big_to_small.
  destruct sample, (String.eqb (kind list_prod self) "tall"); reflexivity.
Qed.

Lemma slices_of_padded (x noise : list A) (k : Z) :
  0 <= k -> length x = Z.to_nat k ->
  slice_to (x ++ noise) k = x /\ slice_from (x ++ noise) k = noise.
Proof.
  intros Hk Hlen. unfold slice_to, slice_from, slice_index.
  destruct (Z.ltb_spec k 0); [lia |]. rewrite <- Hlen.
  split; [apply take_app_length | apply drop_app_length].
Qed.

(** Helper: the call that pads, then the call in the other direction. *)
Lemma call_pad_then_project (self : @ZeroPadding A rng) (x : list A)
    (key key' : rng) (sample : bool) (o : call_outputs) :
  big_to_small list_prod self sample = false ->
  0 <= small_dim list_prod self ->
  length x = Z.to_nat (small_dim list_prod self) ->
  call list_prod get_unbatched_shapes default_flow self x key sample = Py.ret o ->
  let f := match flow self with Some f => f | None => default_flow self end in
  exists fo,
    f (FlowInputs
         (repeat (lit 0) (Z.to_nat (big_dim list_prod self - small_dim list_prod self)))
         x) key true = Py.ret fo
    /\ o = CallOutputs (x ++ fo_x fo)
             (sub (lit 0) (add (fo_log_det fo) (fo_log_pz fo))) None
    /\ forall o',
         length (get_unbatched_shapes self (negb sample)) = 1%nat ->
         (call list_prod get_unbatched_shapes default_flow self (out_x o) key'
            (negb sample) = Py.ret o'
          <-> exists fo',
                f (FlowInputs (fo_x fo) x) key' false = Py.ret fo'
                /\ o' = CallOutputs x
                          (add (lit 0) (add (fo_log_det fo') (fo_log_pz fo')))
                          (Some (x ++ fo_x fo))).
Proof.
  intros Hdir Hsmall Hlen Hcall f. unfold call in Hcall.
  rewrite Hdir in Hcall.
  destruct (Py.assert_ _ _) as [e | []] eqn:Hassert; [discriminate |].
  cbn [Py.bind] in Hcall.
  pose proof (small_le_big self) as Hle.
  destruct (Z.ltb_spec (big_dim list_prod self - small_dim list_prod self) 0)
    as [Hneg | _]; [lia |].
  cbn [Py.bind Py.ret] in Hcall. fold f in Hcall.
  destruct (f _ key true) as [e | fo] eqn:Hflow; [discriminate |].
  cbn [Py.bind Py.ret] in Hcall. injection Hcall as <-.
  exists fo. split; [reflexivity |]. split; [reflexivity |].
  intros o' Hshape. cbn [out_x]. unfold call.
  rewrite big_to_small_negb, Hdir. cbn [negb].
  rewrite Hshape. cbn [Nat.eqb Py.assert_ Py.bind Py.ret]. fold f.
  destruct (slices_of_padded x (fo_x fo) (small_dim list_prod self) Hsmall Hlen)
    as [-> ->].
  split.
  - intros Hrev. destruct (f _ key' false) as [e | fo'] eqn:Hflow'; [discriminate |].
    cbn [Py.bind Py.ret] in Hrev. injection Hrev as <-.
    exists fo'. split; reflexivity.
  - intros (fo' & -> & ->). reflexivity.
Qed.

(** X16: padding, then projecting.  A call in the direction that pads a
    vector [x] of [small_dim] elements returns [x] followed by the noise of
    the flow, and no [captured_output]; a call in the other direction on that
    output returns [x] again, with the padded vector as [captured_output],
    and it returns whenever the flow does on the noise conditioned on [x]. *)
Theorem ZeroPadding_pad_then_project (self : @ZeroPadding A rng) (x : list A)
    (key key' : rng) (sample : bool) (o : call_outputs) :
  big_to_small list_prod self sample = false ->
  0 <= small_dim list_prod self ->
  length x = Z.to_nat (small_dim list_prod self) ->
  length (get_unbatched_shapes self (negb sample)) = 1%nat ->
  call list_prod get_unbatched_shapes default_flow self x key sample = Py.ret o ->
  let f := match flow self with Some f => f | None => default_flow self end in
  take (length x) (out_x o) = x
  /\ captured_output o = None
  /\ (forall o',
        call list_prod get_unbatched_shapes default_flow self (out_x o) key'
          (negb sample) = Py.ret o' ->
        out_x o' = x /\ captured_output o' = Some (out_x o))
  /\ (forall fo',
        f (FlowInputs (drop (length x) (out_x o)) x) key' false = Py.ret fo' ->
        Py.returns (call list_prod get_unbatched_shapes default_flow self
                      (out_x o) key' (negb sample))).
Proof.
  intros Hdir Hsmall Hlen Hshape Hcall f.
  destruct (call_pad_then_project self x key key' sample o Hdir Hsmall Hlen Hcall)
    as (fo & _ & -> & Hrev).
  cbn [out_x captured_output].
  rewrite take_app_length, drop_app_length.
  split; [reflexivity |]. split; [reflexivity |]. split.
  - intros o' Ho'. apply (Hrev o' Hshape) in Ho' as (fo' & _ & ->).
    split; reflexivity.
  - intros fo' Hfo'. eexists. apply (Hrev _ Hshape). exists fo'.
    split; [exact Hfo' | reflexivity].
Qed.

(** X17: the exceptions of [call]: an [AssertionError] when the unbatched
    shape of the input does not have exactly one axis, and otherwise only
    what the flow raises; the size of the noise is never negative, so the
    array of zeros can always be built. *)
Theorem ZeroPadding_call_errors (self : @ZeroPadding A rng) (x : list A)
    (key : rng) (sample : bool) (e : Py.exn) :
  call list_prod get_unbatched_shapes default_flow self x key sample = Py.raise e ->
  let f := match flow self with Some f => f | None => default_flow self end in
  (length (get_unbatched_shapes self sample) <> 1%nat
   /\ e = Py.AssertionError "Only supporting 1d inputs")
  \/ (length (get_unbatched_shapes self sample) = 1%nat
      /\ exists inputs, f inputs key (negb (big_to_small list_prod self sample))
                        = Py.raise e).
Proof.
  intros Hcall f. unfold call in Hcall.
  destruct (Nat.eqb_spec (length (get_unbatched_shapes self sample)) 1)
    as [Hone | Hne].
  - right. split; [exact Hone |].
    cbn [Py.assert_ Py.bind Py.ret] in Hcall. fold f in Hcall.
    destruct (big_to_small list_prod self sample); cbn [negb].
    + destruct (f _ key false) as [e' | fo] eqn:Hflow; [| discriminate].
      injection Hcall as <-. eexists. exact Hflow.
    + pose proof (small_le_big self) as Hle.
      destruct (Z.ltb_spec (big_dim list_prod self - small_dim list_prod self) 0)
        as [Hneg | _]; [lia |].
      cbn [Py.bind Py.ret] in Hcall.
      destruct (f _ key true) as [e' | fo] eqn:Hflow; [| discriminate].
      injection Hcall as <-. eexists. exact Hflow.
  - left. split; [exact Hne |].
    cbn [Py.assert_ Py.bind Py.raise] in Hcall. now injection Hcall as <-.
Qed.

End AugmentedFacts.

Section AugmentedRuns.
Import NumQ Augmented AugmentedExample.

Lemma ZeroPadding_pad_then_project_witness :
  exists o,
    call list_prod get_unbatched_shapes default_flow layer [1; 2; 3]%Q tt false
    = Py.ret o
    /\ take 3 (out_x o) = [1; 2; 3]%Q
    /\ captured_output o = None
    /\ (forall o',
          call list_prod get_unbatched_shapes default_flow layer (out_x o) tt true
          = Py.ret o' ->
          out_x o' = [1; 2; 3]%Q /\ captured_output o' = Some (out_x o))
    /\ (forall fo',
          echo_flow (FlowInputs (drop 3 (out_x o)) [1; 2; 3]%Q) tt false
          = Py.ret fo' ->
          Py.returns (call list_prod get_unbatched_shapes default_flow layer
                        (out_x o) tt true)).
Proof.
  eexists. split; [reflexivity |].
  apply (ZeroPadding_pad_then_project list_prod get_unbatched_shapes default_flow
           layer [1; 2; 3]%Q tt tt false).
  - reflexivity.
  - discriminate.
  - reflexivity.
  - reflexivity.
  - reflexivity.
Defined.

Lemma ZeroPadding_call_errors_witness :
  (length (get_unbatched_shapes flat_layer false) <> 1%nat
   /\ Py.AssertionError "Only supporting 1d inputs"
      = Py.AssertionError "Only supporting 1d inputs")
  \/ (length (get_unbatched_shapes flat_layer false) = 1%nat
      /\ exists inputs,
           echo_flow inputs tt
             (negb (big_to_small list_prod flat_layer false))
           = Py.raise (Py.AssertionError "Only supporting 1d inputs")).
Proof.
  apply (ZeroPadding_call_errors list_prod get_unbatched_shapes default_flow
           flat_layer [1; 2; 3]%Q tt false
           (Py.AssertionError "Only supporting 1d inputs")).
  reflexivity.
Defined.

End AugmentedRuns.

(** ** The learning-rate schedule *)

Section ScheduleFacts.
Import Schedule.
Local Open Scope Q_scope.

Lemma Qpower_succ (q : Q) (n : Z) : (0 <= n)%Z -> q ^ (n + 1) == q ^ n * q.
Proof.
  intros Hn. rewrite Qpower_plus' by lia. now rewrite Qpower_1_r.
Qed.

Lemma Qpower_unit_interval (q : Q) (n : Z) :
  0 <= q <= 1 -> (0 <= n)%Z -> 0 <= q ^ n <= 1.
Proof.
  intros Hq Hn. rewrite <- (Z2Nat.id n Hn).
  induction (Z.to_nat n) as [| k IH].
  - change (Z.of_nat 0) with 0%Z. rewrite Qpower_0_r. Lqa.lra.
  - rewrite Nat2Z.inj_succ. unfold Z.succ. rewrite Qpower_succ by lia. Lqa.nra.
Qed.

(** X18: for a step [i >= 0], [max_lr >= 0] and a decay in [[0, 1]], the
    learning rate stays between 0 and [max_lr]; it does not decrease during
    the 10000 steps of the warm-up and does not increase afterwards; it is 0
    at step 0 and [max_lr] at step 10000. *)
Theorem lr_schedule_profile (i : Z) (lr_decay max_lr : Q) :
  (0 <= i)%Z -> 0 <= max_lr -> 0 <= lr_decay <= 1 ->
  0 <= lr_schedule i lr_decay max_lr <= max_lr
  /\ ((i < 10000)%Z ->
      lr_schedule i lr_decay max_lr <= lr_schedule (i + 1) lr_decay max_lr)
  /\ ((10000 <= i)%Z ->
      lr_schedule (i + 1) lr_decay max_lr <= lr_schedule i lr_decay max_lr)
  /\ lr_schedule 0 lr_decay max_lr == 0
  /\ lr_schedule 10000 lr_decay max_lr == max_lr.
Proof.
  intros Hi Hmax Hdecay.
  assert (Hwarm : forall j, (0 <= j < 10000)%Z ->
            lr_schedule j lr_decay max_lr == max_lr * inject_Z j / 10000
            /\ 0 <= inject_Z j <= 10000).
  { intros j Hj. unfold lr_schedule. cbn zeta.
    destruct (Z.ltb_spec j 10000); [| lia]. split; [reflexivity |].
    split; [change 0 with (inject_Z 0) | change 10000 with (inject_Z 10000)];
      rewrite <- Zle_Qle; lia. }
  assert (Hlate : forall j, (10000 <= j)%Z ->
            lr_schedule j lr_decay max_lr == max_lr * lr_decay ^ (j - 10000)
            /\ 0 <= lr_decay ^ (j - 10000) <= 1).
  { intros j Hj. unfold lr_schedule. cbn zeta.
    destruct (Z.ltb_spec j 10000); [lia |]. split; [reflexivity |].
    apply Qpower_unit_interval; [exact Hdecay | lia]. }
  assert (Hrange : forall j, (0 <= j)%Z -> 0 <= lr_schedule j lr_decay max_lr <= max_lr).
  { intros j Hj. destruct (Z.lt_ge_cases j 10000) as [Hlt | Hge].
    - destruct (Hwarm j ltac:(lia)) as [-> Hb].
      split; [apply Qle_shift_div_l | apply Qle_shift_div_r]; Lqa.nra.
    - destruct (Hlate j Hge) as [-> Hb]. Lqa.nra. }
  split; [now apply Hrange |]. split; [| split; [| split]].
  - intros Hlt. destruct (Z.lt_ge_cases (i + 1) 10000) as [Hlt' | Hge'].
    + destruct (Hwarm i ltac:(lia)) as [-> Hb].
      destruct (Hwarm (i + 1)%Z ltac:(lia)) as [-> Hb'].
      rewrite inject_Z_plus. change (inject_Z 1) with 1.
      unfold Qdiv. apply Qmult_le_compat_r; [Lqa.nra | discriminate].
    + replace (i + 1)%Z with 10000%Z by lia.
      destruct (Hlate 10000%Z ltac:(lia)) as [-> _].
      change (10000 - 10000)%Z with 0%Z. rewrite Qpower_0_r, Qmult_1_r.
      now apply Hrange.
  - intros Hge. destruct (Hlate i Hge) as [-> Hb].
    destruct (Hlate (i + 1)%Z ltac:(lia)) as [-> _].
    replace (i + 1 - 10000)%Z with (i - 10000 + 1)%Z by lia.
    rewrite Qpower_succ by lia.
    set (p := lr_decay ^ (i - 10000)) in *.
    assert (Hp : p * lr_decay <= p) by Lqa.nra.
    rewrite !(Qmult_comm max_lr). now apply Qmult_le_compat_r.
  - destruct (Hwarm 0%Z ltac:(lia)) as [-> _]. change (inject_Z 0) with 0. field.
  - destruct (Hlate 10000%Z ltac:(lia)) as [-> _].
    change (10000 - 10000)%Z with 0%Z. rewrite Qpower_0_r. ring.
Qed.


Lemma lr_schedule_profile_witness :
  0 <= lr_schedule 5000 default_lr_decay default_max_lr <= default_max_lr
  /\ ((5000 < 10000)%Z ->
      lr_schedule 5000 default_lr_decay default_max_lr
      <= lr_schedule (5000 + 1) default_lr_decay default_max_lr)
  /\ ((10000 <= 5000)%Z ->
      lr_schedule (5000 + 1) default_lr_decay default_max_lr
      <= lr_schedule 5000 default_lr_decay default_max_lr)
  /\ lr_schedule 0 default_lr_decay default_max_lr == 0
  /\ lr_schedule 10000 default_lr_decay default_max_lr == default_max_lr.
Proof.
  apply (lr_schedule_profile 5000 default_lr_decay default_max_lr).
  - lia.
  - discriminate.
  - split; discriminate.
Defined.

End ScheduleFacts.

(** ** Checkpoints of several iterations *)

Section CheckpointMore.
Import Checkpoint.
Context {leaf treedef rng_key loss : Type} (num_leaves : treedef -> nat).

Lemma has_slash_pretty_N_go (x : N) (s : string) :
  has_slash (pretty_N_go x s) = has_slash s.
Proof.
  revert s. induction (N.lt_wf_0 x) as [x _ IH]. intros s.
  destruct (N.eq_dec x 0%N) as [-> | Hx]; [now rewrite pretty_N_go_0 |].
  rewrite pretty_N_go_step by lia.
  rewrite IH by (apply N.div_lt; lia).
  unfold pretty_N_char. repeat case_match; reflexivity.
Qed.

Lemma has_slash_pretty_Z (i : Z) : has_slash (pretty i) = false.
Proof.
  assert (Hpos : forall p : positive, has_slash (pretty p) = false).
  { intros p. unfold pretty, pretty_positive, pretty, pretty_N.
    case_decide; [reflexivity | apply has_slash_pretty_N_go]. }
  destruct i as [| p | p]; [reflexivity | apply Hpos |].
  change (pretty (Z.neg p)) with ("-" +:+ pretty p).
  rewrite has_slash_app, Hpos. reflexivity.
Qed.

Lemma cut_at_slash (a b x y : string) :
  has_slash a = false -> has_slash b = false ->
  a +:+ "/" +:+ x = b +:+ "/" +:+ y -> a = b.
Proof.
  revert b. induction a as [| c a IH]; intros [| d b] Ha Hb Heq.
  - reflexivity.
  - exfalso.
    change (String (Ascii.ascii_of_nat 47) x = String d (b +:+ "/" +:+ y)) in Heq.
    injection Heq as <- _. discriminate.
  - exfalso.
    change (String c (a +:+ "/" +:+ x) = String (Ascii.ascii_of_nat 47) y) in Heq.
    injection Heq as -> _. discriminate.
  - change (String c (a +:+ "/" +:+ x) = String d (b +:+ "/" +:+ y)) in Heq.
    injection Heq as -> Heq. f_equal.
    cbn [has_slash] in Ha, Hb. apply orb_false_elim in Ha as [_ Ha].
    apply orb_false_elim in Hb as [_ Hb]. now apply IH.
Qed.

(** The files of two iterations are different files. *)
Lemma iteration_files_ne (name : string) (i j : Z) (f g : string) :
  i <> j -> iteration_dir name i +:+ f <> iteration_dir name j +:+ g.
Proof.
  intros Hij Heq. unfold iteration_dir in Heq.
  rewrite !append_assoc in Heq. apply append_prefix_inj in Heq.
  apply cut_at_slash in Heq; [| apply has_slash_pretty_Z ..].
  now apply (inj pretty) in Heq.
Qed.

Ltac path_ne' Hij :=
  first [ apply iteration_file_ne_experiment_file; reflexivity
        | apply experiment_file_ne_iteration_file; reflexivity
        | apply iteration_files_ne; first [exact Hij | intros Heq; apply Hij; now symmetry]
        | let Heq := fresh in
          intros Heq; apply append_prefix_inj in Heq; discriminate ].

(** X20: after a checkpoint of iteration [i] and a later one of iteration
    [j], a resume from [i] gets the trees saved at [i] but the random key
    saved at [j]: the key is kept in one file of the experiment directory,
    which every checkpoint overwrites. *)
Theorem resume_takes_latest_key (fs : gmap string (@file leaf rng_key loss))
    (experiment_name : string) (i j : Z)
    (saved later fresh : @run leaf treedef rng_key)
    (losses_nf losses_nif losses_nf' losses_nif' : list loss) :
  i <> 0 -> i <> j -> start_it fresh = i ->
  length (tree_leaves (opt_state_nf saved))
    = num_leaves (tree_structure (opt_state_nf fresh)) ->
  length (tree_leaves (opt_state_nif saved))
    = num_leaves (tree_structure (opt_state_nif fresh)) ->
  length (tree_leaves (state_nf saved))
    = num_leaves (tree_structure (state_nf fresh)) ->
  length (tree_leaves (state_nf saved))
    = num_leaves (tree_structure (state_nif fresh)) ->
  resume num_leaves
    (save_checkpoint
       (save_checkpoint fs experiment_name i saved losses_nf losses_nif)
       experiment_name j later losses_nf' losses_nif')
    experiment_name fresh
  = Py.ret
      (Run (PyTree (tree_structure (opt_state_nf fresh))
              (tree_leaves (opt_state_nf saved)))
           (PyTree (tree_structure (opt_state_nif fresh))
              (tree_leaves (opt_state_nif saved)))
           (PyTree (tree_structure (state_nf fresh))
              (tree_leaves (state_nf saved)))
           (PyTree (tree_structure (state_nif fresh))
              (tree_leaves (state_nf saved)))
           (key later) (i + 1)).
Proof.
  intros Hi Hij Hstart H1 H2 H3 H4. unfold resume, save_checkpoint, savePytree.
  rewrite Hstart, (proj2 (Z.eqb_neq _ _) Hi). cbn [negb].
  unfold load_pytree, tree_unflatten.
  repeat (rewrite lookup_insert_ne by path_ne' Hij).
  rewrite lookup_insert_eq, H1, Nat.eqb_refl. cbn [Py.bind Py.ret].
  repeat (rewrite lookup_insert_ne by path_ne' Hij).
  rewrite lookup_insert_eq, H2, Nat.eqb_refl. cbn [Py.bind Py.ret].
  repeat (rewrite lookup_insert_ne by path_ne' Hij).
  rewrite lookup_insert_eq, H3, <- H4, H3, Nat.eqb_refl. cbn [Py.bind Py.ret].
  rewrite lookup_insert_eq. reflexivity.
Qed.

(** X21: with [start_it != 0] the resume returns exactly when the three
    files of leaves it reads are there, each with as many leaves as the tree
    it is unflattened into has (the NF state file for both states), and
    [misc.p] holds a key; it then returns those leaves, that key and
    [start_it + 1]. *)
Theorem resume_returns_iff (fs : gmap string (@file leaf rng_key loss))
    (experiment_name : string) (r r' : @run leaf treedef rng_key) :
  start_it r <> 0 ->
  let dir := iteration_dir experiment_name (start_it r) in
  resume num_leaves fs experiment_name r = Py.ret r'
  <-> exists l1 l2 l3 k,
        fs !! (dir +:+ "opt_state_nf_leaves.p") = Some (Pickled l1)
        /\ fs !! (dir +:+ "opt_state_nif_leaves.p") = Some (Pickled l2)
        /\ fs !! (dir +:+ "state_nf_leaves.p") = Some (Pickled l3)
        /\ fs !! (experiment_dir experiment_name +:+ "misc.p") = Some (PickledMisc k)
        /\ length l1 = num_leaves (tree_structure (opt_state_nf r))
        /\ length l2 = num_leaves (tree_structure (opt_state_nif r))
        /\ length l3 = num_leaves (tree_structure (state_nf r))
        /\ length l3 = num_leaves (tree_structure (state_nif r))
        /\ r' = Run (PyTree (tree_structure (opt_state_nf r)) l1)
                    (PyTree (tree_structure (opt_state_nif r)) l2)
                    (PyTree (tree_structure (state_nf r)) l3)
                    (PyTree (tree_structure (state_nif r)) l3)
                    k (start_it r + 1).
Proof.
  intros Hstart dir. unfold resume.
  rewrite (proj2 (Z.eqb_neq _ _) Hstart). cbn [negb]. fold dir.
  unfold load_pytree, tree_unflatten. split.
  - intros Hres.
    destruct (fs !! (dir +:+ "opt_state_nf_leaves.p")) as [[l1 | ? | ?] |];
      try discriminate.
    destruct (Nat.eqb_spec (length l1) (num_leaves (tree_structure (opt_state_nf r))));
      [| discriminate].
    cbn [Py.bind Py.ret] in Hres.
    destruct (fs !! (dir +:+ "opt_state_nif_leaves.p")) as [[l2 | ? | ?] |];
      try discriminate.
    destruct (Nat.eqb_spec (length l2) (num_leaves (tree_structure (opt_state_nif r))));
      [| discriminate].
    cbn [Py.bind Py.ret] in Hres.
    destruct (fs !! (dir +:+ "state_nf_leaves.p")) as [[l3 | ? | ?] |];
      try discriminate.
    destruct (Nat.eqb_spec (length l3) (num_leaves (tree_structure (state_nf r))));
      [| discriminate].
    destruct (Nat.eqb_spec (length l3) (num_leaves (tree_structure (state_nif r))));
      [| discriminate].
    cbn [Py.bind Py.ret] in Hres.
    destruct (fs !! _) as [[? | k | ?] |]; try discriminate.
    injection Hres as <-. exists l1, l2, l3, k. repeat split; assumption.
  - intros (l1 & l2 & l3 & k & -> & -> & -> & -> & -> & -> & H3 & H4 & ->).
    rewrite !Nat.eqb_refl. cbn [Py.bind Py.ret].
    rewrite H3, <- H4, H3, Nat.eqb_refl. reflexivity.
Qed.

End CheckpointMore.

Section CheckpointRuns.
Import Checkpoint CheckpointExample.

Lemma resume_takes_latest_key_witness :
  resume (fun td : nat => td)
    (save_checkpoint
       (save_checkpoint (∅ : gmap string (@file Z Z Q)) "CelebADefault" 500
          saved_run [] [])
       "CelebADefault" 1000 later_run [] [])
    "CelebADefault" fresh_run
  = Py.ret
      (Run (PyTree 3%nat [10; 11; 12]) (PyTree 3%nat [20; 21; 22])
           (PyTree 2%nat [1; 2]) (PyTree 2%nat [1; 2]) (key later_run) (500 + 1)).
Proof.
  apply (resume_takes_latest_key (fun td : nat => td)
           (∅ : gmap string (@file Z Z Q)) "CelebADefault" 500 1000
           saved_run later_run fresh_run [] [] [] []).
  - discriminate.
  - discriminate.
  - reflexivity.
  - reflexivity.
  - reflexivity.
  - reflexivity.
  - reflexivity.
Defined.

Lemma resume_returns_iff_witness :
  resume (fun td : nat => td) saved_files "CelebADefault" fresh_run
    = Py.ret resumed_run
  <-> exists l1 l2 l3 k,
        saved_files !! (iteration_dir "CelebADefault" 500 +:+ "opt_state_nf_leaves.p")
          = Some (Pickled l1)
        /\ saved_files !! (iteration_dir "CelebADefault" 500 +:+ "opt_state_nif_leaves.p")
           = Some (Pickled l2)
        /\ saved_files !! (iteration_dir "CelebADefault" 500 +:+ "state_nf_leaves.p")
           = Some (Pickled l3)
        /\ saved_files !! (experiment_dir "CelebADefault" +:+ "misc.p")
           = Some (PickledMisc k)
        /\ length l1 = 3%nat /\ length l2 = 3%nat
        /\ length l3 = 2%nat /\ length l3 = 2%nat
        /\ resumed_run = Run (PyTree 3%nat l1) (PyTree 3%nat l2) (PyTree 2%nat l3)
                             (PyTree 2%nat l3) k (500 + 1).
Proof.
  apply (resume_returns_iff (fun td : nat => td) saved_files "CelebADefault"
           fresh_run resumed_run).
  discriminate.
Defined.

End CheckpointRuns.
